(** * Quotation-Generator: the document conversion core (convert_file_md.py)

    A shallow embedding of the converters of [convert_file_md.py] and the
    properties of its specification.  Python strings are sequences of
    Unicode code points, Python integers are [Z], and the effects of a
    converter (printing, files, exceptions of the libraries it calls) are
    threaded through a small state-and-exception monad. *)

From Stdlib Require Import String Ascii DecimalString.
From Stdlib Require Import List NArith ZArith Lia Bool.
Import ListNotations.
Local Open Scope Z_scope.

(* ===================================================================== *)
(** * Python strings                                                      *)
(* ===================================================================== *)

(** A character is a Unicode code point; a [str] is a sequence of them. *)
Definition char := N.
Definition str := list char.

(** String literals of the source, as code points (ASCII only). *)
Definition lit (s : string) : str :=
  List.map N_of_ascii (list_ascii_of_string s).

Definition NL : char := 10%N.          (* the newline character *)
Definition BACKSLASH : char := 92%N.

(** [len(s)] *)
Definition len (s : str) : Z := Z.of_nat (List.length s).

Fixpoint str_eqb (a b : str) : bool :=
  match a, b with
  | [], [] => true
  | x :: a', y :: b' => N.eqb x y && str_eqb a' b'
  | _, _ => false
  end.

(** [c.isspace()]: the 29 code points Python treats as whitespace; the
    same set is used by [str.strip()] and by the regex class [\s]. *)
Definition isspace (c : char) : bool :=
  ((9 <=? c) && (c <=? 13) || (28 <=? c) && (c <=? 32) ||
   (c =? 133) || (c =? 160) || (c =? 5760) ||
   (8192 <=? c) && (c <=? 8202) ||
   (c =? 8232) || (c =? 8233) || (c =? 8239) || (c =? 8287) ||
   (c =? 12288))%N.

Fixpoint lstrip (s : str) : str :=
  match s with
  | c :: t => if isspace c then lstrip t else s
  | [] => []
  end.

Definition rstrip (s : str) : str := rev (lstrip (rev s)).

(** [s.strip()] *)
Definition strip (s : str) : str := rstrip (lstrip s).

(** [s.startswith(p)] *)
Fixpoint startswith (p s : str) : bool :=
  match p, s with
  | [], _ => true
  | x :: p', y :: s' => N.eqb x y && startswith p' s'
  | _ :: _, [] => false
  end.

(** [s.endswith(p)] *)
Definition endswith (p s : str) : bool := startswith (rev p) (rev s).

(** [s[i]] for an index [0 <= i]. *)
Definition getitem (s : str) (i : Z) : option char := nth_error s (Z.to_nat i).

(** [s[a:b]] for indices [0 <= a], [0 <= b]. *)
Definition slice (s : str) (a b : Z) : str :=
  firstn (Z.to_nat (b - a)) (skipn (Z.to_nat a) s).

(** [s.find(sub)], scanning from index [i]: the lowest index at which
    [sub] occurs, or [-1]. *)
Fixpoint find_from (sub s : str) (i : Z) : Z :=
  if startswith sub s then i
  else match s with
       | [] => -1
       | _ :: t => find_from sub t (i + 1)
       end.

Definition find (s sub : str) : Z := find_from sub s 0.

(** [s.rfind(sub, start)]: the highest index [>= start] at which [sub]
    occurs, or [-1]. *)
Fixpoint rfind_from (sub s : str) (start i : Z) : Z :=
  let here := if (start <=? i) && startswith sub s then i else -1 in
  match s with
  | [] => here
  | _ :: t =>
      let later := rfind_from sub t start (i + 1) in
      if later =? -1 then here else later
  end.

Definition rfind (s sub : str) (start : Z) : Z := rfind_from sub s start 0.

(** [sub in s] *)
Definition contains (sub s : str) : bool := negb (find s sub =? -1).

(** [s.split(sep)] for a one-character separator. *)
Fixpoint split (sep : char) (s : str) : list str :=
  match s with
  | [] => [[]]
  | c :: t =>
      if N.eqb c sep then [] :: split sep t
      else match split sep t with
           | l :: ls => (c :: l) :: ls
           | [] => [[c]]
           end
  end.

(** [sep.join(parts)] *)
Fixpoint join (sep : str) (parts : list str) : str :=
  match parts with
  | [] => []
  | [p] => p
  | p :: rest => p ++ sep ++ join sep rest
  end.

(** [c * n] for a one-character string [c]. *)
Definition times (c : char) (n : Z) : str := repeat c (Z.to_nat n).

(** [str(n)] / [f"{n}"] for a non-negative integer. *)
Definition str_of_Z (n : Z) : str :=
  lit (NilEmpty.string_of_uint (N.to_uint (Z.to_N n))).

(* ===================================================================== *)
(** * The Markup Normalizer (convert_md_to_pdf, lines 299-349)            *)
(* ===================================================================== *)

Definition FENCE : str := Eval cbv in lit "```".
Definition FENCE_MARKDOWN : str := Eval cbv in lit "```markdown".

Definition block_start_variants : list str := [FENCE_MARKDOWN; FENCE].

(** [idx == 0 or md_content[idx-1].isspace()] *)
Definition at_start_or_after_space (md_content : str) (idx : Z) : bool :=
  (idx =? 0) ||
  match getitem md_content (idx - 1) with
  | Some c => isspace c
  | None => false
  end.

(** The loop over [block_start_variants]: the first variant whose first
    occurrence is acceptable gives [(start_index, actual_start_marker)]. *)
Fixpoint select_marker (md_content : str) (variants : list str)
  : option (Z * str) :=
  match variants with
  | [] => None
  | marker :: rest =>
      let idx := find md_content marker in
      if negb (idx =? -1) && at_start_or_after_space md_content idx
      then Some (idx + len marker, marker)
      else select_marker md_content rest
  end.

(** The fallback shared by both branches: drop the first line, and the
    last line when it is a bare fence. *)
Definition drop_fence_lines (stripped_md : str) : str :=
  let lines := split NL stripped_md in
  let lines := List.tl lines in                        (* lines.pop(0) *)
  let lines :=
    match lines with
    | [] => lines
    | _ :: _ =>
        if str_eqb (strip (List.last lines [])) FENCE
        then List.removelast lines                     (* lines.pop(-1) *)
        else lines
    end in
  join [NL] lines.

Definition normalize (md_content : str) : str :=
  match select_marker md_content block_start_variants with
  | Some (start_index, actual_start_marker) =>
      let end_index := rfind md_content FENCE start_index in
      if negb (end_index =? -1) then
        strip (slice md_content start_index end_index)
      else
        let stripped_md := strip md_content in
        if startswith actual_start_marker stripped_md
           && endswith FENCE stripped_md
        then drop_fence_lines stripped_md
        else md_content
  | None =>
      let stripped_md := strip md_content in
      if startswith FENCE stripped_md && endswith FENCE stripped_md
      then drop_fence_lines stripped_md
      else md_content
  end.

(* ===================================================================== *)
(** * Unicode tables and regular-expression substitution                  *)
(* ===================================================================== *)

Definition ascii_lower (c : char) : char :=
  if ((65 <=? c) && (c <=? 90))%N then (c + 32)%N else c.

(** The tables of the Unicode database that the converters consult through
    [int()], [\w], [\d], [str.isupper()] and [str.lower()].  They are not
    part of the repository; the laws fix them on the ASCII range. *)
Class Unicode : Type := {
  decimal_value : char -> option Z;     (* int(c) of a one-character string *)
  is_alnum : char -> bool;              (* c.isalnum() *)
  isupper : str -> bool;                (* s.isupper() *)
  lower : str -> str;                   (* s.lower() *)
  decimal_value_ascii : forall c, (c < 128)%N ->
    decimal_value c =
      if ((48 <=? c) && (c <=? 57))%N then Some (Z.of_N c - 48) else None;
  decimal_value_range : forall c d, decimal_value c = Some d -> 0 <= d <= 9;
  lower_ascii_head : forall c s, (c < 128)%N ->
    exists s', lower (c :: s) = ascii_lower c :: s'
}.

Section ReSub.
(** [try_match prev s]: the pattern tried at the position where [s]
    starts and [prev] is the character before it; a match gives its
    replacement and the number of characters it consumes (at least 1 for
    every pattern of this file). *)
Variable try_match : option char -> str -> option (str * nat).

(** [re.sub(pattern, repl, s)]: leftmost non-overlapping matches, left to
    right; unmatched characters are copied.  [skip] counts the
    characters of the current match still to be dropped. *)
Fixpoint re_sub_from (skip : nat) (prev : option char) (s : str) : str :=
  match s with
  | [] => []
  | c :: t =>
      match skip with
      | S k => re_sub_from k (Some c) t
      | O =>
          match try_match prev s with
          | Some (repl, n) => repl ++ re_sub_from (Nat.pred n) (Some c) t
          | None => c :: re_sub_from O (Some c) t
          end
      end
  end.

Definition re_sub (s : str) : str := re_sub_from O None s.
End ReSub.

(** The longest prefix of [s] free of [stop], and the rest. *)
Fixpoint span_until (stop : char) (s : str) : str * str :=
  match s with
  | [] => ([], [])
  | c :: t =>
      if N.eqb c stop then ([], s)
      else let (a, b) := span_until stop t in (c :: a, b)
  end.

(** The number of leading characters of [s] satisfying [p]. *)
Fixpoint count_while (p : char -> bool) (s : str) : nat :=
  match s with
  | c :: t => if p c then S (count_while p t) else O
  | [] => O
  end.

(* ===================================================================== *)
(** * DOCX to Markdown (convert_docx_to_md)                               *)
(* ===================================================================== *)

Record Run : Type := {
  run_text : str;
  run_bold : bool;           (* truth value of run.bold *)
  run_italic : bool;         (* truth value of run.italic *)
  run_is_drawing : bool      (* isinstance(run.element, CT_Drawing) *)
}.

Record Paragraph : Type := {
  para_text : str;
  style_name : str;
  runs : list Run
}.

(** A table is its rows; a row is the text of its cells. *)
Definition Table := list (list str).

(** The elements of [doc.element.body]. *)
Inductive Block : Type :=
| CT_P (para : Paragraph)
| CT_Tbl (table : Table)
| CT_Other.                  (* e.g. the section properties element *)

Definition Document := list Block.

(** The line-break marker the converter writes: the Python literal
    ['\\n'], a backslash followed by the letter n. *)
Definition BSN : str := Eval cbv in lit "\n".
Definition BSN2 : str := Eval cbv in lit "\n\n".

Definition HASH : char := 35%N.
Definition SPACE : char := 32%N.

Section DocxToMd.
Context {U : Unicode}.

(** [int(para.style.name[-1])], [None] standing for [ValueError]. *)
Definition int_of_last (name : str) : option Z :=
  match rev name with
  | c :: _ => decimal_value c
  | [] => None
  end.

Definition heading_level (name : str) : Z :=
  match int_of_last name with
  | Some n => n
  | None =>
      if str_eqb (lower name) (lit "title") then 1
      else if str_eqb (lower name) (lit "subtitle") then 2
      else 1
  end.

Definition run_markup (run : Run) : str :=
  let text := run_text run in
  if run_bold run && run_italic run then lit "***" ++ text ++ lit "***"
  else if run_bold run then lit "**" ++ text ++ lit "**"
  else if run_italic run then lit "*" ++ text ++ lit "*"
  else text.

(** What one paragraph block appends to [md_content]. *)
Definition emit_paragraph (para : Paragraph) : list str :=
  match strip (para_text para) with
  | [] =>
      if negb (existsb run_is_drawing (runs para)) then [BSN] else []
  | _ :: _ =>
      if startswith (lit "Heading") (style_name para) then
        let level := heading_level (style_name para) in
        if level >? 0 then
          [times HASH level ++ [SPACE] ++ strip (para_text para) ++ BSN2]
        else
          [lit "## " ++ strip (para_text para) ++ BSN2]
      else
        [concat (List.map run_markup (runs para)) ++ BSN2]
  end.

Definition pipe_row (cells : list str) : str :=
  lit "| " ++ join (lit " | ") cells ++ lit " |\n".

(** What one table block appends to [md_content]. *)
Definition emit_table (table : Table) : list str :=
  match table with
  | [] => []                                  (* skip empty tables *)
  | header_cells :: data_rows =>
      [pipe_row (List.map strip header_cells)]
      ++ [pipe_row (List.map (fun _ => lit "---") header_cells)]
      ++ List.map (fun row => pipe_row (List.map strip row)) data_rows
      ++ [BSN]
  end.

Definition emit_block (block : Block) : list str :=
  match block with
  | CT_P para => emit_paragraph para
  | CT_Tbl table => emit_table table
  | CT_Other => []
  end.

Definition md_content_of (body : Document) : list str :=
  flat_map emit_block body.
End DocxToMd.

(** The number of consecutive markers (backslash, n) [s] starts with. *)
Fixpoint count_markers (s : str) : nat :=
  match s with
  | b :: n :: t =>
      if (N.eqb b 92 && N.eqb n 110)%N then S (count_markers t) else O
  | _ => O
  end.

(** The pattern [r'(\\n){3,}'] with the replacement template ['\\n\\n']:
    the pattern matches three or more markers, as many as there are; in the
    template [re.sub] reads each backslash-n as an escape, a newline. *)
Definition collapse_match (_ : option char) (s : str) : option (str * nat) :=
  let k := count_markers s in
  if (3 <=? k)%nat then Some ([NL; NL], (2 * k)%nat) else None.

Definition docx_final_md {U : Unicode} (body : Document) : str :=
  re_sub collapse_match (concat (md_content_of body)).

(* ===================================================================== *)
(** * Markdown to plain text (convert_md_to_txt, lines 487-497)           *)
(* ===================================================================== *)

Definition STAR : char := 42%N.
Definition UNDERSCORE : char := 95%N.
Definition BACKTICK : char := 96%N.

Section MdToTxt.
Context {U : Unicode}.

(** [\w] *)
Definition is_word (c : char) : bool := is_alnum c || N.eqb c UNDERSCORE.

(** [#+\s+] *)
Definition header_match (_ : option char) (s : str) : option (str * nat) :=
  let k := count_while (N.eqb HASH) s in
  let w := count_while isspace (skipn k s) in
  if (1 <=? k)%nat && (1 <=? w)%nat then Some ([], (k + w)%nat) else None.

(** [\*\*|\*|__|\b_\b] *)
Definition emphasis_match (prev : option char) (s : str)
  : option (str * nat) :=
  match s with
  | c :: t =>
      if N.eqb c STAR then
        match t with
        | d :: _ => if N.eqb d STAR then Some ([], 2%nat) else Some ([], 1%nat)
        | [] => Some ([], 1%nat)
        end
      else if N.eqb c UNDERSCORE then
        match t with
        | d :: _ =>
            if N.eqb d UNDERSCORE then Some ([], 2%nat)
            else if negb (match prev with Some p => is_word p | None => false end)
                    && negb (is_word d)
            then Some ([], 1%nat) else None
        | [] =>
            if negb (match prev with Some p => is_word p | None => false end)
            then Some ([], 1%nat) else None
        end
      else None
  | [] => None
  end.

(** [\[([^\]]+)\]\([^)]+\)] at the start of [s]: the label (group 1) and
    the length of the match. *)
Definition bracket_paren (s : str) : option (str * nat) :=
  match s with
  | c :: t =>
      if N.eqb c 91 then
        let (label, r1) := span_until 93%N t in
        match label, r1 with
        | _ :: _, _ :: p :: r2 =>
            if N.eqb p 40 then
              let (url, r3) := span_until 41%N r2 in
              match url, r3 with
              | _ :: _, _ :: _ =>
                  Some (label, (List.length label + List.length url + 4)%nat)
              | _, _ => None
              end
            else None
        | _, _ => None
        end
      else None
  | [] => None
  end.

(** links: replaced by their label *)
Definition link_match (_ : option char) (s : str) : option (str * nat) :=
  bracket_paren s.

(** images [!\[([^\]]+)\]\([^)]+\)]: removed *)
Definition image_match (_ : option char) (s : str) : option (str * nat) :=
  match s with
  | c :: t =>
      if N.eqb c 33 then
        match bracket_paren t with
        | Some (_, n) => Some ([], S n)
        | None => None
        end
      else None
  | [] => None
  end.

(** code blocks [```[^`]*```]: removed *)
Definition code_block_match (_ : option char) (s : str)
  : option (str * nat) :=
  if startswith FENCE s then
    let (body, r) := span_until BACKTICK (skipn 3 s) in
    if startswith FENCE r then Some ([], (List.length body + 6)%nat)
    else None
  else None.

(** The text written by [convert_md_to_txt] for the text it read. *)
Definition md_to_txt_text (md_content : str) : str :=
  let txt_content := re_sub header_match md_content in
  let txt_content := re_sub emphasis_match txt_content in
  let txt_content := re_sub link_match txt_content in
  let txt_content := re_sub image_match txt_content in
  let txt_content := re_sub code_block_match txt_content in
  txt_content.
End MdToTxt.

(** The tables restricted to ASCII, for running the converters on ASCII
    text. *)
Definition ascii_decimal_value (c : char) : option Z :=
  if ((48 <=? c) && (c <=? 57))%N then Some (Z.of_N c - 48) else None.

Definition ascii_is_alnum (c : char) : bool :=
  ((48 <=? c) && (c <=? 57) || (65 <=? c) && (c <=? 90) ||
   (97 <=? c) && (c <=? 122))%N.

Definition ascii_isupper (s : str) : bool :=
  existsb (fun c => (65 <=? c) && (c <=? 90))%N s
  && negb (existsb (fun c => (97 <=? c) && (c <=? 122))%N s).

#[export] Instance ascii_tables : Unicode.
Proof.
  refine {| decimal_value := ascii_decimal_value;
            is_alnum := ascii_is_alnum;
            isupper := ascii_isupper;
            lower := List.map ascii_lower |}.
  - reflexivity.
  - unfold ascii_decimal_value; intros c d Hd.
    destruct ((48 <=? c) && (c <=? 57))%N eqn:E; [|discriminate].
    apply andb_true_iff in E; destruct E as [E1 E2].
    apply N.leb_le in E1, E2. injection Hd as <-. lia.
  - intros c s _; exists (List.map ascii_lower s); reflexivity.
Defined.

(* ===================================================================== *)
(** * Effects: exceptions, printing and files                             *)
(* ===================================================================== *)

(** The outcome of a call: a value, or an exception (an instance of
    [Exception]) carrying its message [str(e)]. *)
Inductive result (A : Type) : Type :=
| Ok (a : A)
| Raise (msg : str).
Arguments Ok {A} a.
Arguments Raise {A} msg.

(** What a converter leaves on disk. *)
Inductive FileContent : Type :=
| TextFile (content : str)                 (* file.write(content) *)
| ImageFile (image : str)                  (* image.save(path) *)
| PdfPage (html css : str)                 (* the page filled by insert_htmlbox *)
| DocxFile (paragraphs : list str)         (* doc.add_paragraph, in order *)
| PdfOfDocx (docx_path : str).             (* written by the document engine *)

(** What is printed: a line of text, or [repr(s)] of a string. *)
Inductive Printed : Type :=
| Line (s : str)
| Repr (s : str).

Record World : Type := {
  stdout : list Printed;
  disk : list (str * FileContent)
}.

Definition M (A : Type) : Type := World -> result A * World.

Definition ret {A} (a : A) : M A := fun w => (Ok a, w).

Definition bind {A B} (m : M A) (k : A -> M B) : M B :=
  fun w => match m w with
           | (Ok a, w') => k a w'
           | (Raise e, w') => (Raise e, w')
           end.

Notation "x <- m ;; k" := (bind m (fun x => k))
  (at level 61, m at next level, right associativity).
Notation "m ;; k" := (bind m (fun _ => k))
  (at level 61, right associativity).

(** A call to a library: its outcome is lifted into the monad. *)
Definition call {A} (r : result A) : M A := fun w => (r, w).

(** [try: body except Exception as e: handler(str(e))] *)
Definition try_except {A} (body : M A) (handler : str -> M A) : M A :=
  fun w => match body w with
           | (Ok a, w') => (Ok a, w')
           | (Raise e, w') => handler e w'
           end.

(** [print(p)] on a stdout that takes every line; [Stdout.print] below
    is [print] on any stdout. *)
Definition print (p : Printed) : M unit :=
  fun w => (Ok tt, {| stdout := stdout w ++ [p]; disk := disk w |}).

Definition store (path : str) (c : FileContent) : M unit :=
  fun w => (Ok tt, {| stdout := stdout w; disk := disk w ++ [(path, c)] |}).

(** The value [page.insert_htmlbox] hands back, as the code inspects it. *)
Inductive HtmlBoxValue : Type :=
| BoxInt (n : Z)
| BoxRect (is_empty : bool) (shown : str)   (* a fitz.Rect and its text *)
| BoxOther.                                 (* any other value *)

(** A page of an opened PDF and the document it belongs to. *)
Record Page : Type := {
  get_text : result str;                    (* page.get_text() *)
  get_images : result (list N)              (* img_info[0] of each image *)
}.

Record PdfDoc : Type := {
  pages : list Page;
  extract_image : N -> result str           (* doc.extract_image(xref)["image"] *)
}.

(** The calls that leave the repository: the file system and the
    libraries.  Each may raise. *)
Record Env : Type := {
  read_text : str -> result str;            (* open(p, 'r', utf-8).read() *)
  open_w : str -> result unit;              (* opening p for writing *)
  fitz_open : str -> result PdfDoc;         (* fitz.open(p) *)
  Image_open : str -> result str;           (* Image.open(BytesIO(bytes)) *)
  docx_Document : str -> result Document;   (* docx.Document(p) *)
  markdown_markdown : str -> list str -> result str;
  insert_htmlbox : str -> str -> result HtmlBoxValue;
  docx_to_pdf_converter : str -> str -> result unit;
  path_suffix : str -> str;                 (* Path(p).suffix *)
  docx_add_paragraph : str -> result unit   (* doc.add_paragraph(text) *)
}.

(** [posixpath.dirname] and [posixpath.join]. *)
Definition SLASH : char := 47%N.

Definition rstrip_slash (s : str) : str :=
  rev (skipn (count_while (N.eqb SLASH) (rev s)) (rev s)).

Definition os_path_dirname (p : str) : str :=
  let i := rfind p [SLASH] 0 + 1 in
  let head := slice p 0 i in
  match head with
  | [] => head
  | _ :: _ => if forallb (N.eqb SLASH) head then head else rstrip_slash head
  end.

Definition os_path_join (a b : str) : str :=
  if startswith [SLASH] b then b
  else match a with
       | [] => b
       | _ :: _ => if endswith [SLASH] a then a ++ b else a ++ [SLASH] ++ b
       end.

Section Converters.
Context {U : Unicode}.
Variable E : Env.

(** [with open(path, 'w', encoding='utf-8') as file: file.write(content)] *)
Definition write_text (path content : str) : M unit :=
  call (open_w E path) ;; store path (TextFile content).

(* ------------------------------------------------------------------- *)
(** ** convert_pdf_to_md                                                *)

Definition image_filename (page_num img_index : Z) : str :=
  lit "image_p" ++ str_of_Z (page_num + 1) ++ lit "_"
  ++ str_of_Z (img_index + 1) ++ lit ".png".

Definition image_reference (page_num img_index : Z) : str :=
  lit "![Image " ++ str_of_Z (img_index + 1) ++ lit " from page "
  ++ str_of_Z (page_num + 1) ++ lit "](" ++ image_filename page_num img_index
  ++ lit ")" ++ [NL; NL].

(** [for img_index, img_info in enumerate(image_list)], from [img_index]. *)
Fixpoint images_loop (doc : PdfDoc) (pdf_path : str) (page_num img_index : Z)
    (image_list : list N) (md_content : list str) : M (list str) :=
  match image_list with
  | [] => ret md_content
  | xref :: rest =>
      image_bytes <- call (extract_image doc xref) ;;
      image <- call (Image_open E image_bytes) ;;
      let img_filename := image_filename page_num img_index in
      let image_path := os_path_join (os_path_dirname pdf_path) img_filename in
      call (open_w E image_path) ;;
      store image_path (ImageFile image) ;;
      images_loop doc pdf_path page_num (img_index + 1) rest
        (md_content ++ [image_reference page_num img_index])
  end.

(** [for page_num, page in enumerate(doc)], from [page_num]. *)
Fixpoint pages_loop (doc : PdfDoc) (pdf_path : str) (page_num : Z)
    (todo : list Page) (md_content : list str) : M (list str) :=
  match todo with
  | [] => ret md_content
  | page :: rest =>
      text <- call (get_text page) ;;
      let md_content :=
        md_content ++ [lit "## Page " ++ str_of_Z (page_num + 1) ++ [NL]] in
      let md_content := md_content ++ [text] in
      let md_content := md_content ++ [[NL; NL]] in
      image_list <- call (get_images page) ;;
      md_content <- images_loop doc pdf_path page_num 0 image_list md_content ;;
      pages_loop doc pdf_path (page_num + 1) rest md_content
  end.

Definition convert_pdf_to_md (pdf_path : str) : M str :=
  try_except
    (doc <- call (fitz_open E pdf_path) ;;
     md_content <- pages_loop doc pdf_path 0 (pages doc) [] ;;
     ret (concat md_content))
    (fun e => ret (lit "Error converting PDF to Markdown: " ++ e)).

(* ------------------------------------------------------------------- *)
(** ** convert_docx_to_md                                               *)

Definition convert_docx_to_md (docx_path output_path : str) : M str :=
  try_except
    (doc <- call (docx_Document E docx_path) ;;
     let final_md := docx_final_md doc in
     try_except
       (write_text output_path final_md)
       (fun file_error =>
          print (Line (lit "Warning: Could not save file to " ++ output_path
                       ++ lit ": " ++ file_error))) ;;
     ret (strip final_md))
    (fun e => ret (lit "Error converting DOCX to Markdown: " ++ e)).

(* ------------------------------------------------------------------- *)
(** ** convert_docx_to_pdf                                              *)

Definition ENGINE_MISSING : str :=
  lit "Neither MS Word nor LibreOffice found".

Definition ENGINE_MISSING_LINE : str :=
  lit "Error converting DOCX to PDF: Microsoft Word or LibreOffice not found. Please install one and ensure it's in your PATH.".

Definition convert_docx_to_pdf (docx_path output_pdf_path : str) : M bool :=
  try_except
    (call (docx_to_pdf_converter E docx_path output_pdf_path) ;;
     store output_pdf_path (PdfOfDocx docx_path) ;;
     ret true)
    (fun error_message =>
       (if contains ENGINE_MISSING error_message
        then print (Line ENGINE_MISSING_LINE)
        else print (Line (lit "Error converting DOCX to PDF: "
                          ++ error_message))) ;;
       ret false).

(* ------------------------------------------------------------------- *)
(** ** convert_txt_to_md                                                *)

(** [re.match(r'^\d+[\.\)]', s)] *)
Definition numbered (s : str) : bool :=
  let k := count_while
             (fun c => match decimal_value c with Some _ => true | None => false end)
             s in
  (1 <=? k)%nat &&
  match skipn k s with
  | c :: _ => N.eqb c 46 || N.eqb c 41
  | [] => false
  end.

Definition BULLET : char := 8226%N.

Definition txt_line (line : str) : str :=
  match strip line with
  | [] => [NL]
  | _ :: _ =>
      if isupper line || endswith (lit ":") (strip line) then
        lit "## " ++ line ++ [NL; NL]
      else if numbered (strip line) || startswith [BULLET] (strip line) then
        line ++ [NL]
      else
        line ++ [NL]
  end.

Definition convert_txt_to_md (txt_path : str) : M str :=
  try_except
    (content <- call (read_text E txt_path) ;;
     let lines := split NL content in
     ret (concat (List.map txt_line lines)))
    (fun e => ret (lit "Error converting TXT to Markdown: " ++ e)).

(* ------------------------------------------------------------------- *)
(** ** save_markdown_file                                               *)

Definition save_markdown_file (markdown_content output_path : str) : M bool :=
  try_except
    (write_text output_path markdown_content ;; ret true)
    (fun e =>
       print (Line (lit "Error saving markdown file: " ++ e)) ;; ret false).

(* ------------------------------------------------------------------- *)
(** ** convert_md_to_pdf                                                *)

Definition QUOTE : char := 34%N.

Definition letterhead_spacer_html : str :=
  lit "<div style=" ++ [QUOTE] ++ lit "height: 3cm;" ++ [QUOTE]
  ++ lit "></div>".

Definition styling_css : str := lit "
            body { font-family: Arial, sans-serif; margin: 0; line-height: 1.2; } /* Adjusted margin for snippet */
            h1 { color: #333; margin-bottom: 10px; font-size: 24px; }
            h2 { color: #444; margin-bottom: 8px; font-size: 20px; }
            h3 { color: #555; margin-bottom: 6px; font-size: 16px; }
            p { margin-top: 5px; margin-bottom: 5px; }
            pre { background-color: #f5f5f5; padding: 8px; border-radius: 5px; white-space: pre-wrap; word-wrap: break-word; }
            code { font-family: monospace; }
            blockquote { border-left: 4px solid #ccc; padding-left: 15px; color: #777; margin: 10px 0; }
            table { border-collapse: collapse; width: 100%; margin-bottom: 10px; }
            th, td { border: 1px solid #ddd; padding: 6px; text-align: left; }
            th { background-color: #f2f2f2; }
            ul, ol { margin-top: 5px; margin-bottom: 5px; padding-left: 20px; }
            li { margin-bottom: 3px; }
        ".

Definition html_for_fitz (html_snippet_with_spacer : str) : str :=
  lit "<!DOCTYPE html><html><head><meta charset=" ++ [QUOTE] ++ lit "utf-8"
  ++ [QUOTE] ++ lit "></head>
        <body>" ++ html_snippet_with_spacer ++ lit "</body></html>".

(** The checks on the value returned by [insert_htmlbox]: each case
    prints a warning, or nothing. *)
Definition report_htmlbox (returned_value : HtmlBoxValue) : M unit :=
  match returned_value with
  | BoxInt n =>
      if n =? -1 then
        print (Line (lit "Warning: fitz.insert_htmlbox general error (code -1)."))
      else if n =? -2 then
        print (Line (lit "Warning: fitz.insert_htmlbox invalid HTML/CSS (code -2)."))
      else ret tt
  | BoxRect is_empty shown =>
      if negb is_empty then
        print (Line (lit "Warning: fitz.insert_htmlbox indicates content overflow. Overflow area: "
                     ++ shown))
      else ret tt
  | BoxOther => ret tt
  end.

Definition convert_md_to_pdf (md_path output_path : str) : M bool :=
  try_except
    (md_content <- call (read_text E md_path) ;;
     let cleaned_md_content := normalize md_content in
     print (Line (lit "--- Cleaned MD Content for Markdown Parser ---")) ;;
     print (Repr cleaned_md_content) ;;
     print (Line (lit "---------------------------------------------")) ;;
     html_snippet <- call (markdown_markdown E cleaned_md_content
                             [lit "tables"; lit "fenced_code"]) ;;
     let html_snippet_with_spacer := letterhead_spacer_html ++ html_snippet in
     print (Line (lit "--- Generated HTML Snippet for PDF Conversion ---")) ;;
     print (Line html_snippet_with_spacer) ;;
     print (Line (lit "--------------------------------------------------")) ;;
     let html := html_for_fitz html_snippet_with_spacer in
     returned_value <- call (insert_htmlbox E html styling_css) ;;
     report_htmlbox returned_value ;;
     call (open_w E output_path) ;;
     store output_path (PdfPage html styling_css) ;;
     ret true)
    (fun e =>
       print (Line (lit "Error converting Markdown to PDF: " ++ e)) ;;
       ret false).

(* ------------------------------------------------------------------- *)
(** ** convert_md_to_docx                                               *)

(** [<.*?>] *)
Definition tag_match (_ : option char) (s : str) : option (str * nat) :=
  match s with
  | c :: t =>
      if N.eqb c 60 then
        let (body, r) := span_until 62%N t in
        match r with
        | _ :: _ =>
            if forallb (fun d => negb (N.eqb d NL)) body
            then Some ([], (List.length body + 2)%nat) else None
        | [] => None
        end
      else None
  | [] => None
  end.

(** The lines of the HTML that are kept, cleaned. *)
Fixpoint html_paragraphs (lines : list str) : list str :=
  match lines with
  | [] => []
  | line :: rest =>
      let clean_line := strip (re_sub tag_match line) in
      match clean_line with
      | [] => html_paragraphs rest
      | _ :: _ => clean_line :: html_paragraphs rest
      end
  end.

(** The loop over the lines of the HTML (lines 456-460): each kept line is
    handed to [doc.add_paragraph], which refuses a text that is not
    XML compatible; the paragraphs added, in order. *)
Fixpoint add_paragraphs (lines : list str) : M (list str) :=
  match lines with
  | [] => ret []
  | line :: rest =>
      let clean_line := strip (re_sub tag_match line) in
      match clean_line with
      | [] => add_paragraphs rest
      | _ :: _ =>
          call (docx_add_paragraph E clean_line) ;;
          paragraphs <- add_paragraphs rest ;;
          ret (clean_line :: paragraphs)
      end
  end.

Definition convert_md_to_docx (md_path output_path : str) : M bool :=
  try_except
    (md_content <- call (read_text E md_path) ;;
     html_content <- call (markdown_markdown E md_content []) ;;
     paragraphs <- add_paragraphs (split NL html_content) ;;
     call (open_w E output_path) ;;
     store output_path (DocxFile paragraphs) ;;
     ret true)
    (fun e =>
       print (Line (lit "Error converting Markdown to DOCX: " ++ e)) ;;
       ret false).

(* ------------------------------------------------------------------- *)
(** ** convert_md_to_txt                                                *)

Definition convert_md_to_txt (md_path output_path : str) : M bool :=
  try_except
    (md_content <- call (read_text E md_path) ;;
     let txt_content := md_to_txt_text md_content in
     write_text output_path txt_content ;;
     ret true)
    (fun e =>
       print (Line (lit "Error converting Markdown to TXT: " ++ e)) ;;
       ret false).

(* ------------------------------------------------------------------- *)
(** ** The dispatchers                                                  *)

Definition convert_file_to_md (file_path : str) : M str :=
  let extension := lower (path_suffix E file_path) in
  if str_eqb extension (lit ".pdf") then convert_pdf_to_md file_path
  else if str_eqb extension (lit ".docx") then
    convert_docx_to_md file_path (lit "bill_generator/bill.md")
  else if str_eqb extension (lit ".txt") then convert_txt_to_md file_path
  else ret (lit "Unsupported file format: " ++ extension).

Definition convert_md_to_file (md_path output_path : str) : M bool :=
  let extension := lower (path_suffix E output_path) in
  if str_eqb extension (lit ".pdf") then convert_md_to_pdf md_path output_path
  else if str_eqb extension (lit ".docx") then
    convert_md_to_docx md_path output_path
  else if str_eqb extension (lit ".txt") then
    convert_md_to_txt md_path output_path
  else
    print (Line (lit "Unsupported output format: " ++ extension)) ;;
    ret false.
End Converters.

(* ===================================================================== *)
(** * The Markdown converters on a stdout that can refuse a line          *)
(* ===================================================================== *)

(** The definitions above take stdout to accept every line, which is what
    the statements about the lines printed presuppose.  [print] itself can
    raise: [UnicodeEncodeError] for a character the encoding of stdout does
    not have, [ValueError] on a closed stream.  Here the converters that
    read a Markdown file are written again with that outcome; everything
    but [print] is as above. *)
Module Stdout.
Section Converters.
Context {U : Unicode}.
Variable E : Env.

(** What the stream answers when [print] writes a line to it. *)
Variable stdout_write : Printed -> result unit.

Definition print (p : Printed) : M unit :=
  fun w => match stdout_write p with
           | Ok _ => (Ok tt, {| stdout := stdout w ++ [p]; disk := disk w |})
           | Raise e => (Raise e, w)
           end.

Definition report_htmlbox (returned_value : HtmlBoxValue) : M unit :=
  match returned_value with
  | BoxInt n =>
      if n =? -1 then
        print (Line (lit "Warning: fitz.insert_htmlbox general error (code -1)."))
      else if n =? -2 then
        print (Line (lit "Warning: fitz.insert_htmlbox invalid HTML/CSS (code -2)."))
      else ret tt
  | BoxRect is_empty shown =>
      if negb is_empty then
        print (Line (lit "Warning: fitz.insert_htmlbox indicates content overflow. Overflow area: "
                     ++ shown))
      else ret tt
  | BoxOther => ret tt
  end.

Definition convert_md_to_pdf (md_path output_path : str) : M bool :=
  try_except
    (md_content <- call (read_text E md_path) ;;
     let cleaned_md_content := normalize md_content in
     print (Line (lit "--- Cleaned MD Content for Markdown Parser ---")) ;;
     print (Repr cleaned_md_content) ;;
     print (Line (lit "---------------------------------------------")) ;;
     html_snippet <- call (markdown_markdown E cleaned_md_content
                             [lit "tables"; lit "fenced_code"]) ;;
     let html_snippet_with_spacer := letterhead_spacer_html ++ html_snippet in
     print (Line (lit "--- Generated HTML Snippet for PDF Conversion ---")) ;;
     print (Line html_snippet_with_spacer) ;;
     print (Line (lit "--------------------------------------------------")) ;;
     let html := html_for_fitz html_snippet_with_spacer in
     returned_value <- call (insert_htmlbox E html styling_css) ;;
     report_htmlbox returned_value ;;
     call (open_w E output_path) ;;
     store output_path (PdfPage html styling_css) ;;
     ret true)
    (fun e =>
       print (Line (lit "Error converting Markdown to PDF: " ++ e)) ;;
       ret false).

Definition convert_md_to_docx (md_path output_path : str) : M bool :=
  try_except
    (md_content <- call (read_text E md_path) ;;
     html_content <- call (markdown_markdown E md_content []) ;;
     paragraphs <- add_paragraphs E (split NL html_content) ;;
     call (open_w E output_path) ;;
     store output_path (DocxFile paragraphs) ;;
     ret true)
    (fun e =>
       print (Line (lit "Error converting Markdown to DOCX: " ++ e)) ;;
       ret false).

Definition convert_md_to_txt (md_path output_path : str) : M bool :=
  try_except
    (md_content <- call (read_text E md_path) ;;
     let txt_content := md_to_txt_text md_content in
     write_text E output_path txt_content ;;
     ret true)
    (fun e =>
       print (Line (lit "Error converting Markdown to TXT: " ++ e)) ;;
       ret false).

(** The dispatcher over them; its own [print] stands outside every
    [try]. *)
Definition convert_md_to_file (md_path output_path : str) : M bool :=
  let extension := lower (path_suffix E output_path) in
  if str_eqb extension (lit ".pdf") then convert_md_to_pdf md_path output_path
  else if str_eqb extension (lit ".docx") then
    convert_md_to_docx md_path output_path
  else if str_eqb extension (lit ".txt") then
    convert_md_to_txt md_path output_path
  else
    print (Line (lit "Unsupported output format: " ++ extension)) ;;
    ret false.
End Converters.
End Stdout.

(* ===================================================================== *)
(** * The chat application (app.py)                                       *)
(* ===================================================================== *)

Module App.

(** A message of the chat history: the dictionary built by
    [add_message_to_history].  The content is a string, or [None] when the
    response of the model has no text; the two image entries are present
    together or not at all. *)
Record Message : Type := {
  msg_role : str;                          (* message["role"] *)
  msg_content : option str;                (* message["content"] *)
  msg_image : option (list N * str)        (* image_bytes, image_caption *)
}.

(** The dictionary kept for a file waiting to be processed. *)
Record UploadedInfo : Type := {
  info_name : str;                         (* "name" *)
  info_type : str;                         (* "type" *)
  info_data : list N                       (* "data" *)
}.

(** The file held by the uploader widget. *)
Record UploadedFile : Type := {
  file_name : str;                         (* uploaded_file.name *)
  file_type : str;                         (* uploaded_file.type *)
  getvalue : list N                        (* uploaded_file.getvalue() *)
}.

(** The values this program keeps in [st.session_state]. *)
Inductive Value : Type :=
| VNone
| VStr (s : str)
| VMessages (messages : list Message)
| VInfo (info : UploadedInfo).

(** [bool(v)] *)
Definition truthy (v : Value) : bool :=
  match v with
  | VNone => false
  | VStr [] => false
  | VStr (_ :: _) => true
  | VMessages [] => false
  | VMessages (_ :: _) => true
  | VInfo _ => true                        (* a dictionary of three keys *)
  end.

Definition nonempty {T : Type} (l : list T) : bool :=
  match l with [] => false | _ :: _ => true end.

(** [st.session_state], a dictionary with string keys. *)
Definition SessionState : Type := list (str * Value).

Fixpoint state_get (state : SessionState) (key : str) : option Value :=
  match state with
  | [] => None
  | (k, v) :: rest => if str_eqb k key then Some v else state_get rest key
  end.

Fixpoint state_set (state : SessionState) (key : str) (v : Value)
  : SessionState :=
  match state with
  | [] => [(key, v)]
  | (k, x) :: rest =>
      if str_eqb k key then (k, v) :: rest
      else (k, x) :: state_set rest key v
  end.

(** [types.Part]: built by [Part.from_text(text=...)] or by
    [Part(inline_data=Blob(data=..., mime_type=...))]. *)
Inductive Part : Type :=
| from_text (text : option str)
| inline_data (data : list N) (mime_type : str).

(** [types.Content(role=..., parts=...)] *)
Record Content : Type := {
  role : str;
  parts : list Part
}.

(** What the script puts on the page, in order.  The containers
    ([st.chat_message], [st.spinner]) only place what is shown and are
    left out. *)
Inductive Shown : Type :=
| st_write (text : str)
| st_warning (text : str)
| st_error (text : str)
| st_markdown (body : option str)
| st_rerun.

(** The calls into libraries whose outcome the script depends on. *)
Record AppEnv : Type := {
  (* template.format(doc_type_name=doc_type_name) *)
  str_format : str -> str -> result str;
  (* client.models.generate_content(model=..., contents=...).text *)
  generate_content : list Content -> result (option str);
  (* st.markdown(body), which is called inside the try block *)
  markdown : option str -> result unit;
  (* str(v) inside an f-string, for a value that is no string *)
  format_value : Value -> str
}.

Record AppWorld : Type := {
  session_state : SessionState;
  page : list Shown;                       (* what was shown, in order *)
  requests : list (list Content)           (* the contents sent to the model *)
}.

(** Computations over the session, the page and the requests sent, which
    may raise. *)
Definition A (T : Type) : Type := AppWorld -> result T * AppWorld.

Definition ret {T} (a : T) : A T := fun w => (Ok a, w).

Definition bind {T T'} (m : A T) (k : T -> A T') : A T' :=
  fun w => match m w with
           | (Ok a, w') => k a w'
           | (Raise e, w') => (Raise e, w')
           end.

Declare Scope app_scope.
Notation "x <- m ;; k" := (bind m (fun x => k))
  (at level 61, m at next level, right associativity) : app_scope.
Notation "m ;; k" := (bind m (fun _ => k))
  (at level 61, right associativity) : app_scope.
Local Open Scope app_scope.

Definition raise {T} (e : str) : A T := fun w => (Raise e, w).

Definition call {T} (r : result T) : A T := fun w => (r, w).

(** [try: body except Exception as e: handler(str(e))] *)
Definition try_except {T} (body : A T) (handler : str -> A T) : A T :=
  fun w => match body w with
           | (Ok a, w') => (Ok a, w')
           | (Raise e, w') => handler e w'
           end.

Definition show (s : Shown) : A unit :=
  fun w => (Ok tt, {| session_state := session_state w;
                      page := page w ++ [s];
                      requests := requests w |}).

Definition send (contents : list Content) : A unit :=
  fun w => (Ok tt, {| session_state := session_state w;
                      page := page w;
                      requests := requests w ++ [contents] |}).

(** [key in st.session_state] *)
Definition session_contains (key : str) : A bool :=
  fun w => (Ok (match state_get (session_state w) key with
                | Some _ => true
                | None => false
                end), w).

(** [st.session_state[key] = v] *)
Definition session_set (key : str) (v : Value) : A unit :=
  fun w => (Ok tt, {| session_state := state_set (session_state w) key v;
                      page := page w;
                      requests := requests w |}).

(** [st.session_state.get(key, default)] *)
Definition session_get (key : str) (default : Value) : A Value :=
  fun w => (Ok (match state_get (session_state w) key with
                | Some v => v
                | None => default
                end), w).

(** [st.session_state[key]].  An exception that no handler of the script
    catches is named by its class; its message is not modelled. *)
Definition session_item (key : str) : A Value :=
  fun w => match state_get (session_state w) key with
           | Some v => (Ok v, w)
           | None => (Raise (lit "KeyError"), w)
           end.

(** [type(v).__name__] *)
Definition type_name (v : Value) : str :=
  match v with
  | VNone => lit "NoneType"
  | VStr _ => lit "str"
  | VMessages _ => lit "list"
  | VInfo _ => lit "dict"
  end.

(** The message of the [AttributeError] for a method [v] does not have. *)
Definition no_attribute (v : Value) (attribute : str) : str :=
  lit "'" ++ type_name v ++ lit "' object has no attribute '" ++ attribute
  ++ lit "'".

Definition messages_key (doc_type : str) : str := doc_type ++ lit "_messages".

Definition uploaded_file_info_key (doc_type : str) : str :=
  doc_type ++ lit "_uploaded_file_info".

Definition last_uploaded_filename_key (doc_type : str) : str :=
  doc_type ++ lit "_last_uploaded_filename".

(* ------------------------------------------------------------------- *)
(** ** add_message_to_history (lines 24-32)                              *)

Definition add_message_to_history (role : str) (content : option str)
    (doc_type : str) (image_bytes : option (list N))
    (image_caption : option str) : A unit :=
  present <- session_contains (messages_key doc_type) ;;
  (if negb present then session_set (messages_key doc_type) (VMessages [])
   else ret tt) ;;
  let message_data :=
    {| msg_role := role;
       msg_content := content;
       msg_image :=
         match image_bytes, image_caption with
         | Some b, Some c =>
             if nonempty b && nonempty c then Some (b, c) else None
         | _, _ => None
         end |} in
  history <- session_item (messages_key doc_type) ;;
  match history with
  | VMessages messages =>
      session_set (messages_key doc_type)
        (VMessages (messages ++ [message_data]))
  | v => raise (no_attribute v (lit "append"))
  end.

Section ChatInterface.
Context {U : Unicode}.
Variable E : AppEnv.

Definition current_md_key (doc_type_name : str) : str :=
  lit "current_" ++ lower doc_type_name ++ lit "_md".

(* ------------------------------------------------------------------- *)
(** ** run_chat_interface: the session keys (lines 62-69)                *)

Definition run_chat_interface_init (doc_type_name : str) : A unit :=
  present <- session_contains (messages_key doc_type_name) ;;
  (if negb present
   then session_set (messages_key doc_type_name) (VMessages [])
   else ret tt) ;;
  present <- session_contains (current_md_key doc_type_name) ;;
  (if negb present then session_set (current_md_key doc_type_name) VNone
   else ret tt) ;;
  present <- session_contains (uploaded_file_info_key doc_type_name) ;;
  (if negb present
   then session_set (uploaded_file_info_key doc_type_name) VNone
   else ret tt) ;;
  present <- session_contains (last_uploaded_filename_key doc_type_name) ;;
  (if negb present
   then session_set (last_uploaded_filename_key doc_type_name) VNone
   else ret tt).

(* ------------------------------------------------------------------- *)
(** ** run_chat_interface: a file in the uploader (lines 84-95)          *)

(** [st.session_state[...] != uploaded_file.name] *)
Definition differs (v : Value) (name : str) : bool :=
  match v with
  | VStr s => negb (str_eqb s name)
  | _ => true
  end.

(** The boolean returned tells whether [st.rerun()] ended the run. *)
Definition run_chat_interface_upload (doc_type_name : str)
    (uploaded_file : option UploadedFile) : A bool :=
  match uploaded_file with
  | None => ret false
  | Some f =>
      last <- session_item (last_uploaded_filename_key doc_type_name) ;;
      if differs last (file_name f) then
        let uploaded_file_data := getvalue f in
        session_set (uploaded_file_info_key doc_type_name)
          (VInfo {| info_name := file_name f; info_type := file_type f;
                    info_data := uploaded_file_data |}) ;;
        session_set (last_uploaded_filename_key doc_type_name)
          (VStr (file_name f)) ;;
        let user_msg_text :=
          lit "Uploaded `" ++ file_name f
          ++ lit "`. How should I process this for a " ++ doc_type_name
          ++ lit "? (e.g., 'Extract details', 'Summarize')" in
        (if startswith (lit "image/") (file_type f) then
           add_message_to_history (lit "user") (Some user_msg_text)
             doc_type_name (Some uploaded_file_data)
             (Some (lit "Uploaded: " ++ file_name f))
         else
           add_message_to_history (lit "user") (Some user_msg_text)
             doc_type_name None None) ;;
        show st_rerun ;;
        ret true
      else ret false
  end.

(* ------------------------------------------------------------------- *)
(** ** run_chat_interface: a chat input (lines 131-225)                  *)

Definition RULE : str := lit "------------------------".

(** The prompt built around the current document (line 169). *)
Definition context_prompt (doc_type_name : str) (current_doc_md : Value)
    (user_chat_input : str) : str :=
  lit "Here is the current " ++ doc_type_name
  ++ lit " document (in Markdown):" ++ [NL] ++ RULE ++ [NL]
  ++ match current_doc_md with
     | VStr s => s
     | v => format_value E v
     end
  ++ [NL] ++ RULE ++ [NL; NL]
  ++ lit "Based on the above document, please address my following request:"
  ++ [NL] ++ user_chat_input.

(** The loop over [history_messages[:-1]] (lines 195-200). *)
Fixpoint history_contents (messages : list Message) : A (list Content) :=
  match messages with
  | [] => ret []
  | msg_data :: rest =>
      let api_role :=
        if str_eqb (msg_role msg_data) (lit "assistant") then lit "model"
        else msg_role msg_data in
      if str_eqb api_role (lit "user") || str_eqb api_role (lit "model")
      then
        more <- history_contents rest ;;
        ret ({| role := api_role;
                parts := [from_text (msg_content msg_data)] |} :: more)
      else
        show (st_warning
                (lit "Skipping historical message with invalid role: "
                 ++ msg_role msg_data)) ;;
        history_contents rest
  end.

(** [value] as the session keeps it. *)
Definition value_of_text (text : option str) : Value :=
  match text with
  | Some s => VStr s
  | None => VNone
  end.

(** The branches on a pending upload and on the current document (lines
    144-173): whether the model is to be called, the prompt for it and
    the image part. *)
Definition select_prompt (doc_type_name user_chat_input : str)
    (uploaded_info current_doc_md : Value)
  : A (bool * str * option Part) :=
  if truthy uploaded_info then
    match uploaded_info with
    | VInfo info =>
        show (st_write
                (lit "Debug: Prioritizing processing of previously uploaded file: "
                 ++ info_name info)) ;;
        let raw_data := info_data info in
        let mime_type_for_api := info_type info in
        selected <-
          (if nonempty raw_data && nonempty mime_type_for_api then
             template <-
               (if str_eqb doc_type_name (lit "Quotation") then
                  session_get (lit "quotation_extraction_prompt_template")
                    (VStr [])
                else
                  session_get (lit "bill_extraction_prompt_template")
                    (VStr [])) ;;
             match template with
             | VStr t =>
                 final_prompt_for_api <-
                   call (str_format E t doc_type_name) ;;
                 ret (true, final_prompt_for_api,
                      Some (inline_data raw_data mime_type_for_api))
             | _ => raise (lit "AttributeError")      (* no method format *)
             end
           else
             add_message_to_history (lit "assistant")
               (Some (lit "Error: Uploaded file data is missing or corrupt."))
               doc_type_name None None ;;
             ret (false, user_chat_input, None)) ;;
        session_set (uploaded_file_info_key doc_type_name) VNone ;;
        session_set (last_uploaded_filename_key doc_type_name) VNone ;;
        ret selected
    | _ => raise (lit "AttributeError")               (* no method get *)
    end
  else if truthy current_doc_md then
    show (st_write
            (lit "Debug: Contextualizing with existing document for modification/query.")) ;;
    ret (true, context_prompt doc_type_name current_doc_md user_chat_input,
         None)
  else
    show (st_write
            (lit "Debug: Creating new document from instructions (or general query).")) ;;
    ret (true, user_chat_input, None).

(** The request to the model and what is done with its outcome (lines
    180-224). *)
Definition request_model (doc_type_name final_prompt_for_api : str)
    (image_part_for_current_api_call : option Part) : A unit :=
  system_prompt <- session_get (lit "system_prompt") (VStr []) ;;
  gemini_api_contents <-
    match system_prompt with
    | VStr system_prompt_text =>
        if nonempty (strip system_prompt_text) then
          ret [{| role := lit "user";
                  parts := [from_text (Some system_prompt_text)] |}]
        else ret []
    | _ => raise (lit "AttributeError")               (* no method strip *)
    end ;;
  history <- session_get (messages_key doc_type_name) (VMessages []) ;;
  from_history <-
    match history with
    | VMessages history_messages =>
        history_contents (removelast history_messages)
    | VStr s =>
        (* the characters of s[:-1] are no dictionaries *)
        if nonempty (removelast s) then raise (lit "TypeError") else ret []
    | _ => raise (lit "TypeError")
    end ;;
  let current_user_parts := [from_text (Some final_prompt_for_api)] in
  let current_user_parts :=
    match image_part_for_current_api_call with
    | Some image_part => image_part :: current_user_parts
    | None => current_user_parts
    end in
  let gemini_api_contents :=
    gemini_api_contents ++ from_history
    ++ [{| role := lit "user"; parts := current_user_parts |}] in
  try_except
    (send gemini_api_contents ;;
     ai_response_text <- call (generate_content E gemini_api_contents) ;;
     call (markdown E ai_response_text) ;;
     show (st_markdown ai_response_text) ;;
     add_message_to_history (lit "assistant") ai_response_text
       doc_type_name None None ;;
     session_set (current_md_key doc_type_name)
       (value_of_text ai_response_text))
    (fun e =>
       let error_msg := lit "Error with Gemini API: " ++ e in
       show (st_error error_msg) ;;
       add_message_to_history (lit "assistant") (Some error_msg)
         doc_type_name None None).

Definition run_chat_interface_chat (doc_type_name user_chat_input : str)
  : A unit :=
  add_message_to_history (lit "user") (Some user_chat_input) doc_type_name
    None None ;;
  uploaded_info <- session_get (uploaded_file_info_key doc_type_name) VNone ;;
  current_doc_md <- session_get (current_md_key doc_type_name) VNone ;;
  selected <- select_prompt doc_type_name user_chat_input uploaded_info
                current_doc_md ;;
  let '(api_call_needed, final_prompt_for_api,
        image_part_for_current_api_call) := selected in
  api_call_needed <-
    (if negb (nonempty (strip final_prompt_for_api)) then
       add_message_to_history (lit "assistant")
         (Some (lit "It seems your request is empty. Please provide some instructions."))
         doc_type_name None None ;;
       ret false
     else ret api_call_needed) ;;
  (if (api_call_needed : bool) then
     request_model doc_type_name final_prompt_for_api
       image_part_for_current_api_call
   else ret tt) ;;
  show st_rerun.
End ChatInterface.

(* ------------------------------------------------------------------- *)
(** ** run_chat_interface: the path of the PDF to download (line 107)    *)

(** The occurrences of [.md] as [str.replace] finds them, and what it
    puts for them. *)
Definition md_match (_ : option char) (s : str) : option (str * nat) :=
  if startswith (lit ".md") s then Some (lit ".pdf", 3%nat) else None.

(** [tmp_md_path.replace(".md", ".pdf")] *)
Definition tmp_pdf_path (tmp_md_path : str) : str :=
  re_sub md_match tmp_md_path.
End App.

(* ===================================================================== *)
(** * Vocabulary of the statements                                       *)
(* ===================================================================== *)

(** [sub] occurs in [s] at index [i]. *)
Definition occurs_at (sub s : str) (i : Z) : Prop :=
  exists pre post, s = pre ++ sub ++ post /\ len pre = i.

(** [s] contains no code fence. *)
Definition fence_free (s : str) : Prop := forall i, ~ occurs_at FENCE s i.

(** The text before a marker is empty or ends with whitespace. *)
Definition ends_with_space_or_empty (pre : str) : Prop :=
  pre = [] \/ exists pre' c, pre = pre' ++ [c] /\ isspace c = true.

(** [marker] occurs in [md] right after [pre], nowhere before, and that
    first occurrence is at position 0 or preceded by whitespace. *)
Definition opens_after (marker md pre : str) : Prop :=
  (exists post, md = pre ++ marker ++ post) /\
  (forall j, occurs_at marker md j -> len pre <= j) /\
  ends_with_space_or_empty pre.

(** A Markdown heading line as the converter writes it. *)
Definition heading_line (level : Z) (text : str) : str :=
  times HASH level ++ [SPACE] ++ text ++ BSN2.

(** [k] line-break markers in a row. *)
Definition markers (k : nat) : str := concat (repeat BSN k).

Definition backslash_free (s : str) : Prop := Forall (fun c => c <> BACKSLASH) s.
Definition newline_free (s : str) : Prop := Forall (fun c => c <> NL) s.

(** The texts python-docx extracts from a block hold no newline. *)
Definition block_newline_free (block : Block) : Prop :=
  match block with
  | CT_P para =>
      newline_free (para_text para) /\
      Forall (fun run => newline_free (run_text run)) (runs para)
  | CT_Tbl table => Forall (Forall newline_free) table
  | CT_Other => True
  end.

Definition PIPE : char := 124%N.

(** A text with no whitespace at either end. *)
Definition trimmed (s : str) : Prop := lstrip s = s /\ lstrip (rev s) = rev s.

(** A pipe-table row without its line break. *)
Definition row_body (cells : list str) : str :=
  lit "| " ++ join (lit " | ") cells ++ lit " |".

(** The text of a table cell in the Markdown returned: trimmed, and
    post-processed like the rest of the text. *)
Definition cell_text (c : str) : str := re_sub collapse_match (strip c).

(** The part of the returned Markdown that stands for the blocks before a
    table. *)
Definition text_before `{Unicode} (pre : list Block) : str :=
  lstrip (re_sub collapse_match (concat (md_content_of pre))).

(** The part of the returned Markdown after the last row of a table: the
    marker that closes the row, the marker that closes the table, and what
    stands for the blocks after the table. *)
Definition text_after `{Unicode} (post : list Block) : str :=
  rstrip (re_sub collapse_match (BSN ++ BSN ++ concat (md_content_of post))).

(** What a readable page holds: its text, and for each embedded image its
    cross-reference number and the image decoded from it. *)
Record PageContent : Type := {
  pc_text : str;
  pc_images : list (N * str)
}.

(** The elements of a list numbered from [from]. *)
Fixpoint enumerate_from {A : Type} (from : Z) (l : list A) : list (Z * A) :=
  match l with
  | [] => []
  | x :: t => (from, x) :: enumerate_from (from + 1) t
  end.

(** [image_p{page}_{index}.png], page and index counted from 1. *)
Definition image_name (page index : Z) : str :=
  lit "image_p" ++ str_of_Z page ++ lit "_" ++ str_of_Z index ++ lit ".png".

(** The reference to image [index] of page [page], both counted from 1. *)
Definition image_ref (page index : Z) : str :=
  lit "![Image " ++ str_of_Z index ++ lit " from page " ++ str_of_Z page
  ++ lit "](" ++ image_name page index ++ lit ")" ++ [NL; NL].

(** The Markdown of one page, in the order of the specification: the
    page-number heading, the text, a blank separator, then one reference
    for each image. *)
Definition page_markdown (page : Z) (c : PageContent) : str :=
  (lit "## Page " ++ str_of_Z page ++ [NL])
  ++ pc_text c
  ++ [NL; NL]
  ++ concat (List.map (fun ix => image_ref page (fst ix))
               (enumerate_from 1 (pc_images c))).

(** The pieces appended for one page. *)
Definition page_pieces (page : Z) (c : PageContent) : list str :=
  [lit "## Page " ++ str_of_Z page ++ [NL]; pc_text c; [NL; NL]]
  ++ List.map (fun ix => image_ref page (fst ix))
       (enumerate_from 1 (pc_images c)).

(** The side files of one page, next to the PDF. *)
Definition page_files (pdf_path : str) (page : Z) (c : PageContent)
  : list (str * FileContent) :=
  List.map
    (fun ix => (os_path_join (os_path_dirname pdf_path)
                  (image_name page (fst ix)),
                ImageFile (snd (snd ix))))
    (enumerate_from 1 (pc_images c)).

(** [page] of [doc] can be read and holds [c]. *)
Definition page_reads (E : Env) (doc : PdfDoc) (page : Page) (c : PageContent)
  : Prop :=
  get_text page = Ok (pc_text c) /\
  get_images page = Ok (List.map fst (pc_images c)) /\
  Forall (fun xi => exists image_bytes,
            extract_image doc (fst xi) = Ok image_bytes /\
            Image_open E image_bytes = Ok (snd xi))
         (pc_images c).

(** The world after more files were written. *)
Definition add_files (w : World) (fs : list (str * FileContent)) : World :=
  {| stdout := stdout w; disk := disk w ++ fs |}.

(** The call hands back a value from every world: no exception leaves
    it. *)
Definition returns {A : Type} (m : M A) : Prop :=
  forall w, exists v w', m w = (Ok v, w').

(** A text made of whitespace only. *)
Definition whitespace (s : str) : Prop := Forall (fun c => isspace c = true) s.

(** No three line-break markers stand in a row anywhere in [s]. *)
Definition no_long_run (s : str) : Prop :=
  forall a b, s = a ++ b -> (count_markers b < 3)%nat.

(** A line the text converter takes neither for blank text nor for a
    heading: it is empty, or it holds text, is not upper case and does
    not end with a colon. *)
Definition plain_line `{Unicode} (line : str) : Prop :=
  line = [] \/
  (strip line <> [] /\ isupper line = false /\
   endswith (lit ":") (strip line) = false).

Definition LESS : char := 60%N.
Definition GREATER : char := 62%N.

(** An HTML line: a leading text, then tags each followed by a text. *)
Definition tagged_text (t0 : str) (segs : list (str * str)) : str :=
  t0 ++ concat (List.map (fun nt => [LESS] ++ fst nt ++ [GREATER] ++ snd nt)
                  segs).

Definition LBRACKET : char := 91%N.
Definition RBRACKET : char := 93%N.
Definition LPAREN : char := 40%N.
Definition RPAREN : char := 41%N.
Definition BANG : char := 33%N.

(** A text without any of the characters the text converter looks for:
    hash, star, underscore, opening bracket and backtick. *)
Definition markup_free (s : str) : Prop :=
  Forall (fun c => c <> HASH /\ c <> STAR /\ c <> UNDERSCORE /\
                   c <> LBRACKET /\ c <> BACKTICK) s.

(** The Markdown of a link. *)
Definition md_link (label url : str) : str :=
  [LBRACKET] ++ label ++ [RBRACKET; LPAREN] ++ url ++ [RPAREN].

(** The text is empty or starts with a character that is no whitespace. *)
Definition starts_without_space (s : str) : Prop :=
  match s with
  | [] => True
  | c :: _ => isspace c = false
  end.

(** The extensions the dispatchers know. *)
Definition supported (extension : str) : Prop :=
  extension = lit ".pdf" \/ extension = lit ".docx" \/
  extension = lit ".txt".

Definition BILL_MD : str := lit "bill_generator/bill.md".

(** [s] with its stars removed. *)
Definition without_stars (s : str) : str :=
  filter (fun c => negb (N.eqb c STAR)) s.

(** A text whose only markup characters are stars. *)
Definition stars_only (s : str) : Prop :=
  Forall (fun c => c <> HASH /\ c <> UNDERSCORE /\ c <> LBRACKET /\
                   c <> BACKTICK) s.

(** The boolean returned tells whether the output was written: [True]
    comes with exactly one new file, at [output_path]; [False] comes
    with no new file. *)
Definition reports_output (output_path : str) (m : M bool) : Prop :=
  forall w,
    (exists c, fst (m w) = Ok true /\
               disk (snd (m w)) = disk w ++ [(output_path, c)]) \/
    (fst (m w) = Ok false /\ disk (snd (m w)) = disk w).

(** The value the session holds under [key], [default] when it holds
    none. *)
Definition lookup (state : App.SessionState) (key : str)
    (default : App.Value) : App.Value :=
  match App.state_get state key with
  | Some v => v
  | None => default
  end.

(** The chat history kept for a document type. *)
Definition history_of (state : App.SessionState) (doc_type : str)
  : list App.Message :=
  match App.state_get state (App.messages_key doc_type) with
  | Some (App.VMessages messages) => messages
  | _ => []
  end.

(** The session holds a list of messages for the document type, or no
    entry yet. *)
Definition history_ready (state : App.SessionState) (doc_type : str) : Prop :=
  App.state_get state (App.messages_key doc_type) = None \/
  exists messages,
    App.state_get state (App.messages_key doc_type)
    = Some (App.VMessages messages).

(** A message without image. *)
Definition text_message (role : str) (content : option str) : App.Message :=
  {| App.msg_role := role; App.msg_content := content;
     App.msg_image := None |}.

(** A role the API accepts, once [assistant] is renamed. *)
Definition valid_role (msg : App.Message) : bool :=
  str_eqb (App.msg_role msg) (lit "user") ||
  str_eqb (App.msg_role msg) (lit "assistant") ||
  str_eqb (App.msg_role msg) (lit "model").

(** A message of the history as it is sent: its text only, the role
    [assistant] renamed to [model]. *)
Definition api_content (msg : App.Message) : App.Content :=
  {| App.role := if str_eqb (App.msg_role msg) (lit "assistant")
                 then lit "model" else App.msg_role msg;
     App.parts := [App.from_text (App.msg_content msg)] |}.

(** The system prompt as it is sent: a first user message, unless it is
    blank. *)
Definition system_contents (system_prompt_text : str) : list App.Content :=
  if App.nonempty (strip system_prompt_text) then
    [{| App.role := lit "user";
        App.parts := [App.from_text (Some system_prompt_text)] |}]
  else [].

(** The response as the chat turn obtains it: the text of the model,
    shown on the page. *)
Definition api_outcome (E : App.AppEnv) (contents : list App.Content)
  : result (option str) :=
  match App.generate_content E contents with
  | Ok text =>
      match App.markdown E text with
      | Ok _ => Ok text
      | Raise e => Raise e
      end
  | Raise e => Raise e
  end.

(** The message the chat turn stores for an outcome of the request. *)
Definition reply_message (outcome : result (option str)) : App.Message :=
  match outcome with
  | Ok text => text_message (lit "assistant") text
  | Raise e =>
      text_message (lit "assistant")
        (Some (lit "Error with Gemini API: " ++ e))
  end.

(** The warnings shown for the messages of the history that are left
    out of a request. *)
Definition role_warnings (messages : list App.Message) : list App.Shown :=
  List.map
    (fun msg =>
       App.st_warning (lit "Skipping historical message with invalid role: "
                       ++ App.msg_role msg))
    (filter (fun msg => negb (valid_role msg)) messages).

(** The last content of a request: the prompt, after the image if there
    is one. *)
Definition prompt_content (image_part : option App.Part) (prompt : str)
  : App.Content :=
  {| App.role := lit "user";
     App.parts :=
       match image_part with
       | Some part => [part; App.from_text (Some prompt)]
       | None => [App.from_text (Some prompt)]
       end |}.

(** A request as the chat turn builds it. *)
Definition request_contents (system_prompt_text : str)
    (history : list App.Message) (image_part : option App.Part)
    (prompt : str) : list App.Content :=
  system_contents system_prompt_text
  ++ List.map api_content (filter valid_role history)
  ++ [prompt_content image_part prompt].

(** The session after the request: the reply is added to the history,
    and a response becomes the current document. *)
Definition after_request `{Unicode} (state : App.SessionState) (d : str)
    (history : list App.Message) (outcome : result (option str))
  : App.SessionState :=
  let state :=
    App.state_set state (App.messages_key d)
      (App.VMessages (history ++ [reply_message outcome])) in
  match outcome with
  | Ok text => App.state_set state (App.current_md_key d)
                 (App.value_of_text text)
  | Raise _ => state
  end.

(** What the page shows for the outcome of the request. *)
Definition outcome_shown (outcome : result (option str)) : App.Shown :=
  match outcome with
  | Ok text => App.st_markdown text
  | Raise e => App.st_error (lit "Error with Gemini API: " ++ e)
  end.

(** The template key the chat turn reads for a document type. *)
Definition template_key (doc_type_name : str) : str :=
  if str_eqb doc_type_name (lit "Quotation")
  then lit "quotation_extraction_prompt_template"
  else lit "bill_extraction_prompt_template".

(** The prompt of a chat turn with no upload pending: the input, put
    after the current document if there is one. *)
Definition plain_prompt `{Unicode} (E : App.AppEnv)
    (state : App.SessionState) (d user_chat_input : str) : str :=
  if App.truthy (lookup state (App.current_md_key d) App.VNone)
  then App.context_prompt E d (lookup state (App.current_md_key d) App.VNone)
         user_chat_input
  else user_chat_input.

(** The debug line of a chat turn with no upload pending. *)
Definition plain_debug `{Unicode} (state : App.SessionState) (d : str)
  : App.Shown :=
  if App.truthy (lookup state (App.current_md_key d) App.VNone)
  then App.st_write
         (lit "Debug: Contextualizing with existing document for modification/query.")
  else App.st_write
         (lit "Debug: Creating new document from instructions (or general query).").

(** The message stored for a file taken from the uploader. *)
Definition upload_message (d : str) (f : App.UploadedFile) : App.Message :=
  {| App.msg_role := lit "user";
     App.msg_content :=
       Some (lit "Uploaded `" ++ App.file_name f
             ++ lit "`. How should I process this for a " ++ d
             ++ lit "? (e.g., 'Extract details', 'Summarize')");
     App.msg_image :=
       if startswith (lit "image/") (App.file_type f)
          && App.nonempty (App.getvalue f)
       then Some (App.getvalue f, lit "Uploaded: " ++ App.file_name f)
       else None |}.

(** The entry kept for a file taken from the uploader. *)
Definition upload_info (f : App.UploadedFile) : App.Value :=
  App.VInfo {| App.info_name := App.file_name f;
               App.info_type := App.file_type f;
               App.info_data := App.getvalue f |}.

Definition CORRUPT_UPLOAD : App.Message :=
  text_message (lit "assistant")
    (Some (lit "Error: Uploaded file data is missing or corrupt.")).

Definition EMPTY_REQUEST : App.Message :=
  text_message (lit "assistant")
    (Some (lit "It seems your request is empty. Please provide some instructions.")).

(** The session with [key] set to [v] unless it holds an entry for it. *)
Definition ensure (state : App.SessionState) (key : str) (v : App.Value)
  : App.SessionState :=
  match App.state_get state key with
  | Some _ => state
  | None => App.state_set state key v
  end.

(** The session holds an entry for [key]. *)
Definition present (state : App.SessionState) (key : str) : Prop :=
  exists v, App.state_get state key = Some v.

Definition DOT : char := 46%N.

(** A piece of a path without a dot. *)
Definition dot_free (s : str) : Prop := Forall (fun c => c <> DOT) s.

(** The warning [convert_md_to_pdf] prints for the value the layout hands
    back: none for content that fits (an empty rectangle) and for a value
    of another kind, such as the tuple later versions of the library
    return. *)
Definition layout_warning (returned_value : HtmlBoxValue) : list Printed :=
  match returned_value with
  | BoxInt n =>
      if n =? -1 then
        [Line (lit "Warning: fitz.insert_htmlbox general error (code -1).")]
      else if n =? -2 then
        [Line (lit "Warning: fitz.insert_htmlbox invalid HTML/CSS (code -2).")]
      else []
  | BoxRect is_empty shown =>
      if is_empty then []
      else [Line (lit "Warning: fitz.insert_htmlbox indicates content overflow. Overflow area: "
                  ++ shown)]
  | BoxOther => []
  end.

(** The lines [convert_md_to_pdf] prints before the layout. *)
Definition pdf_debug_lines (cleaned_md_content html_snippet_with_spacer : str)
  : list Printed :=
  [ Line (lit "--- Cleaned MD Content for Markdown Parser ---");
    Repr cleaned_md_content;
    Line (lit "---------------------------------------------");
    Line (lit "--- Generated HTML Snippet for PDF Conversion ---");
    Line html_snippet_with_spacer;
    Line (lit "--------------------------------------------------") ].

(* ===================================================================== *)
(** * Sample inputs                                                       *)
(* ===================================================================== *)

(** A bare fence pair enclosing a tagged fence. *)
Definition nested_fence_text : str := lit "``` a ```markdown b ```".

(** Paragraphs with the text [Intro] and a given style name, one run. *)
Definition styled_para (style text : str) : Paragraph :=
  {| para_text := text; style_name := style;
     runs := [{| run_text := text; run_bold := false; run_italic := false;
                 run_is_drawing := false |}] |}.

Definition empty_world : World := {| stdout := []; disk := [] |}.

(** [doc.add_paragraph] as the XML library under it answers: a text with
    a control character other than tab, newline and carriage return, with
    a surrogate or with one of the two non-characters is refused. *)
Definition xml_compatible (c : char) : bool :=
  ((32 <=? c) || (c =? 9) || (c =? 10) || (c =? 13))%N
  && negb ((55296 <=? c) && (c <=? 57343))%N
  && negb ((c =? 65534) || (c =? 65535))%N.

Definition add_paragraph_checked (text : str) : result unit :=
  if forallb xml_compatible text then Ok tt
  else Raise (lit "All strings must be XML compatible: Unicode or ASCII, no NULL bytes or control characters").

(** The calls of a machine on which [docx.Document] reads [doc] and every
    path can be written. *)
Definition env_docx (doc : Document) : Env := {|
  read_text := fun _ => Raise (lit "No such file or directory");
  open_w := fun _ => Ok tt;
  fitz_open := fun _ => Raise (lit "no such file");
  Image_open := fun _ => Raise (lit "cannot identify image file");
  docx_Document := fun _ => Ok doc;
  markdown_markdown := fun _ _ => Ok [];
  insert_htmlbox := fun _ _ => Ok BoxOther;
  docx_to_pdf_converter := fun _ _ => Ok tt;
  path_suffix := fun _ => [];
  docx_add_paragraph := add_paragraph_checked
|}.

(** Two paragraphs around an empty one. *)
Definition spaced_paragraphs : Document :=
  [CT_P (styled_para (lit "Normal") (lit "a"));
   CT_P {| para_text := []; style_name := lit "Normal"; runs := [] |};
   CT_P (styled_para (lit "Normal") (lit "b"))].

(** A document whose only table has no rows. *)
Definition empty_table_document : Document := [CT_Tbl []; CT_Other].

(** A document with a two-by-two table. *)
Definition price_table_document : Document :=
  [CT_Tbl [[lit "Item"; lit " Price "]; [lit "Bolt"; lit "5"]]; CT_Other].

(** An offer: a line of text, a two-by-two table, an empty paragraph and
    a closing line. *)
Definition priced_offer : Document :=
  [CT_P (styled_para (lit "Normal") (lit "Offer"));
   CT_Tbl [[lit "Item"; lit " Price "]; [lit "Bolt"; lit "5"]];
   CT_P {| para_text := []; style_name := lit "Normal"; runs := [] |};
   CT_P (styled_para (lit "Normal") (lit "Thanks"));
   CT_Other].

(** A PDF of two pages; the second carries two images. *)
Definition brochure : PdfDoc := {|
  pages := [ {| get_text := Ok (lit "Offer"); get_images := Ok [] |};
             {| get_text := Ok (lit "Photos"); get_images := Ok [7%N; 9%N] |} ];
  extract_image := fun xref => Ok [xref]
|}.

Definition brochure_contents : list PageContent :=
  [ {| pc_text := lit "Offer"; pc_images := [] |};
    {| pc_text := lit "Photos"; pc_images := [(7%N, [7%N]); (9%N, [9%N])] |} ].

Definition env_pdf (doc : PdfDoc) : Env := {|
  read_text := fun _ => Raise (lit "No such file or directory");
  open_w := fun _ => Ok tt;
  fitz_open := fun _ => Ok doc;
  Image_open := fun image_bytes => Ok image_bytes;
  docx_Document := fun _ => Raise (lit "Package not found");
  markdown_markdown := fun _ _ => Ok [];
  insert_htmlbox := fun _ _ => Ok BoxOther;
  docx_to_pdf_converter := fun _ _ => Ok tt;
  path_suffix := fun _ => [];
  docx_add_paragraph := add_paragraph_checked
|}.

(** A machine on which the document engine fails with [msg]. *)
Definition env_engine_error (msg : str) : Env := {|
  read_text := fun _ => Raise (lit "No such file or directory");
  open_w := fun _ => Ok tt;
  fitz_open := fun _ => Raise (lit "no such file");
  Image_open := fun _ => Raise (lit "cannot identify image file");
  docx_Document := fun _ => Raise (lit "Package not found");
  markdown_markdown := fun _ _ => Ok [];
  insert_htmlbox := fun _ _ => Ok BoxOther;
  docx_to_pdf_converter := fun _ _ => Raise msg;
  path_suffix := fun _ => [];
  docx_add_paragraph := add_paragraph_checked
|}.

(** A machine on which the Markdown file holds a heading and the layout
    engine hands back [v]. *)
Definition env_layout (v : HtmlBoxValue) : Env := {|
  read_text := fun _ => Ok (lit "# Quotation");
  open_w := fun _ => Ok tt;
  fitz_open := fun _ => Raise (lit "no such file");
  Image_open := fun _ => Raise (lit "cannot identify image file");
  docx_Document := fun _ => Raise (lit "Package not found");
  markdown_markdown := fun _ _ => Ok (lit "<h1>Quotation</h1>");
  insert_htmlbox := fun _ _ => Ok v;
  docx_to_pdf_converter := fun _ _ => Ok tt;
  path_suffix := fun _ => [];
  docx_add_paragraph := add_paragraph_checked
|}.

Definition fits : HtmlBoxValue := BoxRect true (lit "Rect(0.0, 0.0, 0.0, 0.0)").
Definition overflows : HtmlBoxValue :=
  BoxRect false (lit "Rect(50.0, 700.0, 545.0, 792.0)").
Definition invalid_markup : HtmlBoxValue := BoxInt (-2).

(** A machine on which the Markdown file read holds [content] and every
    path can be written. *)
Definition env_text_file (content : str) : Env := {|
  read_text := fun _ => Ok content;
  open_w := fun _ => Ok tt;
  fitz_open := fun _ => Raise (lit "no such file");
  Image_open := fun _ => Raise (lit "cannot identify image file");
  docx_Document := fun _ => Raise (lit "Package not found");
  markdown_markdown := fun _ _ => Ok [];
  insert_htmlbox := fun _ _ => Ok BoxOther;
  docx_to_pdf_converter := fun _ _ => Ok tt;
  path_suffix := fun _ => [];
  docx_add_paragraph := add_paragraph_checked
|}.

(** A machine without files or libraries: every call outside raises. *)
Definition env_nothing : Env := {|
  read_text := fun _ => Raise (lit "No such file or directory");
  open_w := fun _ => Raise (lit "Permission denied");
  fitz_open := fun _ => Raise (lit "no such file");
  Image_open := fun _ => Raise (lit "cannot identify image file");
  docx_Document := fun _ => Raise (lit "Package not found");
  markdown_markdown := fun _ _ => Raise (lit "invalid continuation byte");
  insert_htmlbox := fun _ _ => Raise (lit "bad rect");
  docx_to_pdf_converter := fun _ _ => Raise (lit "not implemented");
  path_suffix := fun _ => lit ".PDF";
  docx_add_paragraph := add_paragraph_checked
|}.

(** A machine on which the document can be read but no file written. *)
Definition env_docx_readonly (doc : Document) : Env := {|
  read_text := fun _ => Raise (lit "No such file or directory");
  open_w := fun _ => Raise (lit "Permission denied");
  fitz_open := fun _ => Raise (lit "no such file");
  Image_open := fun _ => Raise (lit "cannot identify image file");
  docx_Document := fun _ => Ok doc;
  markdown_markdown := fun _ _ => Ok [];
  insert_htmlbox := fun _ _ => Ok BoxOther;
  docx_to_pdf_converter := fun _ _ => Ok tt;
  path_suffix := fun _ => [];
  docx_add_paragraph := add_paragraph_checked
|}.

(** A PDF whose second page carries a readable image and then one that
    cannot be extracted. *)
Definition damaged_brochure : PdfDoc := {|
  pages := [ {| get_text := Ok (lit "Offer"); get_images := Ok [] |};
             {| get_text := Ok (lit "Photos"); get_images := Ok [7%N; 9%N] |} ];
  extract_image := fun xref =>
    if N.eqb xref 9 then Raise (lit "bad xref") else Ok [xref]
|}.

(** A short note of three lines, the second one empty. *)
Definition plain_note : str := lit "Dear Sir,

2 bolts at 5 each".

(** A machine on which the Markdown file holds [content], the Markdown
    library renders it as [html] and every path can be written. *)
Definition env_rendered (content html : str) : Env := {|
  read_text := fun _ => Ok content;
  open_w := fun _ => Ok tt;
  fitz_open := fun _ => Raise (lit "no such file");
  Image_open := fun _ => Raise (lit "cannot identify image file");
  docx_Document := fun _ => Raise (lit "Package not found");
  markdown_markdown := fun _ _ => Ok html;
  insert_htmlbox := fun _ _ => Ok BoxOther;
  docx_to_pdf_converter := fun _ _ => Ok tt;
  path_suffix := fun _ => [];
  docx_add_paragraph := add_paragraph_checked
|}.

(** A machine on which every path has the suffix [suffix], the document
    [doc] can be read and every path can be written. *)
Definition env_suffix (suffix : str) (doc : Document) : Env := {|
  read_text := fun _ => Raise (lit "No such file or directory");
  open_w := fun _ => Ok tt;
  fitz_open := fun _ => Raise (lit "no such file");
  Image_open := fun _ => Raise (lit "cannot identify image file");
  docx_Document := fun _ => Ok doc;
  markdown_markdown := fun _ _ => Ok [];
  insert_htmlbox := fun _ _ => Ok BoxOther;
  docx_to_pdf_converter := fun _ _ => Ok tt;
  path_suffix := fun _ => suffix;
  docx_add_paragraph := add_paragraph_checked
|}.


(** A model that answers every request with one table row; the
    templates it is given have no placeholder and are left as they are. *)
Definition table_model : App.AppEnv := {|
  App.str_format := fun template _ => Ok template;
  App.generate_content := fun _ => Ok (Some (lit "| Bolt | 5 |"));
  App.markdown := fun _ => Ok tt;
  App.format_value := fun _ => lit "None"
|}.

(** A model that cannot be reached. *)
Definition offline_model : App.AppEnv := {|
  App.str_format := fun template _ => Ok template;
  App.generate_content := fun _ => Raise (lit "503 UNAVAILABLE");
  App.markdown := fun _ => Ok tt;
  App.format_value := fun _ => lit "None"
|}.

(** The session of the quotation chat after one exchange, with [pending]
    for the upload waiting to be processed. *)
Definition quotation_session (pending : App.Value) : App.AppWorld := {|
  App.session_state :=
    [ (lit "system_prompt", App.VStr (lit "Answer in Markdown."));
      (lit "quotation_extraction_prompt_template",
       App.VStr (lit "Extract the quotation."));
      (lit "Quotation_messages",
       App.VMessages
         [ text_message (lit "user") (Some (lit "Price of bolts?"));
           text_message (lit "assistant") (Some (lit "5 each")) ]);
      (lit "current_quotation_md", App.VNone);
      (lit "Quotation_uploaded_file_info", pending);
      (lit "Quotation_last_uploaded_filename", App.VNone) ];
  App.page := [];
  App.requests := []
|}.

Definition scan_info : App.UploadedInfo := {|
  App.info_name := lit "scan.png";
  App.info_type := lit "image/png";
  App.info_data := [137%N; 80%N]
|}.

Definition empty_scan_info : App.UploadedInfo := {|
  App.info_name := lit "scan.png";
  App.info_type := lit "image/png";
  App.info_data := []
|}.

Definition scan_file : App.UploadedFile := {|
  App.file_name := lit "scan.png";
  App.file_type := lit "image/png";
  App.getvalue := [137%N; 80%N]
|}.

(** [repr(s)] for a text of printable characters without quote or
    backslash: the text between single quotes. *)
Definition plain_repr (s : str) : str := lit "'" ++ s ++ lit "'".

Definition is_ascii (c : char) : bool := (c <? 128)%N.

Definition hex_digit (d : N) : char := (if d <? 10 then 48 + d else 87 + d)%N.

(** [n] in hexadecimal, on [width] digits. *)
Fixpoint hex (width : nat) (n : N) : str :=
  match width with
  | O => []
  | S k => hex k (n / 16) ++ [hex_digit (n mod 16)]
  end.

(** [str(e)] of the [UnicodeEncodeError] of the ASCII codec for the
    characters [run] found at index [start]. *)
Definition ascii_encode_error (start : nat) (run : str) : str :=
  match run with
  | [c] =>
      lit "'ascii' codec can't encode character '"
      ++ (if (c <=? 255)%N then lit "\x" ++ hex 2 c
          else if (c <=? 65535)%N then lit "\u" ++ hex 4 c
          else lit "\U" ++ hex 8 c)
      ++ lit "' in position " ++ str_of_Z (Z.of_nat start)
      ++ lit ": ordinal not in range(128)"
  | _ =>
      lit "'ascii' codec can't encode characters in position "
      ++ str_of_Z (Z.of_nat start) ++ lit "-"
      ++ str_of_Z (Z.of_nat start + len run - 1)
      ++ lit ": ordinal not in range(128)"
  end.

(** A stdout encoded in ASCII, as under [PYTHONIOENCODING=ascii]: a text
    holding a character above 127 cannot be written, and the exception
    names the first run of such characters.  [repr] is the text [print]
    is given for [repr(s)]. *)
Definition ascii_stdout (repr : str -> str) (p : Printed) : result unit :=
  let text := match p with Line s => s | Repr s => repr s end in
  let start := count_while is_ascii text in
  match skipn start text with
  | [] => Ok tt
  | c :: t =>
      Raise (ascii_encode_error start
               (firstn (S (count_while (fun x => negb (is_ascii x)) t))
                  (c :: t)))
  end.

(** A machine without the file asked for: the message of [open] shows the
    path as [repr] does. *)
Definition env_missing_file : Env := {|
  read_text := fun p => Raise (lit "[Errno 2] No such file or directory: "
                               ++ plain_repr p);
  open_w := fun _ => Ok tt;
  fitz_open := fun _ => Raise (lit "no such file");
  Image_open := fun _ => Raise (lit "cannot identify image file");
  docx_Document := fun _ => Raise (lit "Package not found");
  markdown_markdown := fun _ _ => Ok [];
  insert_htmlbox := fun _ _ => Ok BoxOther;
  docx_to_pdf_converter := fun _ _ => Ok tt;
  path_suffix := fun _ => lit ".md";
  docx_add_paragraph := add_paragraph_checked
|}.

(** The file name [cafe.md] with an acute accent on the e (U+00E9). *)
Definition accented_path : str := lit "caf" ++ [233%N] ++ lit ".md".

(* ===================================================================== *)
(** * Properties                                                          *)
(* ===================================================================== *)

(** ** Facts on the string primitives *)

Lemma len_app (a b : str) : len (a ++ b) = len a + len b.
Proof. unfold len; rewrite length_app; lia. Qed.

Lemma len_nonneg (a : str) : 0 <= len a.
Proof. unfold len; lia. Qed.

Lemma str_eqb_eq (a b : str) : str_eqb a b = true <-> a = b.
Proof.
  revert b; induction a as [|x a IH]; intros [|y b]; simpl;
    try (split; [discriminate|discriminate]); try tauto.
  rewrite andb_true_iff, N.eqb_eq, IH. split.
  - intros [-> ->]; reflexivity.
  - intros H; injection H; auto.
Qed.

Lemma startswith_iff (p s : str) :
  startswith p s = true <-> exists r, s = p ++ r.
Proof.
  revert s; induction p as [|x p IH]; intros s; simpl.
  - split; [intros _; exists s; reflexivity | reflexivity].
  - destruct s as [|y s].
    + split; [discriminate | intros [r H]; discriminate].
    + rewrite andb_true_iff, N.eqb_eq, IH. split.
      * intros [-> [r ->]]; exists r; reflexivity.
      * intros [r H]; injection H as -> ->; split; [reflexivity | exists r; reflexivity].
Qed.

Lemma occurs_at_nonneg sub s j : occurs_at sub s j -> 0 <= j.
Proof. intros (pre & post & _ & <-); apply len_nonneg. Qed.

Lemma occurs_at_zero sub s : occurs_at sub s 0 <-> startswith sub s = true.
Proof.
  rewrite startswith_iff; split.
  - intros (pre & post & -> & H). destruct pre; [|discriminate].
    exists post; reflexivity.
  - intros [r ->]; exists [], r; split; reflexivity.
Qed.

Lemma occurs_at_cons sub c t j :
  occurs_at sub (c :: t) j <->
  (j = 0 /\ startswith sub (c :: t) = true) \/ occurs_at sub t (j - 1).
Proof.
  split.
  - intros (pre & post & H & <-). destruct pre as [|x pre].
    + left; split; [reflexivity|].
      apply startswith_iff; exists post; exact H.
    + right; injection H as -> ->. exists pre, post; split; [reflexivity|].
      unfold len; simpl length; lia.
  - intros [[-> H] | (pre & post & -> & H)].
    + apply occurs_at_zero; exact H.
    + exists (c :: pre), post; split; [reflexivity|].
      unfold len in *; simpl length; lia.
Qed.

Lemma occurs_at_nil sub j : occurs_at sub [] j -> sub = [] /\ j = 0.
Proof.
  intros (pre & post & H & <-). symmetry in H.
  apply app_eq_nil in H; destruct H as [-> H].
  apply app_eq_nil in H; destruct H as [-> _]. split; reflexivity.
Qed.

(** [find] returns the first occurrence, and [-1] exactly when there is
    none. *)
Lemma find_from_spec sub : forall s i, 0 <= i ->
  (find_from sub s i = -1 /\ forall j, ~ occurs_at sub s j) \/
  (exists k, find_from sub s i = i + k /\ occurs_at sub s k /\
             forall j, occurs_at sub s j -> k <= j).
Proof.
  induction s as [|c t IH]; intros i Hi; simpl.
  - destruct (startswith sub []) eqn:E.
    + right; exists 0; split; [lia|]; split.
      * apply occurs_at_zero; exact E.
      * intros j Hj; apply occurs_at_nonneg in Hj; exact Hj.
    + left; split; [reflexivity|]. intros j Hj.
      apply occurs_at_nil in Hj; destruct Hj as [-> _]; discriminate.
  - destruct (startswith sub (c :: t)) eqn:E.
    + right; exists 0; split; [lia|]; split.
      * apply occurs_at_zero; exact E.
      * intros j Hj; apply occurs_at_nonneg in Hj; exact Hj.
    + destruct (IH (i + 1) ltac:(lia)) as [[H1 H2] | (k & H1 & H2 & H3)].
      * left; split; [exact H1|]. intros j Hj.
        apply occurs_at_cons in Hj; destruct Hj as [[_ Hj] | Hj].
        -- congruence.
        -- exact (H2 _ Hj).
      * right; exists (k + 1); split; [lia|]; split.
        -- apply occurs_at_cons; right.
           replace (k + 1 - 1) with k by lia; exact H2.
        -- intros j Hj. apply occurs_at_cons in Hj; destruct Hj as [[_ Hj] | Hj].
           ++ congruence.
           ++ specialize (H3 _ Hj); lia.
Qed.

Lemma find_first sub s k :
  occurs_at sub s k -> (forall j, occurs_at sub s j -> k <= j) ->
  find s sub = k.
Proof.
  intros Hk Hmin. unfold find.
  destruct (find_from_spec sub s 0 ltac:(lia)) as [[_ H] | (k' & -> & H1 & H2)].
  - exfalso; exact (H _ Hk).
  - specialize (Hmin _ H1); specialize (H2 _ Hk); lia.
Qed.

Lemma find_none sub s : (forall j, ~ occurs_at sub s j) -> find s sub = -1.
Proof.
  intros Hno. unfold find.
  destruct (find_from_spec sub s 0 ltac:(lia)) as [[H _] | (k' & _ & H1 & _)].
  - exact H.
  - exfalso; exact (Hno _ H1).
Qed.

Lemma find_found sub s :
  find s sub <> -1 ->
  occurs_at sub s (find s sub) /\
  forall j, occurs_at sub s j -> find s sub <= j.
Proof.
  unfold find; intros Hne.
  destruct (find_from_spec sub s 0 ltac:(lia)) as [[H _] | (k' & H & H1 & H2)].
  - contradiction.
  - rewrite H; simpl; split; [exact H1 | exact H2].
Qed.

(** [rfind] returns the last occurrence at or after [start], and [-1]
    exactly when there is none. *)
Lemma rfind_from_spec sub start : forall s i, 0 <= i ->
  (rfind_from sub s start i = -1 /\
   forall j, occurs_at sub s j -> i + j < start) \/
  (exists k, rfind_from sub s start i = i + k /\ occurs_at sub s k /\
             start <= i + k /\
             forall j, occurs_at sub s j -> start <= i + j -> j <= k).
Proof.
  induction s as [|c t IH]; intros i Hi.
  - simpl. destruct ((start <=? i) && startswith sub []) eqn:E.
    + apply andb_true_iff in E; destruct E as [E1 E2]. apply Z.leb_le in E1.
      right; exists 0; split; [lia|]; split; [apply occurs_at_zero; exact E2|].
      split; [lia|]. intros j Hj _. apply occurs_at_nil in Hj; lia.
    + left; split; [reflexivity|]. intros j Hj.
      apply occurs_at_nil in Hj; destruct Hj as [-> ->].
      simpl in E. rewrite andb_true_r in E. apply Z.leb_gt in E. lia.
  - cbn [rfind_from].
    destruct (IH (i + 1) ltac:(lia)) as [[H1 H2] | (k & H1 & H2 & H3 & H4)].
    + rewrite H1; simpl (-1 =? -1).
      destruct ((start <=? i) && startswith sub (c :: t)) eqn:E.
      * apply andb_true_iff in E; destruct E as [E1 E2]. apply Z.leb_le in E1.
        right; exists 0; split; [lia|]; split; [apply occurs_at_zero; exact E2|].
        split; [lia|]. intros j Hj Hs.
        apply occurs_at_cons in Hj; destruct Hj as [[-> _] | Hj]; [lia|].
        specialize (H2 _ Hj); lia.
      * left; split; [reflexivity|]. intros j Hj.
        apply occurs_at_cons in Hj; destruct Hj as [[-> Hj] | Hj].
        -- rewrite Hj, andb_true_r in E. apply Z.leb_gt in E. lia.
        -- specialize (H2 _ Hj); lia.
    + rewrite H1.
      assert (Hk : 0 <= k) by (eapply occurs_at_nonneg; exact H2).
      destruct (i + 1 + k =? -1) eqn:E; [apply Z.eqb_eq in E; lia|].
      right; exists (k + 1); split; [lia|]; split.
      * apply occurs_at_cons; right.
        replace (k + 1 - 1) with k by lia; exact H2.
      * split; [lia|]. intros j Hj Hs.
        apply occurs_at_cons in Hj; destruct Hj as [[-> _] | Hj]; [lia|].
        specialize (H4 _ Hj ltac:(lia)); lia.
Qed.

Lemma rfind_last sub s start e :
  occurs_at sub s e -> start <= e ->
  (forall j, occurs_at sub s j -> j <= e) ->
  rfind s sub start = e.
Proof.
  intros He Hs Hmax. unfold rfind.
  destruct (rfind_from_spec sub start s 0 ltac:(lia))
    as [[_ H] | (k & -> & H1 & H2 & H3)].
  - specialize (H _ He); lia.
  - specialize (Hmax _ H1). specialize (H3 _ He ltac:(lia)). lia.
Qed.

Lemma rfind_all sub s :
  rfind s sub 0 <> -1 ->
  occurs_at sub s (rfind s sub 0) /\
  forall j, occurs_at sub s j -> j <= rfind s sub 0.
Proof.
  unfold rfind; intros Hne.
  destruct (rfind_from_spec sub 0 s 0 ltac:(lia))
    as [[H _] | (k & H & H1 & H2 & H3)].
  - contradiction.
  - rewrite H; simpl; split; [exact H1|].
    intros j Hj. apply H3; [exact Hj|].
    apply occurs_at_nonneg in Hj; lia.
Qed.

Lemma slice_middle (pre mid rest : str) :
  slice (pre ++ mid ++ rest) (len pre) (len pre + len mid) = mid.
Proof.
  unfold slice, len. rewrite Nat2Z.id.
  replace (Z.to_nat (Z.of_nat (length pre) + Z.of_nat (length mid)
                     - Z.of_nat (length pre))) with (length mid) by lia.
  rewrite skipn_app, skipn_all, Nat.sub_diag; simpl.
  rewrite firstn_app, firstn_all, Nat.sub_diag; simpl.
  apply app_nil_r.
Qed.

Lemma at_start_or_after_space_iff (pre rest : str) :
  at_start_or_after_space (pre ++ rest) (len pre) = true <->
  ends_with_space_or_empty pre.
Proof.
  unfold at_start_or_after_space, ends_with_space_or_empty, getitem.
  destruct (rev pre) as [|c rp] eqn:Er.
  - assert (pre = []) as -> by (rewrite <- (rev_involutive pre), Er; reflexivity).
    simpl; split; [left; reflexivity | reflexivity].
  - assert (Hp : pre = rev rp ++ [c])
      by (rewrite <- (rev_involutive pre), Er; reflexivity).
    assert (Hn : nth_error (pre ++ rest) (Z.to_nat (len pre - 1)) = Some c).
    { rewrite Hp, <- app_assoc. unfold len. rewrite length_app; simpl length.
      replace (Z.to_nat (Z.of_nat (length (rev rp) + 1) - 1))
        with (length (rev rp) + 0)%nat by lia.
      rewrite nth_error_app2 by lia.
      replace (length (rev rp) + 0 - length (rev rp))%nat with 0%nat by lia.
      reflexivity. }
    rewrite Hn.
    assert (Hz : (len pre =? 0) = false).
    { apply Z.eqb_neq. rewrite Hp, len_app. unfold len; simpl length.
      lia. }
    rewrite Hz; simpl. split.
    + intros Hc; right; exists (rev rp), c; split; assumption.
    + intros [H | (pre' & c' & H & Hc)].
      * rewrite H in Hp; destruct (rev rp); discriminate.
      * rewrite Hp in H. apply app_inj_tail in H; destruct H as [_ ->].
        exact Hc.
Qed.

Lemma lstrip_decompose (s : str) : exists a, s = a ++ lstrip s.
Proof.
  induction s as [|c t [a IH]]; simpl.
  - exists []; reflexivity.
  - destruct (isspace c).
    + exists (c :: a); simpl; f_equal; exact IH.
    + exists []; reflexivity.
Qed.

Lemma strip_decompose (s : str) : exists a b, s = a ++ strip s ++ b.
Proof.
  unfold strip, rstrip.
  destruct (lstrip_decompose s) as [a Ha].
  destruct (lstrip_decompose (rev (lstrip s))) as [b Hb].
  exists a, (rev b). rewrite Ha at 1. f_equal.
  rewrite <- (rev_involutive (lstrip s)) at 1. rewrite Hb at 1.
  apply rev_app_distr.
Qed.

(** A fence occurs wherever the tagged fence does. *)
Lemma fence_markdown_occurs s j :
  occurs_at FENCE_MARKDOWN s j -> occurs_at FENCE s j.
Proof.
  intros (pre & post & -> & H).
  exists pre, (lit "markdown" ++ post); split; [reflexivity | exact H].
Qed.

Lemma select_marker_fence_free s :
  fence_free s -> select_marker s block_start_variants = None.
Proof.
  intros Hf. unfold block_start_variants; cbn [select_marker].
  rewrite (find_none FENCE_MARKDOWN s), (find_none FENCE s); [reflexivity | |].
  - exact Hf.
  - intros j Hj; exact (Hf j (fence_markdown_occurs _ _ Hj)).
Qed.

Lemma strip_fence_free s :
  fence_free s -> startswith FENCE (strip s) = false.
Proof.
  intros Hf. destruct (startswith FENCE (strip s)) eqn:E; [|reflexivity].
  apply startswith_iff in E; destruct E as [r Hr].
  destruct (strip_decompose s) as (a & b & Hs).
  exfalso; apply (Hf (len a)).
  exists a, (r ++ b); split; [|reflexivity].
  rewrite Hs at 1. rewrite Hr, <- app_assoc. reflexivity.
Qed.

(** The marker the loop selects when [marker] opens the text after [pre]
    and the tagged fence, tried first, does not open it elsewhere. *)
Lemma select_marker_opens marker md pre :
  In marker block_start_variants ->
  opens_after marker md pre ->
  (marker = FENCE -> forall pre', ~ opens_after FENCE_MARKDOWN md pre') ->
  select_marker md block_start_variants = Some (len pre + len marker, marker).
Proof.
  intros Hin ((post & Hmd) & Hfirst & Hsp) Hprio.
  assert (Hocc : occurs_at marker md (len pre))
    by (exists pre, post; split; [exact Hmd | reflexivity]).
  assert (Hfind : find md marker = len pre) by (apply find_first; assumption).
  assert (Hacc : at_start_or_after_space md (len pre) = true)
    by (rewrite Hmd; apply at_start_or_after_space_iff; exact Hsp).
  assert (Hne : (len pre =? -1) = false)
    by (apply Z.eqb_neq; pose proof (len_nonneg pre); lia).
  unfold block_start_variants in *; cbn [select_marker].
  destruct Hin as [<- | [<- | []]].
  - rewrite Hfind, Hne, Hacc; reflexivity.
  - destruct (negb (find md FENCE_MARKDOWN =? -1)
              && at_start_or_after_space md (find md FENCE_MARKDOWN)) eqn:E.
    + exfalso. apply andb_true_iff in E; destruct E as [E1 E2].
      apply negb_true_iff, Z.eqb_neq in E1.
      destruct (find_found _ _ E1) as [(p & q & Hpq & Hlen) Hmin].
      apply (Hprio eq_refl p). split; [exists q; exact Hpq|]. split.
      * intros j Hj; rewrite Hlen; exact (Hmin _ Hj).
      * apply (at_start_or_after_space_iff p (FENCE_MARKDOWN ++ q)).
        rewrite <- Hpq, Hlen; exact E2.
    + rewrite Hfind, Hne, Hacc; reflexivity.
Qed.

Lemma find_absent sub s : find s sub = -1 -> forall j, ~ occurs_at sub s j.
Proof.
  unfold find; intros H.
  destruct (find_from_spec sub s 0 ltac:(lia)) as [[_ H'] | (k & Hk & Hocc & _)].
  - exact H'.
  - apply occurs_at_nonneg in Hocc; lia.
Qed.

(** ** The Markup Normalizer *)

(** C1 (amended): the opening marker is the first occurrence of the tagged
    fence when that occurrence is at position 0 or preceded by
    whitespace, and otherwise the first occurrence of the bare fence under
    the same condition.  When a fence occurs at or after the end of the
    opening marker, the normalized text is the substring strictly between
    the end of the opening marker and the last fence of the text, trimmed
    of leading and trailing whitespace. *)
Theorem normalize_greedy_last_fence (md marker pre middle post : str) :
  In marker block_start_variants ->
  md = pre ++ marker ++ middle ++ FENCE ++ post ->
  opens_after marker md pre ->
  (forall j, occurs_at FENCE md j -> j <= len pre + len marker + len middle) ->
  (marker = FENCE -> forall pre', ~ opens_after FENCE_MARKDOWN md pre') ->
  normalize md = strip middle.
Proof.
  intros Hin Hmd Hopen Hlast Hprio.
  unfold normalize.
  rewrite (select_marker_opens marker md pre Hin Hopen Hprio).
  assert (He : rfind md FENCE (len pre + len marker)
               = len pre + len marker + len middle).
  { apply rfind_last.
    - exists (pre ++ marker ++ middle), post; split.
      + rewrite Hmd, <- !app_assoc; reflexivity.
      + rewrite !len_app; lia.
    - pose proof (len_nonneg middle); lia.
    - exact Hlast. }
  rewrite He.
  assert (Hne : (len pre + len marker + len middle =? -1) = false).
  { apply Z.eqb_neq.
    pose proof (len_nonneg pre); pose proof (len_nonneg marker);
      pose proof (len_nonneg middle); lia. }
  rewrite Hne; cbn [negb].
  f_equal. rewrite Hmd, <- (len_app pre marker), (app_assoc pre marker).
  apply slice_middle.
Qed.

Lemma normalize_greedy_last_fence_witness :
  normalize (lit "``` x ```") = strip (lit " x ").
Proof.
  apply (normalize_greedy_last_fence (lit "``` x ```") FENCE [] (lit " x ") []).
  - right; left; reflexivity.
  - reflexivity.
  - split; [exists (lit " x ```"); reflexivity|]. split.
    + intros j Hj; apply occurs_at_nonneg in Hj; exact Hj.
    + left; reflexivity.
  - apply rfind_all. vm_compute. discriminate.
  - intros _ pre' ((post' & H) & _).
    apply (find_absent FENCE_MARKDOWN (lit "``` x ```") eq_refl (len pre')).
    exists pre', post'; split; [exact H | reflexivity].
Defined.

(** C1 as stated fails when both variants qualify at different places:
    the bare fence opens the text at position 0, but the tagged fence
    further on, tried first, is the one selected. *)
Lemma greedy_last_fence_counterexample :
  In FENCE block_start_variants /\
  nested_fence_text = [] ++ FENCE ++ lit " a ```markdown b " ++ FENCE ++ [] /\
  opens_after FENCE nested_fence_text [] /\
  (forall j, occurs_at FENCE nested_fence_text j ->
             j <= len [] + len FENCE + len (lit " a ```markdown b ")) /\
  normalize nested_fence_text = lit "b" /\
  normalize nested_fence_text <> strip (lit " a ```markdown b ").
Proof.
  split; [right; left; reflexivity|].
  split; [reflexivity|].
  split.
  { split; [exists (lit " a ```markdown b ```"); reflexivity|]. split.
    - intros j Hj; apply occurs_at_nonneg in Hj; exact Hj.
    - left; reflexivity. }
  split.
  { apply (rfind_all FENCE nested_fence_text). vm_compute. discriminate. }
  split; [reflexivity | vm_compute; discriminate].
Qed.

(** C6 (amended): a text without code fences is returned unchanged, not
    trimmed; it equals its trimmed form only when it has no surrounding
    whitespace. *)
Theorem normalize_fence_free (M : str) :
  fence_free M ->
  normalize M = M /\ (strip M = M -> normalize M = strip M).
Proof.
  intros Hf.
  assert (H : normalize M = M).
  { unfold normalize.
    rewrite (select_marker_fence_free M Hf), (strip_fence_free M Hf).
    reflexivity. }
  split; [exact H | intros Hs; rewrite Hs; exact H].
Qed.

Lemma normalize_fence_free_witness :
  normalize (lit "# Quote") = lit "# Quote".
Proof.
  exact (proj1 (normalize_fence_free (lit "# Quote")
                  (find_absent FENCE (lit "# Quote") eq_refl))).
Defined.

(** C6 as stated fails on a fence-free text with surrounding whitespace. *)
Lemma normalize_trimmed_counterexample :
  fence_free (lit " a ") /\ normalize (lit " a ") <> strip (lit " a ").
Proof.
  split.
  - exact (find_absent FENCE (lit " a ") eq_refl).
  - vm_compute. discriminate.
Qed.

(** ** DOCX to Markdown: headings *)

Lemma int_of_last_snoc `{Unicode} (body : str) (c : char) :
  int_of_last (body ++ [c]) = decimal_value c.
Proof. unfold int_of_last. rewrite rev_app_distr. reflexivity. Qed.

(** The lowered name of a style that starts with [Heading] is neither
    [title] nor [subtitle]. *)
Lemma heading_level_unparsable `{Unicode} (name : str) :
  startswith (lit "Heading") name = true ->
  int_of_last name = None -> heading_level name = 1.
Proof.
  intros Hs Hn. unfold heading_level. rewrite Hn.
  apply startswith_iff in Hs; destruct Hs as [r ->].
  destruct (lower_ascii_head 72%N (lit "eading" ++ r) ltac:(reflexivity))
    as [s' Hl].
  change (lit "Heading" ++ r) with (72%N :: lit "eading" ++ r).
  rewrite Hl. reflexivity.
Qed.

(** C3 (amended): for a paragraph with text whose style name starts with
    [Heading], a trailing decimal digit [d >= 1] gives a heading of level
    [d], a trailing digit 0 gives a heading of level 2, and a name with no
    trailing digit gives a heading of level 1. *)
Theorem heading_classification `{Unicode} (para : Paragraph) (body : str) (c : char) :
  strip (para_text para) <> [] ->
  startswith (lit "Heading") (style_name para) = true ->
  style_name para = body ++ [c] ->
  (forall d, decimal_value c = Some d -> 1 <= d ->
     emit_paragraph para = [heading_line d (strip (para_text para))]) /\
  (decimal_value c = Some 0 ->
     emit_paragraph para = [heading_line 2 (strip (para_text para))]) /\
  (decimal_value c = None ->
     emit_paragraph para = [heading_line 1 (strip (para_text para))]).
Proof.
  intros Htext Hstyle Hname.
  assert (Hemit : emit_paragraph para =
            if heading_level (style_name para) >? 0
            then [heading_line (heading_level (style_name para))
                    (strip (para_text para))]
            else [heading_line 2 (strip (para_text para))]).
  { unfold emit_paragraph. destruct (strip (para_text para)); [congruence|].
    rewrite Hstyle. reflexivity. }
  rewrite Hemit. split; [|split].
  - intros d Hd Hpos. unfold heading_level.
    rewrite Hname, int_of_last_snoc, Hd.
    destruct (d >? 0) eqn:E; [reflexivity|].
    rewrite Z.gtb_ltb in E; apply Z.ltb_ge in E; lia.
  - intros Hd. unfold heading_level.
    rewrite Hname, int_of_last_snoc, Hd. reflexivity.
  - intros Hd. rewrite (heading_level_unparsable _ Hstyle).
    + reflexivity.
    + rewrite Hname, int_of_last_snoc; exact Hd.
Qed.

Lemma heading_classification_witness :
  emit_paragraph (styled_para (lit "Heading 3") (lit "Scope of work"))
  = [lit "### Scope of work\n\n"].
Proof.
  refine (proj1 (heading_classification
                   (styled_para (lit "Heading 3") (lit "Scope of work"))
                   (lit "Heading ") 51%N _ _ _) 3 _ _).
  - vm_compute; discriminate.
  - reflexivity.
  - reflexivity.
  - reflexivity.
  - lia.
Defined.

(** C3 as stated fails for a trailing digit 0: the heading written has
    level 2, not the level the digit names. *)
Lemma heading_level_counterexample :
  startswith (lit "Heading") (lit "Heading 0") = true /\
  int_of_last (lit "Heading 0") = Some 0 /\
  emit_paragraph (styled_para (lit "Heading 0") (lit "Intro"))
  = [lit "## Intro\n\n"] /\
  emit_paragraph (styled_para (lit "Heading 0") (lit "Intro"))
  <> [heading_line 0 (lit "Intro")].
Proof.
  split; [reflexivity|]. split; [reflexivity|].
  split; [reflexivity | vm_compute; discriminate].
Qed.

(** A paragraph whose style does not start with [Heading] is written as a
    body paragraph, whatever its style: the checks for [title] and
    [subtitle] sit inside the branch for [Heading] styles. *)
Lemma other_style_is_body `{Unicode} (para : Paragraph) :
  strip (para_text para) <> [] ->
  startswith (lit "Heading") (style_name para) = false ->
  emit_paragraph para = [concat (List.map run_markup (runs para)) ++ BSN2].
Proof.
  intros Htext Hstyle. unfold emit_paragraph.
  destruct (strip (para_text para)); [congruence|].
  rewrite Hstyle. reflexivity.
Qed.

Example title_style_is_body :
  emit_paragraph (styled_para (lit "Title") (lit "Quotation"))
  = [lit "Quotation\n\n"] /\
  emit_paragraph (styled_para (lit "Subtitle") (lit "For ACME"))
  = [lit "For ACME\n\n"].
Proof. split; reflexivity. Qed.

(** ** DOCX to Markdown: line-break markers *)

Lemma re_sub_from_cons f (p : option char) (c : char) (t : str) :
  re_sub_from f O p (c :: t)
  = match f p (c :: t) with
    | Some (repl, n) => repl ++ re_sub_from f (Nat.pred n) (Some c) t
    | None => c :: re_sub_from f O (Some c) t
    end.
Proof. reflexivity. Qed.

Lemma collapse_prev (n : nat) (p q : option char) (s : str) :
  re_sub_from collapse_match n p s = re_sub_from collapse_match n q s.
Proof.
  revert n p q; induction s as [|c t IH]; intros n p q; simpl; [reflexivity|].
  destruct n as [|n]; [|apply IH].
  unfold collapse_match.
  destruct (3 <=? count_markers (c :: t))%nat;
    [f_equal; apply IH | f_equal; apply IH].
Qed.

Lemma count_markers_other (c : char) (t : str) :
  c <> BACKSLASH -> count_markers (c :: t) = O.
Proof.
  intros Hc; simpl. destruct t as [|d t]; [reflexivity|].
  destruct (N.eqb c 92) eqn:E; [apply N.eqb_eq in E; contradiction | reflexivity].
Qed.

Lemma count_markers_free (s : str) : backslash_free s -> count_markers s = O.
Proof.
  intros H; destruct s as [|c t]; [reflexivity|].
  apply count_markers_other. inversion H; assumption.
Qed.

Lemma count_markers_run (k : nat) (s : str) :
  count_markers s = O -> count_markers (markers k ++ s) = k.
Proof.
  intros Hs; induction k as [|k IH]; [exact Hs|].
  change (markers (S k) ++ s) with (92%N :: 110%N :: markers k ++ s).
  simpl count_markers. f_equal; exact IH.
Qed.

Lemma collapse_copy (p : option char) (c : char) (t : str) :
  count_markers (c :: t) = O ->
  re_sub_from collapse_match O p (c :: t)
  = c :: re_sub_from collapse_match O p t.
Proof.
  intros Hc. rewrite re_sub_from_cons. unfold collapse_match at 1.
  rewrite Hc; simpl. f_equal; apply collapse_prev.
Qed.

Lemma collapse_free (p : option char) (a s : str) :
  backslash_free a ->
  re_sub_from collapse_match O p (a ++ s)
  = a ++ re_sub_from collapse_match O p s.
Proof.
  induction 1 as [|c a Hc Ha IH]; [reflexivity|].
  simpl app. rewrite collapse_copy by (apply count_markers_other; exact Hc).
  f_equal; exact IH.
Qed.

Lemma collapse_skip (p : option char) (x s : str) :
  re_sub_from collapse_match (length x) p (x ++ s)
  = re_sub_from collapse_match O p s.
Proof.
  induction x as [|c x IH]; [reflexivity|].
  simpl. rewrite (collapse_prev _ (Some c) p). exact IH.
Qed.

Lemma length_markers (k : nat) : length (markers k) = (2 * k)%nat.
Proof.
  induction k as [|k IH]; [reflexivity|].
  change (markers (S k)) with (92%N :: 110%N :: markers k).
  simpl length. rewrite IH; lia.
Qed.

(** Replace the outcome of the pattern at the head of the goal by [v],
    leaving [v]'s justification from the marker count [Hc]. *)
Ltac collapse_match_is v Hc :=
  match goal with
  | |- context [collapse_match ?a ?b] =>
      replace (collapse_match a b) with v;
      [| unfold collapse_match;
         match goal with
         | |- context [count_markers ?x] =>
             rewrite (Hc : count_markers x = _)
         end ]
  end.

(** A run of three or more markers is replaced by two newline
    characters. *)
Lemma collapse_long_run (p : option char) (k : nat) (s : str) :
  (3 <= k)%nat -> count_markers s = O ->
  re_sub_from collapse_match O p (markers k ++ s)
  = [NL; NL] ++ re_sub_from collapse_match O p s.
Proof.
  intros Hk Hs. destruct k as [|k]; [lia|].
  pose proof (count_markers_run (S k) s Hs) as Hc.
  assert (Heq : markers (S k) ++ s = BACKSLASH :: (110%N :: markers k) ++ s)
    by reflexivity.
  rewrite Heq in *. clear Heq.
  rewrite re_sub_from_cons.
  collapse_match_is (Some ([NL; NL], (2 * S k)%nat)) Hc.
  - f_equal.
    replace (Nat.pred (2 * S k)) with (length (110%N :: markers k))
      by (simpl length; rewrite length_markers; lia).
    rewrite collapse_skip. apply collapse_prev.
  - destruct (3 <=? S k)%nat eqn:E; [reflexivity | apply Nat.leb_gt in E; lia].
Qed.

(** A run of one or two markers is left as it is. *)
Lemma collapse_short_run (p : option char) (k : nat) (s : str) :
  (k < 3)%nat -> count_markers s = O ->
  re_sub_from collapse_match O p (markers k ++ s)
  = markers k ++ re_sub_from collapse_match O p s.
Proof.
  intros Hk Hs; induction k as [|k IH]; [reflexivity|].
  pose proof (count_markers_run (S k) s Hs) as Hc.
  assert (Heq : markers (S k) ++ s = BACKSLASH :: 110%N :: markers k ++ s)
    by reflexivity.
  rewrite Heq in *. clear Heq.
  rewrite re_sub_from_cons.
  collapse_match_is (@None (str * nat)) Hc.
  - rewrite (collapse_prev _ (Some BACKSLASH) p).
    rewrite collapse_copy by (apply count_markers_other; discriminate).
    rewrite IH by lia. reflexivity.
  - destruct (3 <=? S k)%nat eqn:E; [apply Nat.leb_le in E; lia | reflexivity].
Qed.

Lemma collapse_run (a b : str) (k : nat) :
  backslash_free a -> backslash_free b ->
  re_sub collapse_match (a ++ markers k ++ b)
  = a ++ (if (3 <=? k)%nat then [NL; NL] else markers k) ++ b.
Proof.
  intros Ha Hb. unfold re_sub. rewrite collapse_free by exact Ha. f_equal.
  assert (Hb' : re_sub_from collapse_match O None b = b).
  { rewrite <- (app_nil_r b) at 1. rewrite collapse_free by exact Hb.
    simpl; apply app_nil_r. }
  destruct (3 <=? k)%nat eqn:E.
  - apply Nat.leb_le in E.
    rewrite collapse_long_run by (auto using count_markers_free).
    rewrite Hb'; reflexivity.
  - apply Nat.leb_gt in E.
    rewrite collapse_short_run by (auto using count_markers_free).
    rewrite Hb'; reflexivity.
Qed.

Lemma newline_free_strip (s : str) : newline_free s -> newline_free (strip s).
Proof.
  intros H. destruct (strip_decompose s) as (a & b & Hs).
  unfold newline_free in *. rewrite Hs in H.
  apply Forall_app in H; destruct H as [_ H].
  apply Forall_app in H; destruct H as [H _]. exact H.
Qed.

Lemma newline_free_app (a b : str) :
  newline_free a -> newline_free b -> newline_free (a ++ b).
Proof. intros Ha Hb; apply Forall_app; split; assumption. Qed.

Lemma newline_free_join (sep : str) (parts : list str) :
  newline_free sep -> Forall newline_free parts ->
  newline_free (join sep parts).
Proof.
  intros Hsep; induction 1 as [|p rest Hp Hrest IH]; [constructor|].
  destruct rest as [|q rest]; [exact Hp|].
  change (join sep (p :: q :: rest)) with (p ++ sep ++ join sep (q :: rest)).
  auto using newline_free_app.
Qed.

Lemma newline_free_concat (parts : list str) :
  Forall newline_free parts -> newline_free (concat parts).
Proof.
  induction 1 as [|p rest Hp Hrest IH]; [constructor|].
  simpl; auto using newline_free_app.
Qed.

Lemma newline_free_lit_checked (s : str) :
  forallb (fun c => negb (N.eqb c NL)) s = true -> newline_free s.
Proof.
  intros H. apply Forall_forall. intros c Hc Heq.
  rewrite forallb_forall in H. specialize (H c Hc).
  rewrite Heq in H. discriminate.
Qed.

Lemma newline_free_times (n : Z) : newline_free (times HASH n).
Proof.
  unfold times. induction (Z.to_nat n); constructor; [discriminate | assumption].
Qed.

(** Newline-freeness of a concatenation of literals and known pieces. *)
Ltac newline_free_tac :=
  first [ assumption
        | apply newline_free_times
        | apply newline_free_lit_checked; reflexivity
        | apply newline_free_app; newline_free_tac ].

Lemma newline_free_pipe_row (cells : list str) :
  Forall newline_free cells -> newline_free (pipe_row cells).
Proof.
  intros H. unfold pipe_row.
  assert (Hj : newline_free (join (lit " | ") cells))
    by (apply newline_free_join;
        [apply newline_free_lit_checked; reflexivity | exact H]).
  newline_free_tac.
Qed.

Lemma newline_free_run_markup (run : Run) :
  newline_free (run_text run) -> newline_free (run_markup run).
Proof.
  intros H. unfold run_markup.
  destruct (run_bold run), (run_italic run); simpl andb; cbv iota;
    newline_free_tac.
Qed.

Lemma emit_block_newline_free `{Unicode} (block : Block) :
  block_newline_free block -> Forall newline_free (emit_block block).
Proof.
  destruct block as [para | table |]; simpl.
  - intros [Htext Hruns]. unfold emit_paragraph.
    pose proof (newline_free_strip _ Htext) as Hs.
    destruct (strip (para_text para)) as [|c t] eqn:E.
    + destruct (negb (existsb run_is_drawing (runs para)));
        repeat constructor; discriminate.
    + destruct (startswith (lit "Heading") (style_name para)).
      * destruct (heading_level (style_name para) >? 0);
          (constructor; [newline_free_tac | constructor]).
      * assert (Hc : newline_free (concat (List.map run_markup (runs para)))).
        { apply newline_free_concat, Forall_map.
          eapply Forall_impl; [|exact Hruns].
          intros run; apply newline_free_run_markup. }
        constructor; [newline_free_tac | constructor].
  - intros Htable. unfold emit_table.
    destruct table as [|header_cells data_rows]; [constructor|].
    inversion Htable as [|? ? Hh Hrows]; subst.
    constructor.
    { apply newline_free_pipe_row, Forall_map.
      eapply Forall_impl; [|exact Hh]. intros c; apply newline_free_strip. }
    constructor.
    { apply newline_free_pipe_row, Forall_map, Forall_forall.
      intros c _. apply newline_free_lit_checked; reflexivity. }
    apply Forall_app; split.
    + apply Forall_map. eapply Forall_impl; [|exact Hrows].
      intros row Hrow. apply newline_free_pipe_row, Forall_map.
      eapply Forall_impl; [|exact Hrow]. intros c; apply newline_free_strip.
    + repeat constructor; discriminate.
  - constructor.
Qed.

Lemma pipe_row_marker (cells : list str) :
  pipe_row cells = (lit "| " ++ join (lit " | ") cells ++ lit " |") ++ BSN.
Proof.
  unfold pipe_row. change (lit " |\n") with (lit " |" ++ BSN).
  rewrite <- !app_assoc. reflexivity.
Qed.

Lemma emit_block_ends_with_marker `{Unicode} (block : Block) (piece : str) :
  In piece (emit_block block) -> exists content, piece = content ++ BSN.
Proof.
  destruct block as [para | table |]; simpl.
  - unfold emit_paragraph.
    destruct (strip (para_text para)) as [|c t].
    + destruct (negb (existsb run_is_drawing (runs para)));
        [intros [<- | []]; exists []; reflexivity | intros []].
    + destruct (startswith (lit "Heading") (style_name para)).
      * destruct (heading_level (style_name para) >? 0);
          intros [<- | []]; eexists;
          change BSN2 with (BSN ++ BSN); rewrite !app_assoc; reflexivity.
      * intros [<- | []]; eexists;
          change BSN2 with (BSN ++ BSN); rewrite !app_assoc; reflexivity.
  - unfold emit_table.
    destruct table as [|header_cells data_rows]; [intros []|].
    intros [<- | [<- | Hin]]; try (eexists; apply pipe_row_marker).
    simpl in Hin. apply in_app_or in Hin; destruct Hin as [Hin | Hin].
    + apply in_map_iff in Hin; destruct Hin as (row & <- & _).
      eexists; apply pipe_row_marker.
    + simpl in Hin; destruct Hin as [<- | []]. exists []; reflexivity.
  - intros [].
Qed.

(** What the converter returns for a document it can open. *)
Lemma convert_docx_to_md_returns `{Unicode} (E : Env)
    (docx_path output_path : str) (w : World) (body : Document) :
  docx_Document E docx_path = Ok body ->
  fst (convert_docx_to_md E docx_path output_path w)
  = Ok (strip (docx_final_md body)).
Proof.
  intros Hdoc.
  unfold convert_docx_to_md, try_except, bind, call, write_text, bind, call.
  rewrite Hdoc. destruct (open_w E output_path); reflexivity.
Qed.

(** Every piece the converter appends ends with the two-character marker
    (backslash, n) and holds no newline character unless an extracted text
    does. *)
Lemma docx_pieces `{Unicode} (body : Document) :
  (forall piece, In piece (md_content_of body) ->
     exists content, piece = content ++ BSN) /\
  (Forall block_newline_free body ->
     Forall newline_free (md_content_of body)).
Proof.
  split.
  - intros piece Hin. unfold md_content_of in Hin.
    apply in_flat_map in Hin; destruct Hin as (block & _ & Hin).
    exact (emit_block_ends_with_marker block piece Hin).
  - intros Hbody. unfold md_content_of.
    induction Hbody as [|block rest Hb Hrest IH]; [constructor|].
    simpl. apply Forall_app; split;
      [apply emit_block_newline_free; exact Hb | exact IH].
Qed.

(** C10: the claim is what the code attempts and misses.  Every append and
    the pattern of the post-processing use the two-character marker, and
    the comment on the line says that three or more are replaced by two;
    but the replacement template is read by [re.sub] as two newline
    escapes.  For the paragraphs [a], empty, [b], whose texts hold no
    newline, the pieces are [a\n\n], [\n] and [b\n\n] with the marker
    written out; the Markdown returned has two newline characters between
    [a] and [b] and not the two markers the claim expects. *)
Theorem docx_collapse_writes_newlines :
  Forall block_newline_free spaced_paragraphs /\
  md_content_of spaced_paragraphs = [lit "a\n\n"; lit "\n"; lit "b\n\n"] /\
  fst (convert_docx_to_md (env_docx spaced_paragraphs) (lit "in.docx")
         (lit "out.md") empty_world)
  = Ok (lit "a" ++ [NL; NL] ++ lit "b\n\n") /\
  fst (convert_docx_to_md (env_docx spaced_paragraphs) (lit "in.docx")
         (lit "out.md") empty_world)
  <> Ok (lit "a\n\nb\n\n").
Proof.
  split.
  { repeat constructor; discriminate. }
  split; [reflexivity|].
  split; [reflexivity | vm_compute; discriminate].
Qed.

(** ** Trimming *)

Lemma lstrip_length (s : str) : (length (lstrip s) <= length s)%nat.
Proof.
  induction s as [|c t IH]; simpl; [lia|].
  destruct (isspace c); simpl; lia.
Qed.

Lemma lstrip_fixed_head (c : char) (t : str) :
  lstrip (c :: t) = c :: t -> isspace c = false.
Proof.
  simpl. destruct (isspace c); [|reflexivity].
  intros Heq. pose proof (lstrip_length t) as Hl.
  rewrite Heq in Hl. simpl in Hl. lia.
Qed.

Lemma lstrip_idem (s : str) : lstrip (lstrip s) = lstrip s.
Proof.
  induction s as [|c t IH]; simpl; [reflexivity|].
  destruct (isspace c) eqn:E; [exact IH|]. simpl. rewrite E. reflexivity.
Qed.

Lemma lstrip_snoc_nonspace (u : str) (c : char) :
  isspace c = false -> exists v, lstrip (u ++ [c]) = v ++ [c].
Proof.
  intros Hc; induction u as [|d u [v IH]]; simpl.
  - rewrite Hc. exists []; reflexivity.
  - destruct (isspace d); [exists v; exact IH | exists (d :: u); reflexivity].
Qed.

Lemma strip_trimmed (s : str) : trimmed (strip s).
Proof.
  unfold trimmed, strip, rstrip. split.
  - remember (lstrip s) as l eqn:El.
    assert (Hl : lstrip l = l) by (subst l; apply lstrip_idem).
    clear El s. destruct l as [|c t]; [reflexivity|].
    pose proof (lstrip_fixed_head c t Hl) as Hc.
    simpl rev. destruct (lstrip_snoc_nonspace (rev t) c Hc) as [v Hv].
    rewrite Hv, rev_app_distr. simpl. rewrite Hc. reflexivity.
  - rewrite rev_involutive. apply lstrip_idem.
Qed.

Lemma strip_of_trimmed (s : str) : trimmed s -> strip s = s.
Proof.
  intros [H1 H2]. unfold strip, rstrip. rewrite H1, H2. apply rev_involutive.
Qed.

Lemma strip_idem (s : str) : strip (strip s) = strip s.
Proof. apply strip_of_trimmed, strip_trimmed. Qed.

(** A trimmed text padded with one space on each side trims back to
    itself. *)
Lemma strip_pad (y : str) : trimmed y -> strip (SPACE :: y ++ [SPACE]) = y.
Proof.
  intros [H1 H2]. unfold strip, rstrip.
  change (lstrip (SPACE :: y ++ [SPACE])) with (lstrip (y ++ [SPACE])).
  destruct y as [|c t]; [reflexivity|].
  pose proof (lstrip_fixed_head c t H1) as Hc.
  simpl app. simpl lstrip at 2. rewrite Hc.
  change (c :: t ++ [SPACE]) with ((c :: t) ++ [SPACE]).
  rewrite rev_app_distr.
  change (rev [SPACE] ++ rev (c :: t)) with (SPACE :: rev (c :: t)).
  change (lstrip (SPACE :: rev (c :: t))) with (lstrip (rev (c :: t))).
  rewrite H2. apply rev_involutive.
Qed.

(** ** Splitting at a separator *)

Lemma split_nonempty (sep : char) (s : str) : split sep s <> [].
Proof.
  induction s as [|c t IH]; simpl; [discriminate|].
  destruct (N.eqb c sep); [discriminate|].
  destruct (split sep t); discriminate.
Qed.

(** ** PDF to Markdown *)

Lemma add_files_nil (w : World) : add_files w [] = w.
Proof. destruct w; unfold add_files; simpl. rewrite app_nil_r. reflexivity. Qed.

Lemma add_files_app (w : World) (a b : list (str * FileContent)) :
  add_files (add_files w a) b = add_files w (a ++ b).
Proof. unfold add_files; simpl. rewrite app_assoc. reflexivity. Qed.

Lemma images_loop_reads (E : Env) (doc : PdfDoc) (pdf_path : str) (page_num : Z) :
  (forall path, open_w E path = Ok tt) ->
  forall (imgs : list (N * str)) (img_index : Z) (md_content : list str)
         (w : World),
  Forall (fun xi => exists image_bytes,
            extract_image doc (fst xi) = Ok image_bytes /\
            Image_open E image_bytes = Ok (snd xi)) imgs ->
  images_loop E doc pdf_path page_num img_index (List.map fst imgs) md_content w
  = (Ok (md_content
         ++ List.map (fun ix => image_ref (page_num + 1) (fst ix))
              (enumerate_from (img_index + 1) imgs)),
     add_files w
       (List.map (fun ix => (os_path_join (os_path_dirname pdf_path)
                               (image_name (page_num + 1) (fst ix)),
                             ImageFile (snd (snd ix))))
          (enumerate_from (img_index + 1) imgs))).
Proof.
  intros Hw. induction imgs as [|[xref img] imgs IH];
    intros img_index md_content w Himgs.
  - simpl. unfold ret. rewrite app_nil_r, add_files_nil. reflexivity.
  - inversion Himgs as [|? ? (image_bytes & Hx & Hi) Hrest]; subst.
    simpl in Hx, Hi.
    cbn [List.map fst images_loop]. unfold bind at 1, call at 1. rewrite Hx.
    unfold bind at 1, call at 1. rewrite Hi.
    unfold bind at 1, call at 1. rewrite Hw.
    unfold bind at 1, store at 1.
    rewrite (IH (img_index + 1) _ _ Hrest).
    cbn [enumerate_from List.map fst snd].
    f_equal.
    + rewrite <- app_assoc. reflexivity.
    + unfold add_files; simpl. rewrite <- app_assoc. reflexivity.
Qed.

Lemma page_pieces_markdown (page : Z) (c : PageContent) :
  concat (page_pieces page c) = page_markdown page c.
Proof.
  unfold page_pieces, page_markdown. rewrite concat_app.
  cbn [concat]. rewrite app_nil_r, <- !app_assoc. reflexivity.
Qed.

Lemma concat_flat_map {A : Type} (f : A -> list str) (l : list A) :
  concat (flat_map f l) = concat (List.map (fun x => concat (f x)) l).
Proof.
  induction l as [|x l IH]; [reflexivity|].
  simpl. rewrite concat_app, IH. reflexivity.
Qed.

Lemma pages_loop_reads (E : Env) (doc : PdfDoc) (pdf_path : str) :
  (forall path, open_w E path = Ok tt) ->
  forall (todo : list Page) (contents : list PageContent) (page_num : Z)
         (md_content : list str) (w : World),
  Forall2 (page_reads E doc) todo contents ->
  pages_loop E doc pdf_path page_num todo md_content w
  = (Ok (md_content
         ++ flat_map (fun nc => page_pieces (fst nc) (snd nc))
              (enumerate_from (page_num + 1) contents)),
     add_files w
       (flat_map (fun nc => page_files pdf_path (fst nc) (snd nc))
          (enumerate_from (page_num + 1) contents))).
Proof.
  intros Hw todo contents page_num md_content w Hall.
  revert page_num md_content w.
  induction Hall as [|page c todo contents (Ht & Hi & Himgs) Hrest IH];
    intros page_num md_content w.
  - simpl. unfold ret. rewrite app_nil_r, add_files_nil. reflexivity.
  - cbn [pages_loop]. unfold bind at 1, call at 1. rewrite Ht.
    unfold bind at 1, call at 1. rewrite Hi.
    unfold bind at 1.
    rewrite (images_loop_reads E doc pdf_path page_num Hw _ 0 _ w Himgs).
    rewrite IH.
    cbn [enumerate_from flat_map fst snd]. f_equal.
    + f_equal. unfold page_pieces. rewrite <- !app_assoc. reflexivity.
    + rewrite add_files_app. reflexivity.
Qed.

(** C9: for a PDF that can be read, the Markdown returned is, page after
    page in reading order, the page-number heading, the text of the page, a
    blank separator, and one reference for each image of the page; each
    image is saved next to the PDF as [image_p{page}_{index}.png], page and
    index counted from 1. *)
Theorem convert_pdf_to_md_pages (E : Env) (pdf_path : str) (w : World)
    (doc : PdfDoc) (contents : list PageContent) :
  fitz_open E pdf_path = Ok doc ->
  Forall2 (page_reads E doc) (pages doc) contents ->
  (forall path, open_w E path = Ok tt) ->
  convert_pdf_to_md E pdf_path w
  = (Ok (concat (List.map (fun nc => page_markdown (fst nc) (snd nc))
                   (enumerate_from 1 contents))),
     add_files w
       (concat (List.map (fun nc => page_files pdf_path (fst nc) (snd nc))
                  (enumerate_from 1 contents)))).
Proof.
  intros Hopen Hpages Hw.
  unfold convert_pdf_to_md, try_except. unfold bind at 1, call at 1.
  rewrite Hopen. unfold bind at 1.
  rewrite (pages_loop_reads E doc pdf_path Hw _ _ 0 [] w Hpages).
  unfold ret. cbn [app Z.add]. f_equal.
  - f_equal. rewrite concat_flat_map.
    apply f_equal, map_ext. intros nc. apply page_pieces_markdown.
  - rewrite flat_map_concat_map. reflexivity.
Qed.

Lemma convert_pdf_to_md_pages_witness :
  convert_pdf_to_md (env_pdf brochure) (lit "in/offer.pdf") empty_world
  = (Ok (lit "## Page 1" ++ [NL] ++ lit "Offer" ++ [NL; NL]
         ++ lit "## Page 2" ++ [NL] ++ lit "Photos" ++ [NL; NL]
         ++ lit "![Image 1 from page 2](image_p2_1.png)" ++ [NL; NL]
         ++ lit "![Image 2 from page 2](image_p2_2.png)" ++ [NL; NL]),
     {| stdout := [];
        disk := [(lit "in/image_p2_1.png", ImageFile [7%N]);
                 (lit "in/image_p2_2.png", ImageFile [9%N])] |}).
Proof.
  refine (eq_trans
    (convert_pdf_to_md_pages (env_pdf brochure) (lit "in/offer.pdf")
       empty_world brochure brochure_contents eq_refl _ (fun _ => eq_refl)) _).
  - repeat constructor; simpl; eexists; split; reflexivity.
  - reflexivity.
Defined.

(** ** DOCX to PDF: the missing engine *)

(** C8 (amended): when the document engine fails, [convert_docx_to_pdf]
    returns [False] whatever the failure; the missing-engine condition is
    identified only by the line printed, which is the dedicated one exactly
    when the error message names the missing engine. *)
Theorem convert_docx_to_pdf_engine_failure (E : Env)
    (docx_path output_pdf_path : str) (w : World) (error_message : str) :
  docx_to_pdf_converter E docx_path output_pdf_path = Raise error_message ->
  convert_docx_to_pdf E docx_path output_pdf_path w
  = (Ok false,
     {| stdout := stdout w ++
          [Line (if contains ENGINE_MISSING error_message
                 then ENGINE_MISSING_LINE
                 else lit "Error converting DOCX to PDF: " ++ error_message)];
        disk := disk w |}).
Proof.
  intros Hfail.
  unfold convert_docx_to_pdf, try_except. unfold bind at 1, call at 1.
  rewrite Hfail.
  destruct (contains ENGINE_MISSING error_message); reflexivity.
Qed.

Lemma convert_docx_to_pdf_engine_failure_witness :
  convert_docx_to_pdf (env_engine_error ENGINE_MISSING) (lit "bill.docx")
    (lit "bill.pdf") empty_world
  = (Ok false, {| stdout := [Line ENGINE_MISSING_LINE]; disk := [] |}).
Proof.
  exact (convert_docx_to_pdf_engine_failure (env_engine_error ENGINE_MISSING)
           (lit "bill.docx") (lit "bill.pdf") empty_world ENGINE_MISSING
           eq_refl).
Defined.

(** C8 as stated fails: the value returned when the engine is missing is
    the value returned for any other failure. *)
Lemma engine_missing_counterexample :
  fst (convert_docx_to_pdf (env_engine_error ENGINE_MISSING) (lit "bill.docx")
         (lit "bill.pdf") empty_world)
  = fst (convert_docx_to_pdf
           (env_engine_error (lit "Package not found at 'bill.docx'"))
           (lit "bill.docx") (lit "bill.pdf") empty_world).
Proof. reflexivity. Qed.

(** ** Markdown to PDF: the outcomes of the layout *)

Lemma report_htmlbox_prints (returned_value : HtmlBoxValue) (w : World) :
  report_htmlbox returned_value w
  = (Ok tt, {| stdout := stdout w ++ layout_warning returned_value;
               disk := disk w |}).
Proof.
  assert (Hnone : (Ok tt, w)
                  = (Ok tt, {| stdout := stdout w ++ []; disk := disk w |})
                    :> result unit * World)
    by (rewrite app_nil_r; destruct w; reflexivity).
  destruct returned_value as [n | [|] shown |];
    cbn [report_htmlbox layout_warning negb]; try exact Hnone;
    try reflexivity.
  destruct (n =? -1); [reflexivity|].
  destruct (n =? -2); [reflexivity | exact Hnone].
Qed.

(** C4 (amended): whatever value the layout engine hands back,
    [convert_md_to_pdf] returns [True] and leaves the same page on disk;
    after the same six lines it prints the warning of that value and
    nothing else.  Content that fits, content that overflows and invalid
    HTML/CSS so differ only in the warning printed: none, one naming the
    overflow area, one naming the invalid HTML/CSS. *)
Theorem convert_md_to_pdf_outcomes (E : Env)
    (md_path output_path : str) (w : World) (md_content html_snippet : str)
    (returned_value : HtmlBoxValue) :
  read_text E md_path = Ok md_content ->
  markdown_markdown E (normalize md_content) [lit "tables"; lit "fenced_code"]
  = Ok html_snippet ->
  insert_htmlbox E
    (html_for_fitz (letterhead_spacer_html ++ html_snippet)) styling_css
  = Ok returned_value ->
  open_w E output_path = Ok tt ->
  convert_md_to_pdf E md_path output_path w
  = (Ok true,
     {| stdout :=
          stdout w
          ++ pdf_debug_lines (normalize md_content)
               (letterhead_spacer_html ++ html_snippet)
          ++ layout_warning returned_value;
        disk :=
          disk w
          ++ [(output_path,
               PdfPage (html_for_fitz (letterhead_spacer_html ++ html_snippet))
                 styling_css)] |}) /\
  (forall shown, layout_warning (BoxRect true shown) = []) /\
  (forall shown,
     layout_warning (BoxRect false shown)
     = [Line (lit "Warning: fitz.insert_htmlbox indicates content overflow. Overflow area: "
              ++ shown)]) /\
  layout_warning (BoxInt (-2))
  = [Line (lit "Warning: fitz.insert_htmlbox invalid HTML/CSS (code -2).")].
Proof.
  intros Hread Hmd Hbox Hsave. split; [|split; [|split]]; try reflexivity.
  unfold convert_md_to_pdf, try_except.
  unfold bind at 1, call at 1. rewrite Hread.
  unfold bind at 1, print at 1. unfold bind at 1, print at 1.
  unfold bind at 1, print at 1.
  unfold bind at 1, call at 1. rewrite Hmd.
  unfold bind at 1, print at 1. unfold bind at 1, print at 1.
  unfold bind at 1, print at 1.
  unfold bind at 1, call at 1. rewrite Hbox.
  unfold bind at 1. rewrite report_htmlbox_prints.
  unfold bind at 1, call at 1. rewrite Hsave.
  unfold bind, store, ret, pdf_debug_lines.
  cbn [stdout disk]. rewrite <- !app_assoc. reflexivity.
Qed.

Lemma convert_md_to_pdf_outcomes_witness :
  convert_md_to_pdf (env_layout overflows) (lit "quote.md")
    (lit "quote.pdf") empty_world
  = (Ok true,
     {| stdout :=
          pdf_debug_lines (lit "# Quotation")
            (letterhead_spacer_html ++ lit "<h1>Quotation</h1>")
          ++ [Line (lit "Warning: fitz.insert_htmlbox indicates content overflow. Overflow area: Rect(50.0, 700.0, 545.0, 792.0)")];
        disk :=
          [(lit "quote.pdf",
            PdfPage (html_for_fitz
                       (letterhead_spacer_html ++ lit "<h1>Quotation</h1>"))
              styling_css)] |}).
Proof.
  exact (proj1 (convert_md_to_pdf_outcomes (env_layout overflows)
                  (lit "quote.md") (lit "quote.pdf") empty_world
                  (lit "# Quotation") (lit "<h1>Quotation</h1>") overflows
                  eq_refl eq_refl eq_refl eq_refl)).
Defined.

(** C4 as stated fails: content that fits, content that overflows and
    invalid HTML/CSS all give the same returned value. *)
Lemma layout_outcome_counterexample :
  fst (convert_md_to_pdf (env_layout fits) (lit "quote.md")
         (lit "quote.pdf") empty_world) = Ok true /\
  fst (convert_md_to_pdf (env_layout overflows) (lit "quote.md")
         (lit "quote.pdf") empty_world) = Ok true /\
  fst (convert_md_to_pdf (env_layout invalid_markup) (lit "quote.md")
         (lit "quote.pdf") empty_world) = Ok true.
Proof. repeat split; vm_compute; reflexivity. Qed.

(** ** Exceptions and the converters *)

Lemma try_except_returns {A : Type} (body : M A) (handler : str -> M A) :
  (forall e, returns (handler e)) -> returns (try_except body handler).
Proof.
  intros Hh w. unfold try_except.
  destruct (body w) as [[a | e] w'].
  - exists a, w'; reflexivity.
  - apply Hh.
Qed.

Lemma ret_returns {A : Type} (a : A) : returns (ret a).
Proof. intros w; exists a, w; reflexivity. Qed.

Lemma print_then_returns {A : Type} (p : Printed) (a : A) :
  returns (print p ;; ret a).
Proof. intros w; eexists; eexists; reflexivity. Qed.

(** On a stdout that takes every line, every converter and both
    dispatchers hand back a value, whatever the files and libraries they
    call do. *)
Lemma converters_return_on_working_stdout `{Unicode} (E : Env)
    (src dst : str) :
  returns (convert_pdf_to_md E src) /\
  returns (convert_docx_to_md E src dst) /\
  returns (convert_docx_to_pdf E src dst) /\
  returns (convert_txt_to_md E src) /\
  returns (save_markdown_file E src dst) /\
  returns (convert_md_to_pdf E src dst) /\
  returns (convert_md_to_docx E src dst) /\
  returns (convert_md_to_txt E src dst) /\
  returns (convert_file_to_md E src) /\
  returns (convert_md_to_file E src dst).
Proof.
  assert (Hpdf : forall p, returns (convert_pdf_to_md E p))
    by (intros p; apply try_except_returns; intros e; apply ret_returns).
  assert (Hdocx : forall p q, returns (convert_docx_to_md E p q))
    by (intros p q; apply try_except_returns; intros e; apply ret_returns).
  assert (Htxt : forall p, returns (convert_txt_to_md E p))
    by (intros p; apply try_except_returns; intros e; apply ret_returns).
  assert (Hmpdf : forall p q, returns (convert_md_to_pdf E p q))
    by (intros p q; apply try_except_returns; intros e;
        apply print_then_returns).
  assert (Hmdocx : forall p q, returns (convert_md_to_docx E p q))
    by (intros p q; apply try_except_returns; intros e;
        apply print_then_returns).
  assert (Hmtxt : forall p q, returns (convert_md_to_txt E p q))
    by (intros p q; apply try_except_returns; intros e;
        apply print_then_returns).
  repeat split; auto.
  - apply try_except_returns; intros e w.
    destruct (contains ENGINE_MISSING e); eexists; eexists; reflexivity.
  - apply try_except_returns; intros e; apply print_then_returns.
  - unfold convert_file_to_md.
    destruct (str_eqb (lower (path_suffix E src)) (lit ".pdf")); [apply Hpdf|].
    destruct (str_eqb (lower (path_suffix E src)) (lit ".docx")); [apply Hdocx|].
    destruct (str_eqb (lower (path_suffix E src)) (lit ".txt")); [apply Htxt|].
    apply ret_returns.
  - unfold convert_md_to_file.
    destruct (str_eqb (lower (path_suffix E dst)) (lit ".pdf")); [apply Hmpdf|].
    destruct (str_eqb (lower (path_suffix E dst)) (lit ".docx")); [apply Hmdocx|].
    destruct (str_eqb (lower (path_suffix E dst)) (lit ".txt")); [apply Hmtxt|].
    apply print_then_returns.
Qed.

(** On a stdout that takes every line the converters written for any
    stdout are the ones above. *)
Lemma stdout_taking_every_line `{Unicode} (E : Env)
    (md_path output_path : str) (w : World) :
  Stdout.convert_md_to_pdf E (fun _ => Ok tt) md_path output_path w
  = convert_md_to_pdf E md_path output_path w /\
  Stdout.convert_md_to_docx E (fun _ => Ok tt) md_path output_path w
  = convert_md_to_docx E md_path output_path w /\
  Stdout.convert_md_to_txt E (fun _ => Ok tt) md_path output_path w
  = convert_md_to_txt E md_path output_path w.
Proof.
  repeat split; reflexivity.
Qed.

(** C5: the claim is what the code attempts and misses.  Each converter
    wraps its body in [try]/[except Exception], but the handler itself
    prints, and that [print] is guarded by nothing: when the file cannot be
    read and stdout cannot take the line that reports it, the exception of
    [print] leaves [convert_md_to_pdf], [convert_md_to_docx] and
    [convert_md_to_txt]; no value is returned and nothing is printed. *)
Theorem handler_print_raises `{Unicode} (E : Env)
    (stdout_write : Printed -> result unit) (md_path output_path : str)
    (w : World) (e e_pdf e_docx e_txt : str) :
  read_text E md_path = Raise e ->
  stdout_write (Line (lit "Error converting Markdown to PDF: " ++ e))
  = Raise e_pdf ->
  stdout_write (Line (lit "Error converting Markdown to DOCX: " ++ e))
  = Raise e_docx ->
  stdout_write (Line (lit "Error converting Markdown to TXT: " ++ e))
  = Raise e_txt ->
  Stdout.convert_md_to_pdf E stdout_write md_path output_path w
  = (Raise e_pdf, w) /\
  Stdout.convert_md_to_docx E stdout_write md_path output_path w
  = (Raise e_docx, w) /\
  Stdout.convert_md_to_txt E stdout_write md_path output_path w
  = (Raise e_txt, w).
Proof.
  intros Hread Hpdf Hdocx Htxt. split; [|split].
  - unfold Stdout.convert_md_to_pdf, try_except.
    unfold bind at 1, call at 1. rewrite Hread.
    unfold bind, Stdout.print. rewrite Hpdf. reflexivity.
  - unfold Stdout.convert_md_to_docx, try_except.
    unfold bind at 1, call at 1. rewrite Hread.
    unfold bind, Stdout.print. rewrite Hdocx. reflexivity.
  - unfold Stdout.convert_md_to_txt, try_except.
    unfold bind at 1, call at 1. rewrite Hread.
    unfold bind, Stdout.print. rewrite Htxt. reflexivity.
Qed.

Lemma handler_print_raises_witness :
  Stdout.convert_md_to_pdf env_missing_file (ascii_stdout plain_repr)
    accented_path (lit "out.pdf") empty_world
  = (Raise (lit "'ascii' codec can't encode character '\xe9' in position 75: ordinal not in range(128)"),
     empty_world) /\
  Stdout.convert_md_to_docx env_missing_file (ascii_stdout plain_repr)
    accented_path (lit "out.pdf") empty_world
  = (Raise (lit "'ascii' codec can't encode character '\xe9' in position 76: ordinal not in range(128)"),
     empty_world) /\
  Stdout.convert_md_to_txt env_missing_file (ascii_stdout plain_repr)
    accented_path (lit "out.pdf") empty_world
  = (Raise (lit "'ascii' codec can't encode character '\xe9' in position 75: ordinal not in range(128)"),
     empty_world).
Proof.
  exact (handler_print_raises env_missing_file (ascii_stdout plain_repr)
           accented_path (lit "out.pdf") empty_world _ _ _ _
           eq_refl eq_refl eq_refl eq_refl).
Defined.

(** On a machine where every outside call raises, each converter still
    hands back its failure value. *)
Example converters_on_failing_machine :
  fst (convert_pdf_to_md env_nothing (lit "a.pdf") empty_world)
  = Ok (lit "Error converting PDF to Markdown: no such file") /\
  fst (convert_md_to_pdf env_nothing (lit "a.md") (lit "a.pdf") empty_world)
  = Ok false /\
  fst (convert_file_to_md env_nothing (lit "a.PDF") empty_world)
  = Ok (lit "Error converting PDF to Markdown: no such file").
Proof. repeat split; reflexivity. Qed.

(** ** Markdown to plain text *)

(** A substitution whose replacements are made of characters of the text
    keeps every property of the characters. *)
Lemma re_sub_from_Forall (P : char -> Prop)
    (f : option char -> str -> option (str * nat)) :
  (forall p s repl n, f p s = Some (repl, n) -> Forall P s -> Forall P repl) ->
  forall s n p, Forall P s -> Forall P (re_sub_from f n p s).
Proof.
  intros Hf. induction s as [|c t IH]; intros n p Hs; [constructor|].
  inversion Hs as [|? ? Hc Ht]; subst.
  destruct n as [|n]; [|simpl; apply IH; exact Ht].
  rewrite re_sub_from_cons.
  destruct (f p (c :: t)) as [[repl k]|] eqn:E.
  - apply Forall_app; split; [exact (Hf _ _ _ _ E Hs) | apply IH; exact Ht].
  - constructor; [exact Hc | apply IH; exact Ht].
Qed.

Lemma span_until_Forall (P : char -> Prop) (stop : char) (s : str) :
  Forall P s -> Forall P (fst (span_until stop s)).
Proof.
  induction 1 as [|c t Hc Ht IH]; simpl; [constructor|].
  destruct (N.eqb c stop); [constructor|].
  destruct (span_until stop t) as [a b]. simpl in *.
  constructor; assumption.
Qed.

Lemma bracket_paren_label (P : char -> Prop) (s repl : str) (n : nat) :
  bracket_paren s = Some (repl, n) -> Forall P s -> Forall P repl.
Proof.
  unfold bracket_paren. destruct s as [|c t]; [discriminate|].
  destruct (N.eqb c 91); [|discriminate].
  intros Hm Hs. inversion Hs as [|? ? _ Ht]; subst.
  pose proof (span_until_Forall P 93%N t Ht) as Hl.
  destruct (span_until 93%N t) as [label r1]. simpl in Hl.
  destruct label as [|l0 label]; [discriminate|].
  destruct r1 as [|r r1]; [discriminate|].
  destruct r1 as [|q r2]; [discriminate|].
  destruct (N.eqb q 40); [|discriminate].
  destruct (span_until 41%N r2) as [url r3].
  destruct url; [discriminate|]. destruct r3; [discriminate|].
  injection Hm as <- _. exact Hl.
Qed.

(** After the emphasis markers are removed no star is left. *)
Lemma emphasis_removes_stars `{Unicode} (s : str) (n : nat) (p : option char) :
  Forall (fun c => c <> STAR) (re_sub_from emphasis_match n p s).
Proof.
  revert n p; induction s as [|c t IH]; intros n p; [constructor|].
  destruct n as [|n]; [|simpl; apply IH].
  rewrite re_sub_from_cons. unfold emphasis_match.
  destruct (N.eqb c STAR) eqn:Estar.
  - destruct t as [|d t']; [apply IH|].
    destruct (N.eqb d STAR); apply IH.
  - apply N.eqb_neq in Estar.
    destruct (N.eqb c UNDERSCORE).
    + destruct t as [|d t'].
      * destruct (negb match p with Some q => is_word q | None => false end);
          [apply IH | constructor; [exact Estar | apply IH]].
      * destruct (N.eqb d UNDERSCORE); [apply IH|].
        destruct (negb match p with Some q => is_word q | None => false end
                  && negb (is_word d));
          [apply IH | constructor; [exact Estar | apply IH]].
    + constructor; [exact Estar | apply IH].
Qed.

Lemma md_to_txt_text_no_star `{Unicode} (md_content : str) :
  Forall (fun c => c <> STAR) (md_to_txt_text md_content).
Proof.
  unfold md_to_txt_text, re_sub.
  apply re_sub_from_Forall.
  { intros p s repl n Hm _. unfold code_block_match in Hm.
    destruct (startswith FENCE s); [|discriminate].
    destruct (span_until BACKTICK (skipn 3 s)) as [body r].
    destruct (startswith FENCE r); [|discriminate].
    injection Hm as <- _. constructor. }
  apply re_sub_from_Forall.
  { intros p s repl n Hm _. unfold image_match in Hm.
    destruct s as [|c t]; [discriminate|].
    destruct (N.eqb c 33); [|discriminate].
    destruct (bracket_paren t) as [[l k]|]; [|discriminate].
    injection Hm as <- _. constructor. }
  apply re_sub_from_Forall.
  { intros p s repl n Hm Hs. exact (bracket_paren_label _ s repl n Hm Hs). }
  apply emphasis_removes_stars.
Qed.

(** C7 (amended): when the Markdown file can be read and the text file
    written, the text written holds no star, hence never the substring
    [**]. *)
Theorem convert_md_to_txt_no_bold `{Unicode} (E : Env)
    (md_path output_path : str) (w : World) (md_content : str) :
  read_text E md_path = Ok md_content ->
  open_w E output_path = Ok tt ->
  exists txt_content,
    convert_md_to_txt E md_path output_path w
    = (Ok true, add_files w [(output_path, TextFile txt_content)]) /\
    ~ In STAR txt_content /\
    forall i, ~ occurs_at (lit "**") txt_content i.
Proof.
  intros Hread Hwrite. exists (md_to_txt_text md_content).
  assert (Hstar : ~ In STAR (md_to_txt_text md_content)).
  { intros Hin. pose proof (md_to_txt_text_no_star md_content) as Hall.
    rewrite Forall_forall in Hall. exact (Hall _ Hin eq_refl). }
  split; [|split; [exact Hstar|]].
  - unfold convert_md_to_txt, try_except, write_text.
    unfold bind at 1, call at 1. rewrite Hread.
    unfold bind at 1. unfold bind at 1, call at 1. rewrite Hwrite.
    reflexivity.
  - intros i (pre & post & Heq & _). apply Hstar.
    rewrite Heq. apply in_or_app; right. left; reflexivity.
Qed.

Lemma convert_md_to_txt_no_bold_witness :
  exists txt_content,
    convert_md_to_txt (env_text_file (lit "## Total: **42** *net*"))
      (lit "quote.md") (lit "quote.txt") empty_world
    = (Ok true,
       add_files empty_world [(lit "quote.txt", TextFile txt_content)]) /\
    ~ In STAR txt_content /\
    forall i, ~ occurs_at (lit "**") txt_content i.
Proof.
  exact (convert_md_to_txt_no_bold
           (env_text_file (lit "## Total: **42** *net*"))
           (lit "quote.md") (lit "quote.txt") empty_world
           (lit "## Total: **42** *net*") eq_refl eq_refl).
Defined.

(** C7 as stated fails: hashes not followed by whitespace are kept, and
    so is a bracket-parenthesis pair that is not a link. *)
Lemma md_to_txt_counterexample :
  convert_md_to_txt (env_text_file (lit "##tag [](u)"))
    (lit "quote.md") (lit "quote.txt") empty_world
  = (Ok true,
     {| stdout := [];
        disk := [(lit "quote.txt", TextFile (lit "##tag [](u)"))] |}) /\
  occurs_at (lit "##") (lit "##tag [](u)") 0 /\
  occurs_at (lit "](") (lit "##tag [](u)") 7.
Proof.
  split; [reflexivity|]. split.
  - exists [], (lit "tag [](u)"); split; reflexivity.
  - exists (lit "##tag ["), (lit "u)"); split; reflexivity.
Qed.

(* ===================================================================== *)
(** * Further properties of the Markup Normalizer                         *)
(* ===================================================================== *)

Lemma endswith_iff (p s : str) :
  endswith p s = true <-> exists u, s = u ++ p.
Proof.
  unfold endswith. rewrite startswith_iff. split.
  - intros [r Hr]. exists (rev r).
    rewrite <- (rev_involutive s), Hr, rev_app_distr, rev_involutive.
    reflexivity.
  - intros [u ->]. exists (rev u). apply rev_app_distr.
Qed.

Lemma lstrip_decompose_space (s : str) :
  exists a, s = a ++ lstrip s /\ whitespace a.
Proof.
  induction s as [|c t (a & IH & Ha)]; simpl.
  - exists []; split; [reflexivity | constructor].
  - destruct (isspace c) eqn:E.
    + exists (c :: a); split; [simpl; f_equal; exact IH|].
      constructor; assumption.
    + exists []; split; [reflexivity | constructor].
Qed.

Lemma whitespace_rev (s : str) : whitespace s -> whitespace (rev s).
Proof. apply Forall_rev. Qed.

Lemma strip_decompose_space (s : str) :
  exists a b, s = a ++ strip s ++ b /\ whitespace a /\ whitespace b.
Proof.
  unfold strip, rstrip.
  destruct (lstrip_decompose_space s) as (a & Ha & Hwa).
  destruct (lstrip_decompose_space (rev (lstrip s))) as (b & Hb & Hwb).
  exists a, (rev b). split; [|split; [exact Hwa | apply whitespace_rev, Hwb]].
  rewrite Ha at 1. f_equal.
  rewrite <- (rev_involutive (lstrip s)) at 1. rewrite Hb at 1.
  apply rev_app_distr.
Qed.

Lemma lstrip_app_space (a s : str) : whitespace a -> lstrip (a ++ s) = lstrip s.
Proof.
  induction 1 as [|c a Hc Ha IH]; [reflexivity|].
  simpl. rewrite Hc. exact IH.
Qed.

(** Whitespace around a text does not change its trimmed form. *)
Lemma strip_app_space (a m b : str) :
  whitespace a -> whitespace b -> strip (a ++ m ++ b) = strip m.
Proof.
  intros Ha Hb. unfold strip, rstrip.
  rewrite (lstrip_app_space a _ Ha).
  destruct (lstrip_decompose_space m) as (a' & Hm & Ha').
  destruct (lstrip m) as [|c t] eqn:E.
  - assert (Hall : whitespace (m ++ b)).
    { rewrite Hm, app_nil_r. apply Forall_app; split; assumption. }
    rewrite <- (app_nil_r (m ++ b)), (lstrip_app_space _ [] Hall).
    reflexivity.
  - assert (Hc : isspace c = false).
    { apply (lstrip_fixed_head c t). rewrite <- E. apply lstrip_idem. }
    assert (Hl : lstrip (m ++ b) = (c :: t) ++ b).
    { rewrite Hm at 1. rewrite <- app_assoc, (lstrip_app_space a' _ Ha').
      simpl. rewrite Hc. reflexivity. }
    rewrite Hl, rev_app_distr.
    rewrite (lstrip_app_space (rev b) _ (whitespace_rev b Hb)).
    reflexivity.
Qed.

Lemma occurs_at_app_right (sub a b : str) (j : Z) :
  occurs_at sub (a ++ b) j -> len a <= j -> occurs_at sub b (j - len a).
Proof.
  revert j; induction a as [|c a IH]; intros j Hocc Hj.
  - simpl in *. replace (j - len []) with j by (unfold len; simpl; lia).
    exact Hocc.
  - simpl app in Hocc. apply occurs_at_cons in Hocc.
    assert (Hl : len (c :: a) = len a + 1) by (unfold len; simpl length; lia).
    destruct Hocc as [[-> _] | Hocc].
    + pose proof (len_nonneg a). lia.
    + replace (j - len (c :: a)) with (j - 1 - len a) by lia.
      apply IH; [exact Hocc | lia].
Qed.

Lemma whitespace_fence_free (ws : str) (j : Z) :
  whitespace ws -> ~ occurs_at FENCE ws j.
Proof.
  intros Hws (p & q & Heq & _). unfold whitespace in Hws. rewrite Heq in Hws.
  apply Forall_app in Hws; destruct Hws as [_ Hws].
  inversion Hws as [|? ? Hc _]; subst. discriminate.
Qed.

(** In a fence followed by whitespace, the fence occurs at the start
    only. *)
Lemma fence_then_space (ws : str) (k : Z) :
  whitespace ws -> occurs_at FENCE (FENCE ++ ws) k -> k = 0.
Proof.
  intros Hws Hocc.
  assert (Hhead : forall r, ws = BACKTICK :: r -> False).
  { intros r ->. inversion Hws as [|? ? Hc _]; subst. discriminate. }
  change (FENCE ++ ws) with (BACKTICK :: BACKTICK :: BACKTICK :: ws) in Hocc.
  apply occurs_at_cons in Hocc; destruct Hocc as [[-> _] | Hocc]; [reflexivity|].
  exfalso.
  apply occurs_at_cons in Hocc; destruct Hocc as [[_ Hs] | Hocc].
  { apply startswith_iff in Hs; destruct Hs as [r Hr].
    injection Hr as Hr. exact (Hhead _ Hr). }
  apply occurs_at_cons in Hocc; destruct Hocc as [[_ Hs] | Hocc].
  { apply startswith_iff in Hs; destruct Hs as [r Hr].
    injection Hr as Hr. exact (Hhead _ Hr). }
  exact (whitespace_fence_free ws _ Hws Hocc).
Qed.

(** The result once the loop has selected a marker and a closing fence
    follows it. *)
Lemma normalize_with_marker (md marker : str) (start_index e : Z) :
  select_marker md block_start_variants = Some (start_index, marker) ->
  rfind md FENCE start_index = e -> e <> -1 ->
  normalize md = strip (slice md start_index e).
Proof.
  intros Hsel He Hne. unfold normalize. rewrite Hsel, He.
  destruct (e =? -1) eqn:E; [apply Z.eqb_eq in E; contradiction | reflexivity].
Qed.

(** X1: a text wrapped as a tagged fenced block (the tagged fence at the
    very start, a closing fence followed by nothing but whitespace) is
    unwrapped to its trimmed content, whatever the content holds. *)
Theorem normalize_unwraps_tagged (M ws : str) :
  whitespace ws ->
  normalize (FENCE_MARKDOWN ++ [NL] ++ M ++ [NL] ++ FENCE ++ ws) = strip M.
Proof.
  intros Hws.
  set (md := FENCE_MARKDOWN ++ [NL] ++ M ++ [NL] ++ FENCE ++ ws).
  assert (Hocc0 : occurs_at FENCE_MARKDOWN md 0)
    by (exists [], ([NL] ++ M ++ [NL] ++ FENCE ++ ws); split; reflexivity).
  assert (Hsel : select_marker md block_start_variants
                 = Some (len FENCE_MARKDOWN, FENCE_MARKDOWN)).
  { unfold block_start_variants; cbn [select_marker].
    rewrite (find_first FENCE_MARKDOWN md 0 Hocc0)
      by (intros j Hj; exact (occurs_at_nonneg _ _ _ Hj)).
    reflexivity. }
  assert (Hmd : md = (FENCE_MARKDOWN) ++ ([NL] ++ M ++ [NL]) ++ FENCE ++ ws)
    by (unfold md; rewrite <- !app_assoc; reflexivity).
  assert (He : rfind md FENCE (len FENCE_MARKDOWN)
               = len FENCE_MARKDOWN + len ([NL] ++ M ++ [NL])).
  { apply rfind_last.
    - exists (FENCE_MARKDOWN ++ [NL] ++ M ++ [NL]), ws. split.
      + unfold md. rewrite <- !app_assoc. reflexivity.
      + apply len_app.
    - pose proof (len_nonneg ([NL] ++ M ++ [NL])). lia.
    - intros j Hj.
      destruct (Z_le_gt_dec j (len FENCE_MARKDOWN + len ([NL] ++ M ++ [NL])))
        as [Hle | Hgt]; [exact Hle | exfalso].
      rewrite Hmd, app_assoc in Hj.
      apply occurs_at_app_right in Hj; [|rewrite len_app; lia].
      apply (fence_then_space ws _ Hws) in Hj. rewrite len_app in Hj. lia. }
  rewrite (normalize_with_marker md FENCE_MARKDOWN _ _ Hsel He).
  - rewrite Hmd, slice_middle.
    apply (strip_app_space [NL] M [NL]); repeat constructor.
  - pose proof (len_nonneg ([NL] ++ M ++ [NL])).
    pose proof (len_nonneg FENCE_MARKDOWN). lia.
Qed.

Lemma normalize_unwraps_tagged_witness :
  normalize (FENCE_MARKDOWN ++ [NL] ++ lit "| a |" ++ [NL] ++ FENCE ++ [NL])
  = lit "| a |".
Proof.
  apply (normalize_unwraps_tagged (lit "| a |") [NL]).
  repeat constructor.
Defined.

Lemma rfind_none (sub s : str) (start : Z) :
  (forall j, occurs_at sub s j -> j < start) -> rfind s sub start = -1.
Proof.
  intros Hno. unfold rfind.
  destruct (rfind_from_spec sub start s 0 ltac:(lia))
    as [[H _] | (k & _ & H1 & H2 & _)]; [exact H|].
  specialize (Hno _ H1). lia.
Qed.

(** A text that starts with [marker], ends with a fence and is long enough
    holds a fence after the marker. *)
Lemma fence_after_marker (marker r u : str) :
  marker ++ r = u ++ FENCE -> (3 <= length r)%nat ->
  exists r', r = r' ++ FENCE.
Proof.
  intros Heq Hlen. apply app_eq_app in Heq.
  destruct Heq as [l [[Hm Hf] | [Hu Hr]]].
  - assert (Hl : l = []).
    { apply (f_equal (@length char)) in Hf. rewrite length_app in Hf.
      simpl in Hf. destruct l; [reflexivity | simpl in Hf; lia]. }
    subst l. exists []. simpl in Hf. symmetry; exact Hf.
  - exists l. exact Hr.
Qed.

(** The tagged fence followed by at most two characters does not end with
    a fence. *)
Lemma tagged_fence_short_end (r : str) :
  (length r < 3)%nat -> endswith FENCE (FENCE_MARKDOWN ++ r) = false.
Proof.
  intros Hlen.
  destruct r as [|x [|y [|z r]]]; [reflexivity | | | simpl in Hlen; lia].
  - unfold endswith. simpl. apply andb_false_r.
  - unfold endswith. simpl. rewrite andb_false_r. apply andb_false_r.
Qed.

(** X2: when an opening marker is found but no fence follows it, the text
    is returned as it is (for the bare fence, provided the trimmed text
    has at least six characters). *)
Theorem normalize_unclosed_fence (md marker pre : str) :
  In marker block_start_variants ->
  opens_after marker md pre ->
  (marker = FENCE -> forall pre', ~ opens_after FENCE_MARKDOWN md pre') ->
  (forall j, occurs_at FENCE md j -> j < len pre + len marker) ->
  (marker = FENCE -> 6 <= len (strip md)) ->
  normalize md = md.
Proof.
  intros Hin Hopen Hprio Hnone Hlong.
  unfold normalize.
  rewrite (select_marker_opens marker md pre Hin Hopen Hprio).
  rewrite (rfind_none FENCE md _ Hnone). cbn [Z.eqb negb].
  destruct (startswith marker (strip md) && endswith FENCE (strip md)) eqn:E;
    [exfalso | reflexivity].
  apply andb_true_iff in E; destruct E as [Hs He].
  apply startswith_iff in Hs; destruct Hs as [r Hr].
  assert (Hr3 : (3 <= length r)%nat).
  { destruct (le_lt_dec 3 (length r)) as [H | H]; [exact H | exfalso].
    destruct Hin as [<- | [<- | []]].
    - rewrite Hr, (tagged_fence_short_end r H) in He. discriminate.
    - specialize (Hlong eq_refl). rewrite Hr, len_app in Hlong.
      unfold len in Hlong. simpl length in Hlong. lia. }
  apply endswith_iff in He; destruct He as [u Hu].
  rewrite Hr in Hu.
  destruct (fence_after_marker marker r u Hu Hr3) as [r' Hr'].
  destruct (strip_decompose md) as (a & b & Hmd).
  destruct Hopen as (_ & Hfirst & _).
  assert (Hm : occurs_at marker md (len a)).
  { exists a, (r ++ b). split; [|reflexivity].
    rewrite Hmd at 1. rewrite Hr, <- app_assoc. reflexivity. }
  assert (Hf : occurs_at FENCE md (len a + len marker + len r')).
  { exists (a ++ marker ++ r'), b. split.
    - rewrite Hmd at 1. rewrite Hr, Hr', <- !app_assoc. reflexivity.
    - rewrite !len_app. lia. }
  specialize (Hfirst _ Hm). specialize (Hnone _ Hf).
  pose proof (len_nonneg r'). lia.
Qed.

Lemma normalize_unclosed_fence_witness :
  normalize (lit "```markdown
# Quote") = lit "```markdown
# Quote".
Proof.
  apply (normalize_unclosed_fence _ FENCE_MARKDOWN []).
  - left; reflexivity.
  - split; [exists (lit "
# Quote"); reflexivity|]. split.
    + intros j Hj; exact (occurs_at_nonneg _ _ _ Hj).
    + left; reflexivity.
  - discriminate.
  - intros j Hj.
    pose proof (proj2 (rfind_all FENCE (lit "```markdown
# Quote") ltac:(vm_compute; discriminate)) j Hj) as H.
    vm_compute in H. unfold len; simpl. destruct j; try lia; contradiction.
  - discriminate.
Defined.

Lemma select_marker_none (md : str) :
  (forall marker pre, In marker block_start_variants ->
                      ~ opens_after marker md pre) ->
  select_marker md block_start_variants = None.
Proof.
  intros Hno.
  assert (Hrej : forall marker, In marker block_start_variants ->
            negb (find md marker =? -1)
            && at_start_or_after_space md (find md marker) = false).
  { intros marker Hin.
    destruct (negb (find md marker =? -1)
              && at_start_or_after_space md (find md marker)) eqn:E;
      [exfalso | reflexivity].
    apply andb_true_iff in E; destruct E as [E1 E2].
    apply negb_true_iff, Z.eqb_neq in E1.
    destruct (find_found _ _ E1) as [(p & q & Hpq & Hlen) Hmin].
    apply (Hno marker p Hin). split; [exists q; exact Hpq|]. split.
    - intros j Hj; rewrite Hlen; exact (Hmin _ Hj).
    - apply (at_start_or_after_space_iff p (marker ++ q)).
      rewrite <- Hpq, Hlen; exact E2. }
  unfold block_start_variants in *; cbn [select_marker].
  rewrite (Hrej FENCE_MARKDOWN) by (left; reflexivity).
  rewrite (Hrej FENCE) by (right; left; reflexivity).
  reflexivity.
Qed.

Lemma app_prefix_of_longer (a x p y : str) :
  a ++ x = p ++ y -> (length p <= length a)%nat -> exists a', a = p ++ a'.
Proof.
  intros Heq Hlen. apply app_eq_app in Heq.
  destruct Heq as [l [[Ha _] | [Hp _]]].
  - exists l; exact Ha.
  - assert (l = []) as ->.
    { apply (f_equal (@length char)) in Hp. rewrite length_app in Hp.
      destruct l; [reflexivity | simpl in Hp; lia]. }
    exists []. rewrite app_nil_r in Hp. rewrite app_nil_r. symmetry; exact Hp.
Qed.

(** X3: when the first fence of the text is glued to a preceding
    character that is not whitespace, and the tagged fence does not open
    the text elsewhere, nothing is unwrapped: the text is returned as it
    is. *)
Theorem normalize_glued_fence (md pre post : str) (c : char) :
  md = pre ++ [c] ++ FENCE ++ post ->
  isspace c = false ->
  (forall j, occurs_at FENCE md j -> len pre + 1 <= j) ->
  (forall pre', ~ opens_after FENCE_MARKDOWN md pre') ->
  normalize md = md.
Proof.
  intros Hmd Hc Hfirst Htag.
  assert (Hbare : forall pre', ~ opens_after FENCE md pre').
  { intros pre' ((post' & Hp) & Hmin & Hsp).
    assert (Hlen : len pre' = len pre + 1).
    { assert (H1 : occurs_at FENCE md (len pre')) by
        (exists pre', post'; split; [exact Hp | reflexivity]).
      assert (H2 : occurs_at FENCE md (len pre + 1)).
      { exists (pre ++ [c]), post. split.
        - rewrite Hmd, <- app_assoc. reflexivity.
        - rewrite len_app. reflexivity. }
      specialize (Hfirst _ H1). specialize (Hmin _ H2). lia. }
    assert (Heq : pre' = pre ++ [c]).
    { rewrite Hmd in Hp. rewrite (app_assoc pre [c]) in Hp.
      symmetry in Hp. apply app_eq_app in Hp.
      destruct Hp as [l [[H1 _] | [H1 _]]];
        apply (f_equal (@length char)) in H1 as Hl;
        rewrite !length_app in Hl; unfold len in Hlen;
        rewrite ?length_app in Hlen; simpl length in *;
        (assert (l = []) as -> by (destruct l; [reflexivity | simpl in Hl; lia]));
        rewrite app_nil_r in H1; congruence. }
    destruct Hsp as [Hnil | (p & d & Hpd & Hd)].
    - rewrite Hnil in Heq. destruct pre; discriminate.
    - rewrite Heq in Hpd. apply app_inj_tail in Hpd. destruct Hpd as [_ <-].
      congruence. }
  unfold normalize.
  rewrite (select_marker_none md).
  2:{ intros marker pre' [<- | [<- | []]]; [apply Htag | apply Hbare]. }
  destruct (startswith FENCE (strip md)) eqn:E; [exfalso | reflexivity].
  apply startswith_iff in E; destruct E as [r Hr].
  destruct (strip_decompose_space md) as (a & b & Hs & Ha & _).
  assert (Hocc : occurs_at FENCE md (len a)).
  { exists a, (r ++ b). split; [|reflexivity].
    rewrite Hs at 1. rewrite Hr, <- app_assoc. reflexivity. }
  specialize (Hfirst _ Hocc).
  rewrite Hmd in Hs. rewrite (app_assoc pre [c]) in Hs. symmetry in Hs.
  destruct (app_prefix_of_longer a _ (pre ++ [c]) _ Hs) as [a' Ha'].
  - unfold len in Hfirst. rewrite length_app. simpl length. lia.
  - rewrite Ha' in Ha. unfold whitespace in Ha.
    apply Forall_app in Ha; destruct Ha as [Ha _].
    apply Forall_app in Ha; destruct Ha as [_ Ha].
    inversion Ha as [|? ? Hsp _]; subst. congruence.
Qed.

Lemma normalize_glued_fence_witness :
  normalize (lit "use x```y``` here") = lit "use x```y``` here".
Proof.
  apply (normalize_glued_fence _ (lit "use ") (lit "y``` here") 120%N).
  - reflexivity.
  - reflexivity.
  - intros j Hj.
    exact (proj2 (find_found FENCE (lit "use x```y``` here")
                    ltac:(vm_compute; discriminate)) j Hj).
  - intros pre' ((post' & H) & _).
    apply (find_absent FENCE_MARKDOWN (lit "use x```y``` here") eq_refl
             (len pre')).
    exists pre', post'; split; [exact H | reflexivity].
Defined.

(* ===================================================================== *)
(** * Further properties of DOCX to Markdown                              *)
(* ===================================================================== *)

(** X4: the Markdown side file is written independently of the value
    returned: for a document that can be read the converter returns the
    trimmed Markdown in every case; the file written holds the untrimmed
    text; and when the file cannot be written only a warning is printed
    and nothing is stored. *)
Theorem convert_docx_to_md_side_file `{Unicode} (E : Env)
    (docx_path output_path : str) (w : World) (body : Document) :
  docx_Document E docx_path = Ok body ->
  fst (convert_docx_to_md E docx_path output_path w)
  = Ok (strip (docx_final_md body)) /\
  trimmed (strip (docx_final_md body)) /\
  (open_w E output_path = Ok tt ->
   snd (convert_docx_to_md E docx_path output_path w)
   = add_files w [(output_path, TextFile (docx_final_md body))]) /\
  (forall file_error, open_w E output_path = Raise file_error ->
   snd (convert_docx_to_md E docx_path output_path w)
   = {| stdout := stdout w ++
          [Line (lit "Warning: Could not save file to " ++ output_path
                 ++ lit ": " ++ file_error)];
        disk := disk w |}).
Proof.
  intros Hdoc.
  split; [exact (convert_docx_to_md_returns E docx_path output_path w _ Hdoc)|].
  split; [apply strip_trimmed|].
  split.
  - intros Hw.
    unfold convert_docx_to_md, try_except, bind, call, write_text, bind, call.
    rewrite Hdoc, Hw. reflexivity.
  - intros file_error Hw.
    unfold convert_docx_to_md, try_except, bind, call, write_text, bind, call.
    rewrite Hdoc, Hw. reflexivity.
Qed.

Lemma convert_docx_to_md_side_file_witness :
  snd (convert_docx_to_md (env_docx_readonly price_table_document)
         (lit "in.docx") (lit "out.md") empty_world)
  = {| stdout :=
         [Line (lit "Warning: Could not save file to out.md: Permission denied")];
       disk := [] |}.
Proof.
  exact (proj2 (proj2 (proj2
    (convert_docx_to_md_side_file (env_docx_readonly price_table_document)
       (lit "in.docx") (lit "out.md") empty_world price_table_document
       eq_refl))) (lit "Permission denied") eq_refl).
Defined.

(** X5: a paragraph with text whose style name starts with [Heading] is
    always written as a heading line, of a level between 1 and 9. *)
Theorem heading_level_between_1_and_9 `{Unicode} (para : Paragraph) :
  strip (para_text para) <> [] ->
  startswith (lit "Heading") (style_name para) = true ->
  exists level, 1 <= level <= 9 /\
    emit_paragraph para = [heading_line level (strip (para_text para))].
Proof.
  intros Htext Hstyle.
  unfold emit_paragraph.
  destruct (strip (para_text para)) as [|c t] eqn:E; [congruence|].
  rewrite Hstyle.
  destruct (int_of_last (style_name para)) as [d|] eqn:Ed.
  - assert (Hd : 0 <= d <= 9).
    { unfold int_of_last in Ed. destruct (rev (style_name para)); [discriminate|].
      exact (decimal_value_range _ _ Ed). }
    assert (Hl : heading_level (style_name para) = d)
      by (unfold heading_level; rewrite Ed; reflexivity).
    rewrite Hl. destruct (d >? 0) eqn:Epos.
    + exists d. split; [|reflexivity].
      rewrite Z.gtb_ltb in Epos. apply Z.ltb_lt in Epos. lia.
    + exists 2. split; [lia | reflexivity].
  - rewrite (heading_level_unparsable _ Hstyle Ed).
    exists 1. split; [lia | reflexivity].
Qed.

Lemma heading_level_between_1_and_9_witness :
  exists level, 1 <= level <= 9 /\
    emit_paragraph (styled_para (lit "Heading 7") (lit "Annex"))
    = [heading_line level (lit "Annex")].
Proof.
  apply (heading_level_between_1_and_9
           (styled_para (lit "Heading 7") (lit "Annex"))).
  - vm_compute; discriminate.
  - reflexivity.
Defined.

(** Induction two characters at a time. *)
Lemma str_ind2 (P : str -> Prop) :
  P [] -> (forall c, P [c]) -> (forall c d t, P t -> P (c :: d :: t)) ->
  forall s, P s.
Proof.
  intros H0 H1 H2 s.
  assert (H : P s /\ forall c, P (c :: s)).
  { induction s as [|d t [IH1 IH2]].
    - split; [exact H0 | exact H1].
    - split; [apply IH2 | intros c; apply H2; exact IH1]. }
  exact (proj1 H).
Qed.

Lemma count_markers_marker (t : str) :
  count_markers (BACKSLASH :: 110%N :: t) = S (count_markers t).
Proof. reflexivity. Qed.

Lemma count_markers_not_marker (c d : char) (t : str) :
  (N.eqb c 92 && N.eqb d 110)%N = false -> count_markers (c :: d :: t) = O.
Proof. intros H. cbn [count_markers]. rewrite H. reflexivity. Qed.

Lemma is_marker_eq (c d : char) :
  (N.eqb c 92 && N.eqb d 110)%N = true -> c = BACKSLASH /\ d = 110%N.
Proof.
  intros H. apply andb_true_iff in H. destruct H as [H1 H2].
  apply N.eqb_eq in H1, H2. split; assumption.
Qed.

(** The substitution starts its result with the first character of the
    text or with a newline. *)
Lemma collapse_head (p : option char) (d : char) (t : str) :
  exists r, re_sub_from collapse_match O p (d :: t) = d :: r \/
            re_sub_from collapse_match O p (d :: t) = NL :: r.
Proof.
  rewrite re_sub_from_cons.
  destruct (le_lt_dec 3 (count_markers (d :: t))) as [Hlong | Hshort].
  - assert (Hm : collapse_match p (d :: t)
                 = Some ([NL; NL], (2 * count_markers (d :: t))%nat)).
    { unfold collapse_match.
      destruct (3 <=? count_markers (d :: t))%nat eqn:E;
        [reflexivity | apply Nat.leb_gt in E; lia]. }
    rewrite Hm. eexists; right; reflexivity.
  - assert (Hm : collapse_match p (d :: t) = None).
    { unfold collapse_match.
      destruct (3 <=? count_markers (d :: t))%nat eqn:E;
        [apply Nat.leb_le in E; lia | reflexivity]. }
    rewrite Hm. eexists; left; reflexivity.
Qed.

Lemma collapse_no_match (p : option char) (s : str) :
  (count_markers s < 3)%nat -> collapse_match p s = None.
Proof.
  intros H. unfold collapse_match.
  destruct (3 <=? count_markers s)%nat eqn:E;
    [apply Nat.leb_le in E; lia | reflexivity].
Qed.

(** Where the text starts with fewer than three markers, so does the
    result, with no more of them. *)
Lemma collapse_count_le (p : option char) (s : str) :
  (count_markers s < 3)%nat ->
  (count_markers (re_sub_from collapse_match O p s) <= count_markers s)%nat.
Proof.
  revert p. induction s as [|c|c d t IH] using str_ind2; intros p Hs.
  - simpl. lia.
  - rewrite re_sub_from_cons, (collapse_no_match p [c]) by exact Hs.
    simpl. lia.
  - rewrite re_sub_from_cons, (collapse_no_match p (c :: d :: t)) by exact Hs.
    destruct (N.eqb c 92 && N.eqb d 110)%N eqn:Em.
    + destruct (is_marker_eq c d Em) as [-> ->].
      rewrite count_markers_marker in *.
      rewrite collapse_copy by (apply count_markers_other; discriminate).
      rewrite count_markers_marker.
      specialize (IH (Some BACKSLASH) ltac:(lia)). lia.
    + rewrite (count_markers_not_marker c d t Em).
      destruct (collapse_head (Some c) d t) as [r [Hr | Hr]]; rewrite Hr.
      * rewrite (count_markers_not_marker c d r Em). lia.
      * rewrite (count_markers_not_marker c NL r); [lia|].
        apply andb_false_r.
Qed.

Lemma no_long_run_cons (c : char) (s : str) :
  (count_markers (c :: s) < 3)%nat -> no_long_run s -> no_long_run (c :: s).
Proof.
  intros Hc Hs a b Heq. destruct a as [|x a].
  - simpl in Heq. subst b. exact Hc.
  - injection Heq as _ Heq. exact (Hs a b Heq).
Qed.

(** After the post-processing no three markers stand in a row. *)
Lemma collapse_no_long_run (s : str) (n : nat) (p : option char) :
  no_long_run (re_sub_from collapse_match n p s).
Proof.
  revert n p; induction s as [|c t IH]; intros n p.
  - intros a b Heq. simpl in Heq. symmetry in Heq.
    apply app_eq_nil in Heq. destruct Heq as [_ ->]. simpl. lia.
  - destruct n as [|n]; [|simpl; apply IH].
    destruct (le_lt_dec 3 (count_markers (c :: t))) as [Hlong | Hshort].
    + rewrite re_sub_from_cons. unfold collapse_match at 1.
      destruct (3 <=? count_markers (c :: t))%nat eqn:E;
        [|apply Nat.leb_gt in E; lia].
      change ([NL; NL] ++ ?x) with (NL :: NL :: x).
      apply no_long_run_cons;
        [rewrite count_markers_other by discriminate; lia|].
      apply no_long_run_cons;
        [rewrite count_markers_other by discriminate; lia|].
      apply IH.
    + pose proof (collapse_count_le p (c :: t) Hshort) as Hle.
      rewrite re_sub_from_cons, (collapse_no_match p _ Hshort) in *.
      apply no_long_run_cons; [lia | apply IH].
Qed.

Lemma count_markers_app_le (b y : str) :
  (count_markers b <= count_markers (b ++ y))%nat.
Proof.
  induction b as [|c|c d t IH] using str_ind2.
  - simpl. lia.
  - simpl. lia.
  - simpl app. cbn [count_markers].
    destruct (N.eqb c 92 && N.eqb d 110)%N; lia.
Qed.

Lemma no_long_run_strip (s : str) : no_long_run s -> no_long_run (strip s).
Proof.
  intros Hs a b Heq.
  destruct (strip_decompose s) as (x & y & Hxy).
  rewrite Heq in Hxy.
  assert (H : s = (x ++ a) ++ (b ++ y))
    by (rewrite Hxy, <- !app_assoc; reflexivity).
  specialize (Hs _ _ H).
  pose proof (count_markers_app_le b y). lia.
Qed.

(** X6: the post-processing reaches its goal: neither the Markdown
    written to the side file nor the Markdown returned holds three
    line-break markers in a row. *)
Theorem convert_docx_to_md_no_long_run `{Unicode} (E : Env)
    (docx_path output_path : str) (w : World) (body : Document) :
  docx_Document E docx_path = Ok body ->
  no_long_run (docx_final_md body) /\
  exists md, fst (convert_docx_to_md E docx_path output_path w) = Ok md /\
             no_long_run md.
Proof.
  intros Hdoc.
  assert (Hf : no_long_run (docx_final_md body))
    by (unfold docx_final_md, re_sub; apply collapse_no_long_run).
  split; [exact Hf|].
  exists (strip (docx_final_md body)). split.
  - exact (convert_docx_to_md_returns E docx_path output_path w _ Hdoc).
  - apply no_long_run_strip, Hf.
Qed.

Lemma convert_docx_to_md_no_long_run_witness :
  exists md,
    fst (convert_docx_to_md (env_docx spaced_paragraphs) (lit "in.docx")
           (lit "out.md") empty_world) = Ok md /\
    no_long_run md.
Proof.
  exact (proj2 (convert_docx_to_md_no_long_run (env_docx spaced_paragraphs)
                  (lit "in.docx") (lit "out.md") empty_world
                  spaced_paragraphs eq_refl)).
Defined.

(* ===================================================================== *)
(** * The rows of a table in the Markdown returned                        *)
(* ===================================================================== *)

(** ** Runs of markers and the places where none can pass *)

Lemma count_markers_length (s : str) : (2 * count_markers s <= length s)%nat.
Proof.
  induction s as [|c|c d t IH] using str_ind2; [simpl; lia | simpl; lia |].
  cbn [count_markers length].
  destruct (N.eqb c 92 && N.eqb d 110)%N; lia.
Qed.

(** A character that is neither a backslash nor the letter n ends every
    run of markers before it. *)
Lemma count_markers_before (c : char) (b : str) :
  c <> BACKSLASH -> c <> 110%N ->
  forall s : str, count_markers (s ++ c :: b) = count_markers s.
Proof.
  intros Hc Hn s. induction s as [|x|x y t IH] using str_ind2.
  - simpl app. rewrite count_markers_other by exact Hc. reflexivity.
  - simpl app. rewrite count_markers_not_marker; [reflexivity|].
    apply andb_false_iff; right. apply N.eqb_neq. exact Hn.
  - change ((x :: y :: t) ++ c :: b) with (x :: y :: (t ++ c :: b)).
    cbn [count_markers].
    destruct (N.eqb x 92 && N.eqb y 110)%N; [f_equal; exact IH | reflexivity].
Qed.

Lemma collapse_split_from (c : char) (b : str) :
  c <> BACKSLASH -> c <> 110%N ->
  forall (a : str) (n : nat) (p : option char),
  (n <= length a)%nat ->
  re_sub_from collapse_match n p (a ++ c :: b)
  = re_sub_from collapse_match n p a ++ c :: re_sub collapse_match b.
Proof.
  intros Hc Hn. induction a as [|x a IH]; intros n p Hle.
  - simpl in Hle. assert (n = O) by lia. subst n. simpl app.
    rewrite collapse_copy by (apply count_markers_other; exact Hc).
    rewrite (collapse_prev O p None b). reflexivity.
  - destruct n as [|n].
    + change ((x :: a) ++ c :: b) with (x :: (a ++ c :: b)).
      rewrite !re_sub_from_cons. unfold collapse_match.
      change (x :: (a ++ c :: b)) with ((x :: a) ++ c :: b).
      rewrite (count_markers_before c b Hc Hn (x :: a)).
      pose proof (count_markers_length (x :: a)) as Hlen.
      cbn [length] in Hlen.
      destruct (3 <=? count_markers (x :: a))%nat eqn:E.
      * apply Nat.leb_le in E. rewrite IH by lia.
        rewrite <- app_assoc. reflexivity.
      * rewrite IH by lia. reflexivity.
    + simpl. apply IH. simpl in Hle. lia.
Qed.

(** The post-processing works on the two sides of such a character
    apart. *)
Lemma collapse_split (a b : str) (c : char) :
  c <> BACKSLASH -> c <> 110%N ->
  re_sub collapse_match (a ++ c :: b)
  = re_sub collapse_match a ++ c :: re_sub collapse_match b.
Proof.
  intros Hc Hn. unfold re_sub at 1 2.
  apply collapse_split_from; [exact Hc | exact Hn | lia].
Qed.

Lemma collapse_keep (a s : str) :
  backslash_free a ->
  re_sub collapse_match (a ++ s) = a ++ re_sub collapse_match s.
Proof. apply collapse_free. Qed.

Lemma collapse_keep_char (c : char) (s : str) :
  c <> BACKSLASH ->
  re_sub collapse_match (c :: s) = c :: re_sub collapse_match s.
Proof.
  intros Hc. apply (collapse_keep [c] s). repeat constructor. exact Hc.
Qed.

Lemma collapse_marker (s : str) :
  count_markers s = O ->
  re_sub collapse_match (BSN ++ s) = BSN ++ re_sub collapse_match s.
Proof. intros Hs. exact (collapse_short_run None 1 s ltac:(lia) Hs). Qed.

(** ** One row, then all rows *)

Lemma collapse_cells (cells : list str) (tail : str) :
  re_sub collapse_match (join (lit " | ") cells ++ SPACE :: PIPE :: tail)
  = join (lit " | ") (List.map (re_sub collapse_match) cells)
    ++ SPACE :: PIPE :: re_sub collapse_match tail.
Proof.
  induction cells as [|x cells IH].
  - simpl join. simpl app.
    exact (collapse_keep [SPACE; PIPE] tail
             ltac:(repeat constructor; discriminate)).
  - destruct cells as [|y cells].
    + simpl join. rewrite collapse_split by discriminate.
      rewrite collapse_keep_char by discriminate. reflexivity.
    + change (join (lit " | ") (x :: y :: cells))
        with (x ++ lit " | " ++ join (lit " | ") (y :: cells)).
      change (List.map (re_sub collapse_match) (x :: y :: cells))
        with (re_sub collapse_match x
              :: List.map (re_sub collapse_match) (y :: cells)).
      change (join (lit " | ")
                (re_sub collapse_match x
                 :: List.map (re_sub collapse_match) (y :: cells)))
        with (re_sub collapse_match x ++ lit " | "
              ++ join (lit " | ")
                   (List.map (re_sub collapse_match) (y :: cells))).
      rewrite <- !app_assoc.
      change (lit " | " ++ ?u) with (SPACE :: PIPE :: SPACE :: u).
      rewrite collapse_split by discriminate.
      rewrite !collapse_keep_char by discriminate.
      rewrite IH. reflexivity.
Qed.

Lemma collapse_row (cells : list str) (tail : str) :
  re_sub collapse_match (row_body cells ++ tail)
  = row_body (List.map (re_sub collapse_match) cells)
    ++ re_sub collapse_match tail.
Proof.
  unfold row_body. rewrite <- !app_assoc.
  change (lit "| " ++ ?u) with (PIPE :: SPACE :: u).
  rewrite !collapse_keep_char by discriminate.
  change (lit " |" ++ ?u) with (SPACE :: PIPE :: u).
  rewrite collapse_cells. reflexivity.
Qed.

Lemma row_body_head (cells : list str) :
  exists t, row_body cells = PIPE :: t.
Proof. unfold row_body. eexists; reflexivity. Qed.

Lemma row_body_last (cells : list str) :
  exists u, row_body cells = u ++ [PIPE].
Proof.
  unfold row_body. exists (lit "| " ++ join (lit " | ") cells ++ [SPACE]).
  rewrite <- !app_assoc. reflexivity.
Qed.

Lemma pipe_row_body (cells : list str) : pipe_row cells = row_body cells ++ BSN.
Proof. apply pipe_row_marker. Qed.

(** The rows written one after the other, each closed by its marker: the
    post-processing reaches into the cells only, and the marker of the
    last row is read with what follows. *)
Lemma collapse_rows (rows : list (list str)) :
  forall (r : list str) (tail : str),
  re_sub collapse_match (concat (List.map pipe_row (r :: rows)) ++ tail)
  = join BSN (List.map (fun cells =>
                          row_body (List.map (re_sub collapse_match) cells))
                (r :: rows))
    ++ re_sub collapse_match (BSN ++ tail).
Proof.
  induction rows as [|r' rows IH]; intros r tail.
  - cbn [List.map concat join]. rewrite app_nil_r, pipe_row_body.
    rewrite <- app_assoc. apply collapse_row.
  - change (concat (List.map pipe_row (r :: r' :: rows)))
      with (pipe_row r ++ concat (List.map pipe_row (r' :: rows))).
    rewrite pipe_row_body, <- !app_assoc, collapse_row.
    rewrite collapse_marker.
    + rewrite IH. cbn [List.map join]. rewrite <- !app_assoc. reflexivity.
    + cbn [List.map concat]. rewrite pipe_row_body.
      destruct (row_body_head r') as [t ->].
      apply count_markers_other. discriminate.
Qed.

Lemma map_const_repeat {A B} (x : B) (l : list A) :
  List.map (fun _ => x) l = repeat x (length l).
Proof. induction l; simpl; [reflexivity | f_equal; assumption]. Qed.

Lemma map_repeat_same {A B} (f : A -> B) (x : A) (n : nat) :
  List.map f (repeat x n) = repeat (f x) n.
Proof. induction n; simpl; [reflexivity | f_equal; assumption]. Qed.

(** What a table with a header row appends, as rows. *)
Lemma table_rows `{Unicode} (header : list str) (rest : list (list str)) :
  concat (emit_table (header :: rest))
  = concat (List.map pipe_row
              (List.map strip header :: repeat (lit "---") (length header)
               :: List.map (List.map strip) rest)) ++ BSN.
Proof.
  unfold emit_table. rewrite map_const_repeat.
  cbn [List.map concat app]. rewrite map_map, !concat_app. cbn [concat].
  rewrite app_nil_r, <- !app_assoc. reflexivity.
Qed.

(** ** Trimming around a text that starts and ends with a pipe *)

Lemma lstrip_app_nonspace (a : str) (c : char) (t : str) :
  isspace c = false -> lstrip (a ++ c :: t) = lstrip a ++ c :: t.
Proof.
  intros Hc. induction a as [|x a IH]; simpl.
  - rewrite Hc. reflexivity.
  - destruct (isspace x); [exact IH | reflexivity].
Qed.

Lemma rstrip_app_nonspace (t : str) (d : char) (b : str) :
  isspace d = false -> rstrip (t ++ d :: b) = t ++ d :: rstrip b.
Proof.
  intros Hd. unfold rstrip. rewrite rev_app_distr. simpl rev.
  rewrite <- app_assoc. simpl app.
  rewrite lstrip_app_nonspace by exact Hd.
  rewrite rev_app_distr. simpl rev. rewrite rev_involutive.
  rewrite <- app_assoc. reflexivity.
Qed.

Lemma strip_around (a m b : str) (c d : char) (t u : str) :
  m = c :: t -> m = u ++ [d] -> isspace c = false -> isspace d = false ->
  strip (a ++ m ++ b) = lstrip a ++ m ++ rstrip b.
Proof.
  intros Hhead Hlast Hc Hd. unfold strip.
  rewrite Hhead at 1. simpl app.
  rewrite lstrip_app_nonspace by exact Hc.
  change (c :: t ++ b) with ((c :: t) ++ b). rewrite <- Hhead.
  rewrite Hlast. rewrite <- !app_assoc. simpl app.
  rewrite app_assoc. rewrite rstrip_app_nonspace by exact Hd.
  rewrite <- app_assoc. reflexivity.
Qed.

Lemma join_last (sep : str) (d : char) (lines : list str) :
  lines <> [] ->
  Forall (fun l => exists u, l = u ++ [d]) lines ->
  exists u, join sep lines = u ++ [d].
Proof.
  intros Hne Hall. revert Hne.
  induction Hall as [|l rest [u Hu] Hrest IH]; intros Hne;
    [exfalso; apply Hne; reflexivity|].
  destruct rest as [|l' rest]; [exists u; exact Hu|].
  destruct (IH ltac:(discriminate)) as [v Hv].
  change (join sep (l :: l' :: rest)) with (l ++ sep ++ join sep (l' :: rest)).
  rewrite Hv. exists (l ++ sep ++ v). rewrite <- !app_assoc. reflexivity.
Qed.

Lemma lstrip_app_cases (a b : str) :
  lstrip (a ++ b) = lstrip a ++ b \/ lstrip (a ++ b) = lstrip b.
Proof.
  induction a as [|x a IH]; simpl; [right; reflexivity|].
  destruct (isspace x); [exact IH | left; reflexivity].
Qed.

Lemma rstrip_app_cases (a b : str) :
  rstrip (a ++ b) = a ++ rstrip b \/ rstrip (a ++ b) = rstrip a.
Proof.
  unfold rstrip. rewrite rev_app_distr.
  destruct (lstrip_app_cases (rev b) (rev a)) as [-> | ->].
  - left. rewrite rev_app_distr, rev_involutive. reflexivity.
  - right. reflexivity.
Qed.

(** ** Where the text before a table ends and the text after it starts *)

Lemma markers_succ (k : nat) (s : str) :
  markers (S k) ++ s = BACKSLASH :: 110%N :: markers k ++ s.
Proof. reflexivity. Qed.

(** A text is its leading run of markers and a rest that starts with
    none. *)
Lemma markers_decompose (s : str) :
  exists rest, s = markers (count_markers s) ++ rest /\ count_markers rest = O.
Proof.
  induction s as [|c|c d t (rest & IH & Hrest)] using str_ind2.
  - exists []; split; reflexivity.
  - exists [c]; split; reflexivity.
  - destruct (N.eqb c 92 && N.eqb d 110)%N eqn:Em.
    + destruct (is_marker_eq c d Em) as [-> ->].
      exists rest. rewrite count_markers_marker, markers_succ.
      split; [do 2 f_equal; exact IH | exact Hrest].
    + exists (c :: d :: t). rewrite (count_markers_not_marker c d t Em).
      split; reflexivity.
Qed.

Lemma ends_with_marker_tail (c : char) (s : str) :
  (exists t, c :: s = t ++ BSN) ->
  (c = BACKSLASH /\ s = [110%N]) \/ exists t, s = t ++ BSN.
Proof.
  intros [[|x t] Ht].
  - injection Ht as -> ->. left; split; reflexivity.
  - injection Ht as _ ->. right; exists t; reflexivity.
Qed.

Lemma ends_with_marker_after_run (k : nat) (s : str) :
  (exists t, markers k ++ s = t ++ BSN) ->
  s = [] \/ exists t, s = t ++ BSN.
Proof.
  induction k as [|k IH]; intros Hend; [right; exact Hend|].
  rewrite markers_succ in Hend.
  destruct (ends_with_marker_tail _ _ Hend) as [[_ Hone] | Hend1].
  - injection Hone as Hnil. apply app_eq_nil in Hnil.
    left; exact (proj2 Hnil).
  - destruct (ends_with_marker_tail _ _ Hend1) as [[Hn _] | Hend2];
      [discriminate | exact (IH Hend2)].
Qed.

(** A text that ends with a marker is post-processed into one that ends
    with a marker or with the two newline characters written for a run. *)
Lemma collapse_end (n : nat) :
  forall (s : str) (p : option char),
  (length s <= n)%nat -> (exists t, s = t ++ BSN) ->
  exists r, re_sub_from collapse_match O p s = r ++ BSN \/
            re_sub_from collapse_match O p s = r ++ [NL; NL].
Proof.
  induction n as [|n IH]; intros s p Hlen Hend.
  - destruct Hend as [t ->]. rewrite length_app in Hlen. simpl in Hlen. lia.
  - destruct s as [|c s1];
      [destruct Hend as [[|x t] Ht]; discriminate|].
    destruct (le_lt_dec 3 (count_markers (c :: s1))) as [Hlong | Hshort].
    + destruct (markers_decompose (c :: s1)) as (rest & Hs & Hrest).
      remember (count_markers (c :: s1)) as k eqn:Hk.
      rewrite Hs in Hend, Hlen. rewrite Hs.
      rewrite length_app, length_markers in Hlen.
      rewrite (collapse_long_run p k rest Hlong Hrest).
      destruct (ends_with_marker_after_run _ _ Hend) as [-> | Hend'].
      * exists []. right. reflexivity.
      * destruct (IH rest p ltac:(lia) Hend')
          as [r [Hr | Hr]]; rewrite Hr;
          exists (NL :: NL :: r); [left | right]; reflexivity.
    + rewrite re_sub_from_cons, (collapse_no_match p _ Hshort).
      destruct (ends_with_marker_tail _ _ Hend) as [[-> ->] | Hend'].
      * exists []. left. reflexivity.
      * destruct (IH s1 (Some c) ltac:(simpl in Hlen; lia) Hend')
          as [r [Hr | Hr]]; rewrite Hr;
          exists (c :: r); [left | right]; reflexivity.
Qed.

Lemma concat_ends_with_marker (pieces : list str) :
  (forall piece, In piece pieces -> exists content, piece = content ++ BSN) ->
  concat pieces = [] \/ exists t, concat pieces = t ++ BSN.
Proof.
  induction pieces as [|x pieces IH]; intros Hall; [left; reflexivity|].
  right. destruct (Hall x (or_introl eq_refl)) as [content Hx].
  destruct (IH (fun piece Hin => Hall piece (or_intror Hin))) as [Hnil | [t Ht]];
    simpl.
  - rewrite Hnil, app_nil_r. exists content; exact Hx.
  - rewrite Ht. exists (x ++ t). rewrite <- app_assoc. reflexivity.
Qed.

(** The text before a table is empty or ends with a line break: a marker,
    or the two newline characters written for a run of markers. *)
Lemma text_before_end `{Unicode} (pre : list Block) :
  text_before pre = [] \/
  exists t, text_before pre = t ++ BSN \/ text_before pre = t ++ [NL; NL].
Proof.
  unfold text_before.
  destruct (concat_ends_with_marker (md_content_of pre)
              (proj1 (docx_pieces pre))) as [-> | Hend]; [left; reflexivity|].
  unfold re_sub.
  destruct (collapse_end _ _ None (le_n _) Hend) as [r [-> | ->]].
  - right. exists (lstrip r). left.
    change (r ++ BSN) with (r ++ BACKSLASH :: [110%N]).
    apply lstrip_app_nonspace. reflexivity.
  - destruct (lstrip_app_cases r [NL; NL]) as [-> | ->].
    + right. exists (lstrip r). right. reflexivity.
    + left. reflexivity.
Qed.

(** The text after the last row is empty or starts with the line break
    that closes the table: two markers, or the two newline characters
    written where an empty paragraph follows the table. *)
Lemma text_after_start `{Unicode} (post : list Block) :
  text_after post = [] \/
  exists t, text_after post = BSN ++ BSN ++ t \/
            text_after post = NL :: NL :: t.
Proof.
  unfold text_after.
  destruct (markers_decompose (concat (md_content_of post)))
    as (rest & Hq & Hrest).
  rewrite Hq. remember (count_markers (concat (md_content_of post))) as k.
  clear Heqk Hq.
  change (BSN ++ BSN ++ markers k ++ rest) with (markers (S (S k)) ++ rest).
  unfold re_sub. destruct k as [|k].
  - rewrite (collapse_short_run None 2 rest ltac:(lia) Hrest).
    right. exists (rstrip (re_sub_from collapse_match O None rest)). left.
    change (markers 2 ++ ?x) with ([BACKSLASH; 110%N; BACKSLASH] ++ 110%N :: x).
    rewrite rstrip_app_nonspace by reflexivity. reflexivity.
  - rewrite (collapse_long_run None (S (S (S k))) rest ltac:(lia) Hrest).
    destruct (rstrip_app_cases [NL; NL]
                (re_sub_from collapse_match O None rest)) as [-> | ->].
    + right. eexists. right. reflexivity.
    + left. reflexivity.
Qed.

(** A text without three markers in a row is left as it is. *)
Lemma collapse_id (s : str) :
  no_long_run s -> forall p, re_sub_from collapse_match O p s = s.
Proof.
  induction s as [|c t IH]; intros Hs p; [reflexivity|].
  rewrite re_sub_from_cons, (collapse_no_match p (c :: t) (Hs [] _ eq_refl)).
  f_equal. apply IH. intros a b Heq. apply (Hs (c :: a) b).
  rewrite Heq. reflexivity.
Qed.

Lemma collapse_split_at (a b : str) (c : char) (t : str) :
  b = c :: t -> c <> BACKSLASH -> c <> 110%N ->
  re_sub collapse_match (a ++ b)
  = re_sub collapse_match a ++ re_sub collapse_match b.
Proof.
  intros -> Hc Hn. rewrite collapse_split by assumption.
  rewrite collapse_keep_char by exact Hc. reflexivity.
Qed.

(** ** The claim *)

(** C2 (amended): for a document with a table of [N >= 1] rows of [K]
    cells each, the Markdown returned is the text that stands for the
    blocks before the table, then [N + 1] lines with one marker between
    two of them, then the text that stands for the blocks after the table.
    The lines are the header row, one separator row of [K] cells [---] and
    the other [N - 1] rows in order; each is a pipe and a space, its [K]
    cells with space, pipe, space between two of them, and a space and a
    pipe.  A cell holds the trimmed cell text, changed only where it has
    three markers in a row.  The text before is empty or ends with a line
    break, and the text after is empty or starts with one. *)
Theorem docx_table_rows `{Unicode} (E : Env) (docx_path output_path : str)
    (w : World) (pre post : list Block) (header : list str)
    (rest : list (list str)) (K : nat) :
  docx_Document E docx_path = Ok (pre ++ CT_Tbl (header :: rest) :: post) ->
  Forall (fun row => length row = K) (header :: rest) ->
  fst (convert_docx_to_md E docx_path output_path w)
  = Ok (text_before pre
        ++ join BSN
             (row_body (List.map cell_text header)
              :: row_body (repeat (lit "---") K)
              :: List.map (fun row => row_body (List.map cell_text row)) rest)
        ++ text_after post) /\
  Forall (fun cells => length cells = K)
    (List.map cell_text header :: repeat (lit "---") K
     :: List.map (List.map cell_text) rest) /\
  (forall c, no_long_run (strip c) -> cell_text c = strip c) /\
  (text_before pre = [] \/
   exists t, text_before pre = t ++ BSN \/ text_before pre = t ++ [NL; NL]) /\
  (text_after post = [] \/
   exists t, text_after post = BSN ++ BSN ++ t \/
             text_after post = NL :: NL :: t).
Proof.
  intros Hdoc Hlen.
  inversion Hlen as [|? ? Hlh Hlrest]; subst.
  split; [|split; [|split; [|split]]].
  - rewrite (convert_docx_to_md_returns E docx_path output_path w _ Hdoc).
    f_equal. unfold docx_final_md, md_content_of.
    rewrite flat_map_app. cbn [flat_map emit_block].
    fold (md_content_of pre). fold (md_content_of post).
    rewrite !concat_app, table_rows, <- !app_assoc.
    set (P := concat (md_content_of pre)).
    set (Q := concat (md_content_of post)).
    set (rows := repeat (lit "---") (length header)
                 :: List.map (List.map strip) rest).
    assert (Hhead : exists t,
              concat (List.map pipe_row (List.map strip header :: rows))
              ++ BSN ++ Q = PIPE :: t).
    { cbn [List.map concat]. rewrite pipe_row_body.
      destruct (row_body_head (List.map strip header)) as [t ->].
      eexists. reflexivity. }
    destruct Hhead as [t Hhead].
    rewrite (collapse_split_at P _ PIPE t Hhead) by discriminate.
    rewrite collapse_rows.
    unfold rows. cbn [List.map].
    rewrite !map_map, map_repeat_same.
    change (re_sub collapse_match (lit "---")) with (lit "---").
    set (lines := row_body (List.map cell_text header)
                  :: row_body (repeat (lit "---") (length header))
                  :: List.map (fun row => row_body (List.map cell_text row))
                       rest).
    change (join BSN
              (row_body (List.map (fun x => re_sub collapse_match (strip x))
                           header)
               :: row_body (repeat (lit "---") (length header))
               :: List.map
                    (fun x => row_body
                                (List.map (re_sub collapse_match)
                                   (List.map strip x))) rest))
      with (join BSN
              (row_body (List.map cell_text header)
               :: row_body (repeat (lit "---") (length header))
               :: List.map
                    (fun x => row_body
                                (List.map (re_sub collapse_match)
                                   (List.map strip x))) rest)).
    assert (Hrest : List.map
                      (fun x => row_body
                                  (List.map (re_sub collapse_match)
                                     (List.map strip x))) rest
                    = List.map (fun row => row_body (List.map cell_text row))
                        rest).
    { apply map_ext. intros row. rewrite map_map. reflexivity. }
    rewrite Hrest. fold lines.
    assert (Hfirst : exists t', join BSN lines = PIPE :: t').
    { unfold lines.
      destruct (row_body_head (List.map cell_text header)) as [t' Ht'].
      cbn [join]. rewrite Ht'. eexists. reflexivity. }
    assert (Hlast : exists u, join BSN lines = u ++ [PIPE]).
    { apply join_last; [discriminate|]. unfold lines.
      constructor; [apply row_body_last|].
      constructor; [apply row_body_last|].
      apply Forall_map, Forall_forall. intros row _. apply row_body_last. }
    destruct Hfirst as [t' Hfirst]. destruct Hlast as [u Hlast].
    apply (strip_around _ _ _ PIPE PIPE t' u Hfirst Hlast);
      reflexivity.
  - constructor; [apply length_map|].
    constructor; [apply repeat_length|].
    apply Forall_map. eapply Forall_impl; [|exact Hlrest].
    intros row Hrow. rewrite length_map. exact Hrow.
  - intros c Hc. unfold cell_text, re_sub. apply collapse_id. exact Hc.
  - apply text_before_end.
  - apply text_after_start.
Qed.

Lemma docx_table_rows_witness :
  fst (convert_docx_to_md (env_docx priced_offer) (lit "in.docx")
         (lit "out.md") empty_world)
  = Ok (lit "Offer\n\n"
        ++ lit "| Item | Price |\n| --- | --- |\n| Bolt | 5 |"
        ++ [NL; NL] ++ lit "Thanks\n\n").
Proof.
  destruct (docx_table_rows (env_docx priced_offer) (lit "in.docx")
              (lit "out.md") empty_world
              [CT_P (styled_para (lit "Normal") (lit "Offer"))]
              [CT_P {| para_text := []; style_name := lit "Normal";
                       runs := [] |};
               CT_P (styled_para (lit "Normal") (lit "Thanks"));
               CT_Other]
              [lit "Item"; lit " Price "] [[lit "Bolt"; lit "5"]] 2)
    as (Hmd & _).
  - reflexivity.
  - repeat constructor.
  - rewrite Hmd. reflexivity.
Defined.

(** C2 as stated fails for a table without rows: the table is skipped, and
    the returned Markdown is empty, so it holds no separator row, whatever
    the number of columns. *)
Lemma docx_empty_table_counterexample :
  fst (convert_docx_to_md (env_docx empty_table_document) (lit "in.docx")
         (lit "out.md") empty_world) = Ok [] /\
  forall (K : nat) (before after : str),
    before ++ row_body (repeat (lit "---") K) ++ after <> [].
Proof.
  split; [reflexivity|]. intros K before after Heq.
  apply app_eq_nil in Heq. destruct Heq as [_ Heq].
  apply app_eq_nil in Heq. destruct Heq as [Heq _].
  destruct (row_body_head (repeat (lit "---") K)) as [t Ht].
  rewrite Ht in Heq. discriminate.
Qed.
(* ===================================================================== *)
(** * Further properties of PDF to Markdown                               *)
(* ===================================================================== *)

Lemma images_loop_fails (E : Env) (doc : PdfDoc) (pdf_path : str)
    (page_num : Z) (xref : N) (more : list N) (msg : str) :
  (forall path, open_w E path = Ok tt) ->
  extract_image doc xref = Raise msg ->
  forall (imgs : list (N * str)) (img_index : Z) (md_content : list str)
         (w : World),
  Forall (fun xi => exists image_bytes,
            extract_image doc (fst xi) = Ok image_bytes /\
            Image_open E image_bytes = Ok (snd xi)) imgs ->
  images_loop E doc pdf_path page_num img_index
    (List.map fst imgs ++ xref :: more) md_content w
  = (Raise msg,
     add_files w
       (List.map (fun ix => (os_path_join (os_path_dirname pdf_path)
                               (image_name (page_num + 1) (fst ix)),
                             ImageFile (snd (snd ix))))
          (enumerate_from (img_index + 1) imgs))).
Proof.
  intros Hw Hbad. induction imgs as [|[x img] imgs IH];
    intros img_index md_content w Himgs.
  - cbn [List.map app images_loop]. unfold bind at 1, call at 1.
    rewrite Hbad. rewrite add_files_nil. reflexivity.
  - inversion Himgs as [|? ? (image_bytes & Hx & Hi) Hrest]; subst.
    simpl in Hx, Hi.
    cbn [List.map fst app images_loop]. unfold bind at 1, call at 1. rewrite Hx.
    unfold bind at 1, call at 1. rewrite Hi.
    unfold bind at 1, call at 1. rewrite Hw.
    unfold bind at 1, store at 1.
    rewrite (IH (img_index + 1) _ _ Hrest).
    cbn [enumerate_from List.map fst snd].
    f_equal. unfold add_files; simpl. rewrite <- app_assoc. reflexivity.
Qed.

Lemma pages_loop_fails (E : Env) (doc : PdfDoc) (pdf_path : str)
    (bad : Page) (rest : list Page) (text : str) (imgs : list (N * str))
    (xref : N) (more : list N) (msg : str) :
  (forall path, open_w E path = Ok tt) ->
  get_text bad = Ok text ->
  get_images bad = Ok (List.map fst imgs ++ xref :: more) ->
  Forall (fun xi => exists image_bytes,
            extract_image doc (fst xi) = Ok image_bytes /\
            Image_open E image_bytes = Ok (snd xi)) imgs ->
  extract_image doc xref = Raise msg ->
  forall (good : list Page) (contents : list PageContent) (page_num : Z)
         (md_content : list str) (w : World),
  Forall2 (page_reads E doc) good contents ->
  pages_loop E doc pdf_path page_num (good ++ bad :: rest) md_content w
  = (Raise msg,
     add_files w
       (flat_map (fun nc => page_files pdf_path (fst nc) (snd nc))
          (enumerate_from (page_num + 1)
             (contents ++ [{| pc_text := text; pc_images := imgs |}])))).
Proof.
  intros Hw Ht Hi Himgs Hbad good contents page_num md_content w Hall.
  revert page_num md_content w.
  induction Hall as [|page c good contents (Hpt & Hpi & Hpimgs) Hrest IH];
    intros page_num md_content w.
  - cbn [app pages_loop]. unfold bind at 1, call at 1. rewrite Ht.
    unfold bind at 1, call at 1. rewrite Hi.
    unfold bind at 1.
    rewrite (images_loop_fails E doc pdf_path page_num xref more msg Hw Hbad
               imgs 0 _ w Himgs).
    cbn [enumerate_from flat_map]. unfold page_files at 1. cbn [fst snd pc_images].
    rewrite app_nil_r. reflexivity.
  - cbn [app pages_loop]. unfold bind at 1, call at 1. rewrite Hpt.
    unfold bind at 1, call at 1. rewrite Hpi.
    unfold bind at 1.
    rewrite (images_loop_reads E doc pdf_path page_num Hw _ 0 _ w Hpimgs).
    rewrite IH.
    cbn [enumerate_from flat_map fst snd app].
    rewrite add_files_app. reflexivity.
Qed.

(** X7: a failure in the middle of a PDF does not undo what was done: when
    an image cannot be extracted, the converter returns the error text,
    and the side files of the pages and images handled before it stay on
    disk. *)
Theorem convert_pdf_to_md_keeps_side_files (E : Env) (pdf_path : str)
    (w : World) (doc : PdfDoc) (good : list Page) (bad : Page)
    (rest : list Page) (contents : list PageContent) (text : str)
    (imgs : list (N * str)) (xref : N) (more : list N) (msg : str) :
  fitz_open E pdf_path = Ok doc ->
  pages doc = good ++ bad :: rest ->
  Forall2 (page_reads E doc) good contents ->
  get_text bad = Ok text ->
  get_images bad = Ok (List.map fst imgs ++ xref :: more) ->
  Forall (fun xi => exists image_bytes,
            extract_image doc (fst xi) = Ok image_bytes /\
            Image_open E image_bytes = Ok (snd xi)) imgs ->
  extract_image doc xref = Raise msg ->
  (forall path, open_w E path = Ok tt) ->
  convert_pdf_to_md E pdf_path w
  = (Ok (lit "Error converting PDF to Markdown: " ++ msg),
     add_files w
       (concat (List.map (fun nc => page_files pdf_path (fst nc) (snd nc))
                  (enumerate_from 1
                     (contents
                      ++ [{| pc_text := text; pc_images := imgs |}]))))).
Proof.
  intros Hopen Hpages Hgood Ht Hi Himgs Hbad Hw.
  unfold convert_pdf_to_md, try_except. unfold bind at 1, call at 1.
  rewrite Hopen. unfold bind at 1. rewrite Hpages.
  rewrite (pages_loop_fails E doc pdf_path bad rest text imgs xref more msg
             Hw Ht Hi Himgs Hbad good contents 0 [] w Hgood).
  unfold ret. cbn [Z.add]. rewrite flat_map_concat_map. reflexivity.
Qed.

Lemma convert_pdf_to_md_keeps_side_files_witness :
  convert_pdf_to_md (env_pdf damaged_brochure) (lit "in/offer.pdf") empty_world
  = (Ok (lit "Error converting PDF to Markdown: bad xref"),
     {| stdout := [];
        disk := [(lit "in/image_p2_1.png", ImageFile [7%N])] |}).
Proof.
  refine (eq_trans
    (convert_pdf_to_md_keeps_side_files (env_pdf damaged_brochure)
       (lit "in/offer.pdf") empty_world damaged_brochure
       [ {| get_text := Ok (lit "Offer"); get_images := Ok [] |} ]
       {| get_text := Ok (lit "Photos"); get_images := Ok [7%N; 9%N] |}
       []
       [ {| pc_text := lit "Offer"; pc_images := [] |} ]
       (lit "Photos") [(7%N, [7%N])] 9%N [] (lit "bad xref")
       eq_refl eq_refl _ eq_refl eq_refl _ eq_refl (fun _ => eq_refl)) _).
  - repeat constructor.
  - repeat constructor. simpl. eexists; split; reflexivity.
  - reflexivity.
Defined.

(* ===================================================================== *)
(** * Properties of TXT to Markdown                                       *)
(* ===================================================================== *)

(** Putting the separator back after every piece of a split text gives
    the text, followed by one separator. *)
Lemma split_concat (sep : char) (s : str) :
  concat (List.map (fun l => l ++ [sep]) (split sep s)) = s ++ [sep].
Proof.
  induction s as [|c t IH]; [reflexivity|].
  simpl split. destruct (N.eqb c sep) eqn:E.
  - apply N.eqb_eq in E; subst c. cbn [List.map concat app].
    rewrite IH. reflexivity.
  - destruct (split sep t) as [|l ls] eqn:Es;
      [exfalso; exact (split_nonempty sep t Es)|].
    cbn [List.map concat] in *. simpl app. f_equal. exact IH.
Qed.

Lemma txt_line_plain `{Unicode} (line : str) :
  plain_line line -> txt_line line = line ++ [NL].
Proof.
  unfold txt_line. intros [-> | (Hs & Hu & Hc)]; [reflexivity|].
  destruct (strip line) as [|c t]; [congruence|].
  rewrite Hu, Hc. cbn [orb].
  destruct (numbered (c :: t) || startswith [BULLET] (c :: t)); reflexivity.
Qed.

(** X8: a text file none of whose lines is taken for a heading or is made
    of whitespace only passes through unchanged, with one newline
    added at the end. *)
Theorem convert_txt_to_md_plain_text `{Unicode} (E : Env) (txt_path : str)
    (w : World) (content : str) :
  read_text E txt_path = Ok content ->
  Forall plain_line (split NL content) ->
  convert_txt_to_md E txt_path w = (Ok (content ++ [NL]), w).
Proof.
  intros Hread Hplain.
  unfold convert_txt_to_md, try_except. unfold bind at 1, call at 1.
  rewrite Hread. unfold ret. f_equal. f_equal.
  rewrite <- (split_concat NL content).
  f_equal. apply map_ext_in. intros line Hin.
  apply txt_line_plain. rewrite Forall_forall in Hplain. exact (Hplain _ Hin).
Qed.

Lemma convert_txt_to_md_plain_text_witness :
  convert_txt_to_md (env_text_file plain_note) (lit "note.txt") empty_world
  = (Ok (plain_note ++ [NL]), empty_world).
Proof.
  apply (convert_txt_to_md_plain_text (env_text_file plain_note)
           (lit "note.txt") empty_world plain_note eq_refl).
  change (Forall plain_line [lit "Dear Sir,"; []; lit "2 bolts at 5 each"]).
  constructor; [|constructor; [|constructor; [|constructor]]].
  - unfold plain_line. right. split; [vm_compute; discriminate|].
    split; reflexivity.
  - left; reflexivity.
  - unfold plain_line. right. split; [vm_compute; discriminate|].
    split; reflexivity.
Defined.

Lemma txt_line_ends_with_newline `{Unicode} (line : str) :
  exists u, txt_line line = u ++ [NL].
Proof.
  unfold txt_line. destruct (strip line) as [|c t].
  - exists []; reflexivity.
  - destruct (isupper line || endswith (lit ":") (c :: t)).
    + exists (lit "## " ++ line ++ [NL]). rewrite <- !app_assoc. reflexivity.
    + destruct (numbered (c :: t) || startswith [BULLET] (c :: t));
        exists line; reflexivity.
Qed.

(** X9: for every text file that can be read, the Markdown returned is not
    empty and ends with a newline: an empty file gives a single newline. *)
Theorem convert_txt_to_md_ends_with_newline `{Unicode} (E : Env)
    (txt_path : str) (w : World) (content : str) :
  read_text E txt_path = Ok content ->
  exists u, convert_txt_to_md E txt_path w = (Ok (u ++ [NL]), w).
Proof.
  intros Hread.
  unfold convert_txt_to_md, try_except. unfold bind at 1, call at 1.
  rewrite Hread. unfold ret.
  assert (Hends : forall lines : list str, lines <> [] ->
            exists u, concat (List.map txt_line lines) = u ++ [NL]).
  { induction lines as [|l ls IH]; [congruence|]. intros _.
    destruct ls as [|l' ls].
    - destruct (txt_line_ends_with_newline l) as [u Hu].
      exists u. simpl. rewrite app_nil_r. exact Hu.
    - destruct (IH ltac:(discriminate)) as [u Hu].
      exists (txt_line l ++ u). cbn [List.map concat] in *.
      rewrite Hu, app_assoc. reflexivity. }
  destruct (Hends (split NL content) (split_nonempty NL content)) as [u Hu].
  exists u. rewrite Hu. reflexivity.
Qed.

Lemma convert_txt_to_md_ends_with_newline_witness :
  exists u,
    convert_txt_to_md (env_text_file []) (lit "empty.txt") empty_world
    = (Ok (u ++ [NL]), empty_world).
Proof.
  exact (convert_txt_to_md_ends_with_newline (env_text_file [])
           (lit "empty.txt") empty_world [] eq_refl).
Defined.

(* ===================================================================== *)
(** * Facts on the substitution of patterns                               *)
(* ===================================================================== *)

Lemma re_sub_from_prev (f : option char -> str -> option (str * nat)) :
  (forall p q s, f p s = f q s) ->
  forall s n p q, re_sub_from f n p s = re_sub_from f n q s.
Proof.
  intros Hf. induction s as [|c t IH]; intros n p q; [reflexivity|].
  destruct n as [|n]; [|simpl; apply IH].
  rewrite !re_sub_from_cons, (Hf p q). reflexivity.
Qed.

(** Where the pattern matches nowhere, the text is left as it is. *)
Lemma re_sub_from_id (f : option char -> str -> option (str * nat))
    (Q : str -> Prop) :
  (forall c t, Q (c :: t) -> Q t) ->
  (forall p c t, Q (c :: t) -> f p (c :: t) = None) ->
  forall s p, Q s -> re_sub_from f O p s = s.
Proof.
  intros Hsuf Hnone. induction s as [|c t IH]; intros p Hs; [reflexivity|].
  rewrite re_sub_from_cons, (Hnone p c t Hs). f_equal.
  apply IH. exact (Hsuf c t Hs).
Qed.

(** Characters that cannot start a match are copied. *)
Lemma re_sub_from_copy (f : option char -> str -> option (str * nat))
    (T : char -> Prop) :
  (forall p q s, f p s = f q s) ->
  (forall p c t, ~ T c -> f p (c :: t) = None) ->
  forall a s p, Forall (fun c => ~ T c) a ->
  re_sub_from f O p (a ++ s) = a ++ re_sub_from f O p s.
Proof.
  intros Hprev Hnone a s p Ha. revert p.
  induction Ha as [|c a Hc Ha IH]; intros p; [reflexivity|].
  simpl app. rewrite re_sub_from_cons, (Hnone p c _ Hc). f_equal.
  rewrite (re_sub_from_prev f Hprev _ _ (Some c) p). apply IH.
Qed.

(** A match is replaced, and the substitution goes on after it. *)
Lemma re_sub_from_match (f : option char -> str -> option (str * nat))
    (c : char) (x s repl : str) (p : option char) :
  (forall p q s, f p s = f q s) ->
  f p (c :: x ++ s) = Some (repl, S (length x)) ->
  re_sub_from f O p (c :: x ++ s) = repl ++ re_sub_from f O p s.
Proof.
  intros Hprev Hm. rewrite re_sub_from_cons, Hm. f_equal. cbn [Nat.pred].
  clear Hm. revert c. induction x as [|d x IH]; intros c.
  - apply (re_sub_from_prev f Hprev).
  - simpl. apply IH.
Qed.

Lemma span_until_stop (stop : char) (a s : str) :
  Forall (fun c => c <> stop) a ->
  span_until stop (a ++ stop :: s) = (a, stop :: s).
Proof.
  induction 1 as [|c a Hc Ha IH]; simpl.
  - rewrite N.eqb_refl. reflexivity.
  - destruct (N.eqb c stop) eqn:E; [apply N.eqb_eq in E; contradiction|].
    rewrite IH. reflexivity.
Qed.

Lemma split_no_sep (sep : char) (s : str) :
  Forall (fun c => c <> sep) s -> split sep s = [s].
Proof.
  induction 1 as [|c t Hc Ht IH]; [reflexivity|].
  simpl. destruct (N.eqb c sep) eqn:E; [apply N.eqb_eq in E; contradiction|].
  rewrite IH. reflexivity.
Qed.

(* ===================================================================== *)
(** * Properties of Markdown to DOCX                                      *)
(* ===================================================================== *)

Lemma tag_match_prev (p q : option char) (s : str) :
  tag_match p s = tag_match q s.
Proof. reflexivity. Qed.

Lemma tag_match_other (p : option char) (c : char) (t : str) :
  ~ c = LESS -> tag_match p (c :: t) = None.
Proof.
  intros Hc. unfold tag_match.
  destruct (N.eqb c 60) eqn:E; [apply N.eqb_eq in E; contradiction | reflexivity].
Qed.

Lemma tag_match_tag (p : option char) (name s : str) :
  Forall (fun c => c <> GREATER) name -> newline_free name ->
  tag_match p (LESS :: name ++ GREATER :: s)
  = Some ([], S (length (name ++ [GREATER]))).
Proof.
  intros Hg Hn. pose proof (span_until_stop GREATER name s Hg) as Hs.
  unfold tag_match. unfold GREATER, LESS in *. cbn [N.eqb Pos.eqb].
  rewrite Hs.
  assert (Hf : forallb (fun d => negb (N.eqb d NL)) name = true).
  { apply forallb_forall. intros d Hd. apply negb_true_iff, N.eqb_neq.
    unfold newline_free in Hn. rewrite Forall_forall in Hn. exact (Hn d Hd). }
  rewrite Hf. rewrite length_app. simpl length.
  do 2 f_equal. lia.
Qed.

(** The tags of a line are removed and its texts kept, in order. *)
Lemma strip_tags (t0 : str) (segs : list (str * str)) :
  Forall (fun c => c <> LESS) t0 ->
  Forall (fun nt => Forall (fun c => c <> GREATER) (fst nt) /\
                    newline_free (fst nt) /\
                    Forall (fun c => c <> LESS) (snd nt)) segs ->
  re_sub tag_match (tagged_text t0 segs) = t0 ++ concat (List.map snd segs).
Proof.
  intros Ht0 Hsegs. unfold re_sub, tagged_text.
  generalize (@None char) as p. revert t0 Ht0.
  induction Hsegs as [|[name text] segs (Hg & Hn & Ht) Hrest IH];
    intros t0 Ht0 p.
  - simpl. rewrite !app_nil_r.
    rewrite <- (app_nil_r t0) at 1.
    rewrite (re_sub_from_copy tag_match (fun c => c = LESS) tag_match_prev
               tag_match_other t0 [] p Ht0).
    simpl. apply app_nil_r.
  - cbn [List.map concat fst snd] in *.
    rewrite (re_sub_from_copy tag_match (fun c => c = LESS) tag_match_prev
               tag_match_other t0 _ p Ht0).
    f_equal.
    replace (([LESS] ++ name ++ [GREATER] ++ text) ++
             concat (List.map (fun nt => [LESS] ++ fst nt ++ [GREATER] ++ snd nt)
                       segs))
      with (LESS :: (name ++ [GREATER]) ++
            (text ++ concat (List.map
               (fun nt => [LESS] ++ fst nt ++ [GREATER] ++ snd nt) segs)))
      by (simpl; rewrite <- !app_assoc; reflexivity).
    rewrite (re_sub_from_match tag_match LESS (name ++ [GREATER]) _ [] p
               tag_match_prev).
    + simpl app at 1. exact (IH text Ht p).
    + rewrite <- app_assoc. simpl app at 2.
      exact (tag_match_tag p name _ Hg Hn).
Qed.

Lemma html_paragraphs_kept (lines : list str) :
  Forall (fun para => para <> [] /\ trimmed para) (html_paragraphs lines) /\
  (length (html_paragraphs lines) <= length lines)%nat.
Proof.
  induction lines as [|line rest [IH1 IH2]]; [split; [constructor | simpl; lia]|].
  cbn [html_paragraphs].
  pose proof (strip_trimmed (re_sub tag_match line)) as Ht.
  destruct (strip (re_sub tag_match line)) as [|c t] eqn:E.
  - split; [exact IH1 | simpl; lia].
  - split; [|simpl; lia].
    constructor; [split; [discriminate | exact Ht] | exact IH1].
Qed.

(** Lines that [doc.add_paragraph] accepts are all added. *)
Lemma add_paragraphs_accepted (E : Env) (lines : list str) (w : World) :
  Forall (fun para => docx_add_paragraph E para = Ok tt)
    (html_paragraphs lines) ->
  add_paragraphs E lines w = (Ok (html_paragraphs lines), w).
Proof.
  induction lines as [|line rest IH]; intros Hall; [reflexivity|].
  cbn [add_paragraphs html_paragraphs] in *.
  destruct (strip (re_sub tag_match line)) as [|c t]; [exact (IH Hall)|].
  inversion Hall as [|? ? Hfirst Hrest]; subst.
  unfold bind at 1, call at 1. rewrite Hfirst.
  unfold bind at 1. rewrite (IH Hrest). reflexivity.
Qed.

(** The first line that [doc.add_paragraph] refuses ends the loop. *)
Lemma add_paragraphs_refused (E : Env) (lines before after : list str)
    (para e : str) (w : World) :
  html_paragraphs lines = before ++ para :: after ->
  Forall (fun para => docx_add_paragraph E para = Ok tt) before ->
  docx_add_paragraph E para = Raise e ->
  add_paragraphs E lines w = (Raise e, w).
Proof.
  revert before. induction lines as [|line rest IH]; intros before Hkept Hok Hno.
  - destruct before; discriminate.
  - cbn [add_paragraphs html_paragraphs] in *.
    destruct (strip (re_sub tag_match line)) as [|c t];
      [exact (IH before Hkept Hok Hno)|].
    destruct before as [|first before].
    + injection Hkept as Hhead Htail. rewrite Hhead.
      unfold bind at 1, call at 1. rewrite Hno. reflexivity.
    + injection Hkept as Hhead Htail. rewrite Hhead.
      inversion Hok as [|? ? Hfirst Hrest]; subst.
      unfold bind at 1, call at 1. rewrite Hfirst.
      unfold bind at 1. rewrite (IH before Htail Hrest Hno). reflexivity.
Qed.

(** The loop touches neither stdout nor the disk. *)
Lemma add_paragraphs_world (E : Env) (lines : list str) (w : World) :
  snd (add_paragraphs E lines w) = w.
Proof.
  induction lines as [|line rest IH]; [reflexivity|].
  cbn [add_paragraphs].
  destruct (strip (re_sub tag_match line)) as [|c t]; [exact IH|].
  unfold bind at 1, call at 1.
  destruct (docx_add_paragraph E (c :: t)) as [[]|e]; [|reflexivity].
  unfold bind at 1. destruct (add_paragraphs E rest w) as [[ps|e] w'];
    exact IH.
Qed.

(** X10: when the library accepts every line kept, every paragraph of the
    DOCX written is a non-empty text without whitespace at its ends, and
    there are no more paragraphs than the HTML has lines. *)
Theorem convert_md_to_docx_paragraphs (E : Env) (md_path output_path : str)
    (w : World) (md_content html_content : str) :
  read_text E md_path = Ok md_content ->
  markdown_markdown E md_content [] = Ok html_content ->
  Forall (fun para => docx_add_paragraph E para = Ok tt)
    (html_paragraphs (split NL html_content)) ->
  open_w E output_path = Ok tt ->
  exists paragraphs,
    convert_md_to_docx E md_path output_path w
    = (Ok true, add_files w [(output_path, DocxFile paragraphs)]) /\
    Forall (fun para => para <> [] /\ trimmed para) paragraphs /\
    (length paragraphs <= length (split NL html_content))%nat.
Proof.
  intros Hread Hmd Hadd Hw.
  exists (html_paragraphs (split NL html_content)). split.
  - unfold convert_md_to_docx, try_except. unfold bind at 1, call at 1.
    rewrite Hread. unfold bind at 1, call at 1. rewrite Hmd.
    unfold bind at 1. rewrite (add_paragraphs_accepted E _ w Hadd).
    unfold bind at 1, call at 1. rewrite Hw. reflexivity.
  - apply html_paragraphs_kept.
Qed.

Lemma convert_md_to_docx_paragraphs_witness :
  exists paragraphs,
    convert_md_to_docx
      (env_rendered (lit "# Quote") (lit "<h1>Quote</h1>" ++ [NL] ++ lit "<p> </p>"))
      (lit "quote.md") (lit "quote.docx") empty_world
    = (Ok true,
       add_files empty_world [(lit "quote.docx", DocxFile paragraphs)]) /\
    Forall (fun para => para <> [] /\ trimmed para) paragraphs /\
    (length paragraphs <= 2)%nat.
Proof.
  refine (convert_md_to_docx_paragraphs
            (env_rendered (lit "# Quote") (lit "<h1>Quote</h1>" ++ [NL] ++ lit "<p> </p>"))
            (lit "quote.md") (lit "quote.docx") empty_world
            (lit "# Quote") (lit "<h1>Quote</h1>" ++ [NL] ++ lit "<p> </p>")
            eq_refl eq_refl _ eq_refl).
  vm_compute. repeat constructor.
Defined.

(** X11: an HTML line without newline whose text the library accepts is
    written as one paragraph: its texts in order, tags removed, the whole
    trimmed. *)
Theorem convert_md_to_docx_line (E : Env) (md_path output_path : str)
    (w : World) (md_content t0 : str) (segs : list (str * str)) :
  read_text E md_path = Ok md_content ->
  markdown_markdown E md_content [] = Ok (tagged_text t0 segs) ->
  open_w E output_path = Ok tt ->
  Forall (fun c => c <> LESS) t0 -> newline_free t0 ->
  Forall (fun nt => Forall (fun c => c <> GREATER) (fst nt) /\
                    newline_free (fst nt) /\
                    Forall (fun c => c <> LESS) (snd nt)) segs ->
  Forall (fun nt => newline_free (snd nt)) segs ->
  strip (t0 ++ concat (List.map snd segs)) <> [] ->
  docx_add_paragraph E (strip (t0 ++ concat (List.map snd segs))) = Ok tt ->
  convert_md_to_docx E md_path output_path w
  = (Ok true,
     add_files w
       [(output_path,
         DocxFile [strip (t0 ++ concat (List.map snd segs))])]).
Proof.
  intros Hread Hmd Hw Ht0 Hn0 Hsegs Hnl Hne Hadd.
  assert (Hfree : newline_free (tagged_text t0 segs)).
  { unfold tagged_text. apply newline_free_app; [exact Hn0|].
    apply newline_free_concat, Forall_map.
    rewrite Forall_forall in *. intros nt Hin.
    destruct (Hsegs nt Hin) as (_ & Hname & _). specialize (Hnl nt Hin).
    repeat apply newline_free_app; try assumption;
      repeat constructor; discriminate. }
  assert (Hkept : html_paragraphs (split NL (tagged_text t0 segs))
                  = [strip (t0 ++ concat (List.map snd segs))]).
  { rewrite (split_no_sep NL _ Hfree). cbn [html_paragraphs].
    rewrite (strip_tags t0 segs Ht0 Hsegs).
    destruct (strip (t0 ++ concat (List.map snd segs))); [congruence|].
    reflexivity. }
  unfold convert_md_to_docx, try_except. unfold bind at 1, call at 1.
  rewrite Hread. unfold bind at 1, call at 1. rewrite Hmd.
  unfold bind at 1. rewrite add_paragraphs_accepted.
  - unfold bind at 1, call at 1. rewrite Hw, Hkept. reflexivity.
  - rewrite Hkept. constructor; [exact Hadd | constructor].
Qed.

Lemma convert_md_to_docx_line_witness :
  convert_md_to_docx
    (env_rendered (lit "**Total**: 42")
       (tagged_text [] [(lit "p", []); (lit "strong", lit "Total");
                        (lit "/strong", lit ": 42"); (lit "/p", [])]))
    (lit "quote.md") (lit "quote.docx") empty_world
  = (Ok true,
     add_files empty_world [(lit "quote.docx", DocxFile [lit "Total: 42"])]).
Proof.
  apply (convert_md_to_docx_line _ _ _ _ (lit "**Total**: 42") []
           [(lit "p", []); (lit "strong", lit "Total");
            (lit "/strong", lit ": 42"); (lit "/p", [])]).
  - reflexivity.
  - reflexivity.
  - reflexivity.
  - constructor.
  - constructor.
  - repeat constructor; discriminate.
  - repeat constructor; discriminate.
  - vm_compute; discriminate.
  - reflexivity.
Defined.

(** X30: a kept line that the library refuses (a control character inside
    it is enough) ends the conversion: the error is printed, [False] is
    returned and no file is written, whatever was added before it. *)
Theorem convert_md_to_docx_refused_line (E : Env) (md_path output_path : str)
    (w : World) (md_content html_content : str) (before after : list str)
    (para e : str) :
  read_text E md_path = Ok md_content ->
  markdown_markdown E md_content [] = Ok html_content ->
  html_paragraphs (split NL html_content) = before ++ para :: after ->
  Forall (fun para => docx_add_paragraph E para = Ok tt) before ->
  docx_add_paragraph E para = Raise e ->
  convert_md_to_docx E md_path output_path w
  = (Ok false,
     {| stdout := stdout w ++
          [Line (lit "Error converting Markdown to DOCX: " ++ e)];
        disk := disk w |}).
Proof.
  intros Hread Hmd Hkept Hok Hno.
  unfold convert_md_to_docx, try_except. unfold bind at 1, call at 1.
  rewrite Hread. unfold bind at 1, call at 1. rewrite Hmd.
  unfold bind at 1.
  rewrite (add_paragraphs_refused E _ before after para e w Hkept Hok Hno).
  reflexivity.
Qed.

Lemma convert_md_to_docx_refused_line_witness :
  convert_md_to_docx
    (env_rendered (lit "Quote") (lit "<h1>Quote</h1>" ++ [NL]
                                 ++ lit "<p>Total" ++ [12%N] ++ lit "42</p>"))
    (lit "quote.md") (lit "quote.docx") empty_world
  = (Ok false,
     {| stdout :=
          [Line (lit "Error converting Markdown to DOCX: All strings must be XML compatible: Unicode or ASCII, no NULL bytes or control characters")];
        disk := [] |}).
Proof.
  refine (convert_md_to_docx_refused_line
            (env_rendered (lit "Quote") (lit "<h1>Quote</h1>" ++ [NL]
                                         ++ lit "<p>Total" ++ [12%N]
                                         ++ lit "42</p>"))
            (lit "quote.md") (lit "quote.docx") empty_world (lit "Quote") _
            [lit "Quote"] [] (lit "Total" ++ [12%N] ++ lit "42") _
            eq_refl eq_refl _ _ _).
  - reflexivity.
  - repeat constructor.
  - reflexivity.
Defined.

(* ===================================================================== *)
(** * Properties of Markdown to plain text                                *)
(* ===================================================================== *)

Section MdToTxtFacts.
Context {U : Unicode}.

Lemma convert_md_to_txt_writes (E : Env) (md_path output_path : str)
    (w : World) (md_content : str) :
  read_text E md_path = Ok md_content ->
  open_w E output_path = Ok tt ->
  convert_md_to_txt E md_path output_path w
  = (Ok true,
     add_files w [(output_path, TextFile (md_to_txt_text md_content))]).
Proof.
  intros Hread Hwrite. unfold convert_md_to_txt, try_except, write_text.
  unfold bind at 1, call at 1. rewrite Hread.
  unfold bind at 1. unfold bind at 1, call at 1. rewrite Hwrite.
  reflexivity.
Qed.

Lemma header_match_other (p : option char) (c : char) (t : str) :
  ~ c = HASH -> header_match p (c :: t) = None.
Proof.
  intros Hc. unfold header_match. cbn [count_while].
  destruct (N.eqb HASH c) eqn:E; [apply N.eqb_eq in E; congruence|].
  reflexivity.
Qed.

Lemma emphasis_match_other (p : option char) (c : char) (t : str) :
  ~ (c = STAR \/ c = UNDERSCORE) -> emphasis_match p (c :: t) = None.
Proof.
  intros Hc. unfold emphasis_match.
  destruct (N.eqb c STAR) eqn:E1; [apply N.eqb_eq in E1; tauto|].
  destruct (N.eqb c UNDERSCORE) eqn:E2; [apply N.eqb_eq in E2; tauto|].
  reflexivity.
Qed.

Lemma bracket_paren_other (c : char) (t : str) :
  ~ c = LBRACKET -> bracket_paren (c :: t) = None.
Proof.
  intros Hc. unfold bracket_paren.
  destruct (N.eqb c 91) eqn:E; [apply N.eqb_eq in E; contradiction|].
  reflexivity.
Qed.

Lemma image_match_bracket_free (p : option char) (s : str) :
  Forall (fun c => c <> LBRACKET) s -> image_match p s = None.
Proof.
  intros Hs. unfold image_match. destruct s as [|c t]; [reflexivity|].
  destruct (N.eqb c 33); [|reflexivity].
  inversion Hs as [|? ? _ Ht]; subst.
  destruct t as [|d t']; [reflexivity|].
  inversion Ht as [|? ? Hd _]; subst.
  rewrite (bracket_paren_other d t' Hd). reflexivity.
Qed.

Lemma code_block_match_other (p : option char) (c : char) (t : str) :
  ~ c = BACKTICK -> code_block_match p (c :: t) = None.
Proof.
  intros Hc. unfold code_block_match. cbn [startswith FENCE].
  destruct (N.eqb 96 c) eqn:E; [apply N.eqb_eq in E; subst c; now elim Hc|].
  reflexivity.
Qed.

Lemma Forall_tail {A : Type} (P : A -> Prop) (c : A) (t : list A) :
  Forall P (c :: t) -> Forall P t.
Proof. intros H; inversion H; assumption. Qed.

Lemma Forall_head {A : Type} (P : A -> Prop) (c : A) (t : list A) :
  Forall P (c :: t) -> P c.
Proof. intros H; inversion H; assumption. Qed.

(** Each substitution leaves a text alone that lacks its characters. *)
Lemma header_pass_id (s : str) :
  Forall (fun c => c <> HASH) s -> re_sub header_match s = s.
Proof.
  intros Hs. unfold re_sub.
  apply (re_sub_from_id header_match (Forall (fun c => c <> HASH)));
    [apply Forall_tail | | exact Hs].
  intros p c t H. apply header_match_other. exact (Forall_head _ _ _ H).
Qed.

Lemma emphasis_pass_id (s : str) :
  Forall (fun c => ~ (c = STAR \/ c = UNDERSCORE)) s ->
  re_sub emphasis_match s = s.
Proof.
  intros Hs. unfold re_sub.
  apply (re_sub_from_id emphasis_match
           (Forall (fun c => ~ (c = STAR \/ c = UNDERSCORE))));
    [apply Forall_tail | | exact Hs].
  intros p c t H. apply emphasis_match_other. exact (Forall_head _ _ _ H).
Qed.

Lemma link_pass_id (s : str) (p : option char) :
  Forall (fun c => c <> LBRACKET) s -> re_sub_from link_match O p s = s.
Proof.
  intros Hs.
  apply (re_sub_from_id link_match (Forall (fun c => c <> LBRACKET)));
    [apply Forall_tail | | exact Hs].
  intros q c t H. apply bracket_paren_other. exact (Forall_head _ _ _ H).
Qed.

Lemma image_pass_id (s : str) :
  Forall (fun c => c <> LBRACKET) s -> re_sub image_match s = s.
Proof.
  intros Hs. unfold re_sub.
  apply (re_sub_from_id image_match (Forall (fun c => c <> LBRACKET)));
    [apply Forall_tail | | exact Hs].
  intros p c t H. apply image_match_bracket_free. exact H.
Qed.

Lemma code_pass_id (s : str) (p : option char) :
  Forall (fun c => c <> BACKTICK) s -> re_sub_from code_block_match O p s = s.
Proof.
  intros Hs.
  apply (re_sub_from_id code_block_match (Forall (fun c => c <> BACKTICK)));
    [apply Forall_tail | | exact Hs].
  intros q c t H. apply code_block_match_other. exact (Forall_head _ _ _ H).
Qed.

Lemma markup_free_parts (s : str) :
  markup_free s ->
  Forall (fun c => c <> HASH) s /\
  Forall (fun c => ~ (c = STAR \/ c = UNDERSCORE)) s /\
  Forall (fun c => c <> LBRACKET) s /\
  Forall (fun c => c <> BACKTICK) s.
Proof.
  intros H. repeat split; eapply Forall_impl; try exact H;
    cbv beta; intros c Hc; tauto.
Qed.

Lemma markup_free_app (a b : str) :
  markup_free a -> markup_free b -> markup_free (a ++ b).
Proof. intros Ha Hb. apply Forall_app; split; assumption. Qed.

Lemma md_to_txt_text_markup_free (s : str) :
  markup_free s -> md_to_txt_text s = s.
Proof.
  intros H. destruct (markup_free_parts s H) as (H1 & H2 & H3 & H4).
  unfold md_to_txt_text.
  rewrite (header_pass_id s H1), (emphasis_pass_id s H2).
  unfold re_sub at 3. rewrite (link_pass_id s None H3).
  rewrite (image_pass_id s H3).
  unfold re_sub. apply (code_pass_id s None H4).
Qed.

(** The last three substitutions on a text without hash, star and
    underscore. *)
Lemma md_to_txt_text_after_emphasis (s : str) :
  Forall (fun c => c <> HASH) s ->
  Forall (fun c => ~ (c = STAR \/ c = UNDERSCORE)) s ->
  md_to_txt_text s
  = re_sub code_block_match (re_sub image_match (re_sub link_match s)).
Proof.
  intros H1 H2. unfold md_to_txt_text.
  rewrite (header_pass_id s H1), (emphasis_pass_id s H2). reflexivity.
Qed.

Lemma link_match_prev (p q : option char) (s : str) :
  link_match p s = link_match q s.
Proof. reflexivity. Qed.

Lemma bracket_paren_link (label url post : str) :
  label <> [] -> Forall (fun c => c <> RBRACKET) label ->
  url <> [] -> Forall (fun c => c <> RPAREN) url ->
  bracket_paren (md_link label url ++ post)
  = Some (label, (length label + length url + 4)%nat).
Proof.
  intros Hl Hlb Hu Hup.
  pose proof (span_until_stop RBRACKET label
                (LPAREN :: url ++ RPAREN :: post) Hlb) as H1.
  pose proof (span_until_stop RPAREN url post Hup) as H2.
  unfold md_link, bracket_paren.
  unfold RBRACKET, LPAREN, RPAREN, LBRACKET in *.
  cbn [app N.eqb Pos.eqb].
  rewrite <- !app_assoc. cbn [app]. rewrite <- !app_assoc. cbn [app].
  rewrite H1.
  destruct label as [|l0 label']; [congruence|].
  cbn [N.eqb Pos.eqb]. rewrite H2.
  destruct url as [|u0 url']; [congruence|]. reflexivity.
Qed.

(** The link substitution on one link between texts without bracket. *)
Lemma link_pass_link (pre label url post : str) :
  Forall (fun c => c <> LBRACKET) pre ->
  Forall (fun c => c <> LBRACKET) post ->
  label <> [] -> Forall (fun c => c <> RBRACKET) label ->
  url <> [] -> Forall (fun c => c <> RPAREN) url ->
  re_sub link_match (pre ++ md_link label url ++ post) = pre ++ label ++ post.
Proof.
  intros Hpre Hpost Hl Hlb Hu Hup. unfold re_sub.
  rewrite (re_sub_from_copy link_match (fun c => c = LBRACKET) link_match_prev
             (fun p c t Hc => bracket_paren_other c t Hc) pre _ None Hpre).
  f_equal.
  pose proof (bracket_paren_link label url post Hl Hlb Hu Hup) as Hm.
  assert (Hshape : md_link label url ++ post
                   = LBRACKET :: (label ++ [RBRACKET; LPAREN] ++ url ++ [RPAREN])
                       ++ post).
  { unfold md_link. simpl. reflexivity. }
  rewrite Hshape in *.
  rewrite (re_sub_from_match link_match LBRACKET _ post label None
             link_match_prev).
  - f_equal. apply link_pass_id. exact Hpost.
  - unfold link_match. rewrite Hm. do 2 f_equal.
    rewrite !length_app. simpl. lia.
Qed.

Lemma md_to_txt_text_link (pre label url post : str) :
  markup_free pre -> markup_free label -> markup_free url ->
  markup_free post ->
  label <> [] -> Forall (fun c => c <> RBRACKET) label ->
  url <> [] -> Forall (fun c => c <> RPAREN) url ->
  md_to_txt_text (pre ++ md_link label url ++ post) = pre ++ label ++ post.
Proof.
  intros Hpre Hlab Hurl Hpost Hl Hlb Hu Hup.
  destruct (markup_free_parts _ Hpre) as (P1 & P2 & P3 & P4).
  destruct (markup_free_parts _ Hlab) as (L1 & L2 & L3 & L4).
  destruct (markup_free_parts _ Hurl) as (U1 & U2 & U3 & U4).
  destruct (markup_free_parts _ Hpost) as (Q1 & Q2 & Q3 & Q4).
  rewrite md_to_txt_text_after_emphasis.
  - rewrite (link_pass_link pre label url post P3 Q3 Hl Hlb Hu Hup).
    rewrite image_pass_id by (repeat (apply Forall_app; split); assumption).
    unfold re_sub. apply code_pass_id.
    repeat (apply Forall_app; split); assumption.
  - unfold md_link.
    repeat (apply Forall_app; split); try assumption;
      repeat constructor; discriminate.
  - unfold md_link.
    repeat (apply Forall_app; split); try assumption;
      repeat constructor; intros [Hc|Hc]; discriminate.
Qed.

(** X12: a text holding none of the characters hash, star, underscore,
    opening bracket and backtick is written out as it is. *)
Theorem convert_md_to_txt_plain (E : Env) (md_path output_path : str)
    (w : World) (md_content : str) :
  read_text E md_path = Ok md_content ->
  open_w E output_path = Ok tt ->
  markup_free md_content ->
  convert_md_to_txt E md_path output_path w
  = (Ok true, add_files w [(output_path, TextFile md_content)]).
Proof.
  intros Hread Hwrite Hfree.
  rewrite (convert_md_to_txt_writes E _ _ w md_content Hread Hwrite).
  rewrite (md_to_txt_text_markup_free md_content Hfree). reflexivity.
Qed.

(** X13: a link between plain texts is written as its label: the brackets
    and the target are dropped. *)
Theorem convert_md_to_txt_link (E : Env) (md_path output_path : str)
    (w : World) (pre label url post : str) :
  read_text E md_path = Ok (pre ++ md_link label url ++ post) ->
  open_w E output_path = Ok tt ->
  markup_free pre -> markup_free label -> markup_free url ->
  markup_free post ->
  label <> [] -> Forall (fun c => c <> RBRACKET) label ->
  url <> [] -> Forall (fun c => c <> RPAREN) url ->
  convert_md_to_txt E md_path output_path w
  = (Ok true, add_files w [(output_path, TextFile (pre ++ label ++ post))]).
Proof.
  intros Hread Hwrite Hpre Hlab Hurl Hpost Hl Hlb Hu Hup.
  rewrite (convert_md_to_txt_writes E _ _ w _ Hread Hwrite).
  rewrite (md_to_txt_text_link pre label url post) by assumption.
  reflexivity.
Qed.

(** X14: an image between plain texts is not dropped: the link
    substitution runs first and leaves the exclamation mark and the
    alternative text. *)
Theorem convert_md_to_txt_image (E : Env) (md_path output_path : str)
    (w : World) (pre alt url post : str) :
  read_text E md_path = Ok (pre ++ [BANG] ++ md_link alt url ++ post) ->
  open_w E output_path = Ok tt ->
  markup_free pre -> markup_free alt -> markup_free url ->
  markup_free post ->
  alt <> [] -> Forall (fun c => c <> RBRACKET) alt ->
  url <> [] -> Forall (fun c => c <> RPAREN) url ->
  convert_md_to_txt E md_path output_path w
  = (Ok true,
     add_files w [(output_path, TextFile (pre ++ [BANG] ++ alt ++ post))]).
Proof.
  intros Hread Hwrite Hpre Halt Hurl Hpost Hl Hlb Hu Hup.
  rewrite (convert_md_to_txt_writes E _ _ w _ Hread Hwrite).
  assert (Hbang : markup_free (pre ++ [BANG])).
  { apply markup_free_app; [exact Hpre|].
    constructor; [repeat split; discriminate | constructor]. }
  pose proof (md_to_txt_text_link (pre ++ [BANG]) alt url post Hbang Halt Hurl
                Hpost Hl Hlb Hu Hup) as Htxt.
  rewrite <- !app_assoc in Htxt. rewrite Htxt. reflexivity.
Qed.
End MdToTxtFacts.

Lemma convert_md_to_txt_plain_witness :
  convert_md_to_txt (env_text_file plain_note)
    (lit "note.md") (lit "note.txt") empty_world
  = (Ok true, add_files empty_world [(lit "note.txt", TextFile plain_note)]).
Proof.
  apply (convert_md_to_txt_plain (env_text_file plain_note)
           (lit "note.md") (lit "note.txt") empty_world plain_note).
  - reflexivity.
  - reflexivity.
  - repeat constructor; discriminate.
Defined.

Lemma convert_md_to_txt_link_witness :
  convert_md_to_txt
    (env_text_file (lit "see [terms](http://x.org/t) please"))
    (lit "quote.md") (lit "quote.txt") empty_world
  = (Ok true,
     add_files empty_world
       [(lit "quote.txt", TextFile (lit "see terms please"))]).
Proof.
  apply (convert_md_to_txt_link
           (env_text_file (lit "see [terms](http://x.org/t) please"))
           (lit "quote.md") (lit "quote.txt") empty_world
           (lit "see ") (lit "terms") (lit "http://x.org/t") (lit " please")).
  - reflexivity.
  - reflexivity.
  - repeat constructor; discriminate.
  - repeat constructor; discriminate.
  - repeat constructor; discriminate.
  - repeat constructor; discriminate.
  - discriminate.
  - repeat constructor; discriminate.
  - discriminate.
  - repeat constructor; discriminate.
Defined.

Lemma convert_md_to_txt_image_witness :
  convert_md_to_txt
    (env_text_file (lit "Logo: ![logo](logo.png)."))
    (lit "quote.md") (lit "quote.txt") empty_world
  = (Ok true,
     add_files empty_world [(lit "quote.txt", TextFile (lit "Logo: !logo."))]).
Proof.
  apply (convert_md_to_txt_image
           (env_text_file (lit "Logo: ![logo](logo.png)."))
           (lit "quote.md") (lit "quote.txt") empty_world
           (lit "Logo: ") (lit "logo") (lit "logo.png") (lit ".")).
  - reflexivity.
  - reflexivity.
  - repeat constructor; discriminate.
  - repeat constructor; discriminate.
  - repeat constructor; discriminate.
  - repeat constructor; discriminate.
  - discriminate.
  - repeat constructor; discriminate.
  - discriminate.
  - repeat constructor; discriminate.
Defined.

Section MdToTxtMarkers.
Context {U : Unicode}.

Lemma count_while_all (p : char -> bool) (a b : str) :
  Forall (fun c => p c = true) a ->
  match b with [] => True | d :: _ => p d = false end ->
  count_while p (a ++ b) = length a.
Proof.
  intros Ha Hb. induction Ha as [|c a Hc Ha IH]; simpl.
  - destruct b as [|d b]; [reflexivity|]. simpl. rewrite Hb. reflexivity.
  - rewrite Hc, IH. reflexivity.
Qed.

Lemma skipn_repeat_app (c : char) (n : nat) (r : str) :
  skipn n (repeat c n ++ r) = r.
Proof. induction n; simpl; auto. Qed.

Lemma whitespace_markup_free (ws : str) : whitespace ws -> markup_free ws.
Proof.
  intros H. eapply Forall_impl; [|exact H]. cbv beta.
  intros c Hc. repeat split; intros ->; vm_compute in Hc; discriminate.
Qed.

Lemma header_match_prev (p q : option char) (s : str) :
  header_match p s = header_match q s.
Proof. reflexivity. Qed.

Lemma header_match_marker (p : option char) (k : nat) (ws post : str) :
  ws <> [] -> whitespace ws -> starts_without_space post ->
  header_match p (repeat HASH (S k) ++ ws ++ post)
  = Some ([], S (length (repeat HASH k ++ ws))).
Proof.
  intros Hne Hws Hpost. unfold header_match.
  assert (Hk : count_while (N.eqb HASH) (repeat HASH (S k) ++ ws ++ post)
               = S k).
  { rewrite <- (repeat_length HASH (S k)) at 2.
    apply count_while_all.
    - apply Forall_forall. intros c Hc. apply repeat_spec in Hc. subst c.
      reflexivity.
    - destruct ws as [|s0 ws']; [congruence|]. cbn [app].
      apply Forall_head in Hws. apply N.eqb_neq. intros <-.
      vm_compute in Hws. discriminate. }
  rewrite Hk, skipn_repeat_app.
  rewrite (count_while_all isspace ws post Hws Hpost).
  destruct ws as [|s0 ws']; [congruence|].
  rewrite length_app, repeat_length. simpl. reflexivity.
Qed.

(** The heading substitution on one run of hashes and whitespace. *)
Lemma header_pass_marker (pre post ws : str) (k : nat) :
  Forall (fun c => c <> HASH) pre -> Forall (fun c => c <> HASH) post ->
  ws <> [] -> whitespace ws -> starts_without_space post ->
  re_sub header_match (pre ++ repeat HASH (S k) ++ ws ++ post) = pre ++ post.
Proof.
  intros Hpre Hpost Hne Hws Hstart. unfold re_sub.
  rewrite (re_sub_from_copy header_match (fun c => c = HASH) header_match_prev
             header_match_other pre _ None Hpre).
  f_equal.
  pose proof (header_match_marker None k ws post Hne Hws Hstart) as Hm.
  assert (Hshape : repeat HASH (S k) ++ ws ++ post
                   = HASH :: (repeat HASH k ++ ws) ++ post).
  { simpl. rewrite <- app_assoc. reflexivity. }
  rewrite Hshape in *.
  rewrite (re_sub_from_match header_match HASH _ post [] None
             header_match_prev Hm).
  simpl. apply (re_sub_from_id header_match (Forall (fun c => c <> HASH)));
    [apply Forall_tail | | exact Hpost].
  intros p c t H. apply header_match_other. exact (Forall_head _ _ _ H).
Qed.

(** X15: hashes followed by whitespace are removed wherever they stand in
    the text, with all the whitespace after them, line breaks included. *)
Theorem convert_md_to_txt_heading_marker (E : Env)
    (md_path output_path : str) (w : World) (pre ws post : str) (k : nat) :
  read_text E md_path = Ok (pre ++ repeat HASH (S k) ++ ws ++ post) ->
  open_w E output_path = Ok tt ->
  markup_free pre -> markup_free post ->
  ws <> [] -> whitespace ws -> starts_without_space post ->
  convert_md_to_txt E md_path output_path w
  = (Ok true, add_files w [(output_path, TextFile (pre ++ post))]).
Proof.
  intros Hread Hwrite Hpre Hpost Hne Hws Hstart.
  rewrite (convert_md_to_txt_writes E _ _ w _ Hread Hwrite).
  destruct (markup_free_parts _ Hpre) as (P1 & _).
  destruct (markup_free_parts _ Hpost) as (Q1 & _).
  pose proof (md_to_txt_text_markup_free (pre ++ post)
                (markup_free_app _ _ Hpre Hpost)) as Hrest.
  unfold md_to_txt_text in *.
  rewrite (header_pass_marker pre post ws k P1 Q1 Hne Hws Hstart).
  rewrite (header_pass_id (pre ++ post)) in Hrest
    by (apply Forall_app; split; assumption).
  rewrite Hrest. reflexivity.
Qed.

Lemma code_block_match_prev (p q : option char) (s : str) :
  code_block_match p s = code_block_match q s.
Proof. reflexivity. Qed.

Lemma code_block_match_block (p : option char) (body post : str) :
  Forall (fun c => c <> BACKTICK) body ->
  code_block_match p (FENCE ++ body ++ FENCE ++ post)
  = Some ([], (length body + 6)%nat).
Proof.
  intros Hbody.
  pose proof (span_until_stop BACKTICK body (BACKTICK :: BACKTICK :: post)
                Hbody) as Hs.
  unfold code_block_match.
  change (startswith FENCE (FENCE ++ body ++ FENCE ++ post)) with true.
  cbv iota.
  change (skipn 3 (FENCE ++ body ++ FENCE ++ post))
    with (body ++ BACKTICK :: BACKTICK :: BACKTICK :: post).
  rewrite Hs. reflexivity.
Qed.

(** The code-block substitution on one block between texts without
    backtick. *)
Lemma code_pass_block (pre body post : str) :
  Forall (fun c => c <> BACKTICK) pre ->
  Forall (fun c => c <> BACKTICK) body ->
  Forall (fun c => c <> BACKTICK) post ->
  re_sub code_block_match (pre ++ FENCE ++ body ++ FENCE ++ post)
  = pre ++ post.
Proof.
  intros Hpre Hbody Hpost. unfold re_sub.
  rewrite (re_sub_from_copy code_block_match (fun c => c = BACKTICK)
             code_block_match_prev code_block_match_other pre _ None Hpre).
  f_equal.
  pose proof (code_block_match_block None body post Hbody) as Hm.
  assert (Hshape : FENCE ++ body ++ FENCE ++ post
                   = BACKTICK :: ([BACKTICK; BACKTICK] ++ body ++ FENCE)
                       ++ post).
  { simpl. rewrite <- app_assoc. reflexivity. }
  rewrite Hshape in *.
  rewrite (re_sub_from_match code_block_match BACKTICK _ post [] None
             code_block_match_prev).
  - simpl. apply code_pass_id. exact Hpost.
  - rewrite Hm. do 2 f_equal. cbn [app length].
    rewrite length_app. simpl. lia.
Qed.

(** X16: a fenced code block is removed together with its content, the
    text around it is kept. *)
Theorem convert_md_to_txt_code_block (E : Env)
    (md_path output_path : str) (w : World) (pre body post : str) :
  read_text E md_path = Ok (pre ++ FENCE ++ body ++ FENCE ++ post) ->
  open_w E output_path = Ok tt ->
  markup_free pre -> markup_free body -> markup_free post ->
  convert_md_to_txt E md_path output_path w
  = (Ok true, add_files w [(output_path, TextFile (pre ++ post))]).
Proof.
  intros Hread Hwrite Hpre Hbody Hpost.
  rewrite (convert_md_to_txt_writes E _ _ w _ Hread Hwrite).
  destruct (markup_free_parts _ Hpre) as (P1 & P2 & P3 & P4).
  destruct (markup_free_parts _ Hbody) as (B1 & B2 & B3 & B4).
  destruct (markup_free_parts _ Hpost) as (Q1 & Q2 & Q3 & Q4).
  assert (Hfence : forall P : char -> Prop, P BACKTICK -> Forall P FENCE).
  { intros P HP. repeat constructor; exact HP. }
  rewrite md_to_txt_text_after_emphasis.
  - unfold re_sub at 3. rewrite link_pass_id.
    + rewrite image_pass_id.
      * apply f_equal. apply f_equal2; [reflexivity|]. f_equal. f_equal.
        f_equal. apply (code_pass_block pre body post P4 B4 Q4).
      * repeat (apply Forall_app; split); try assumption;
          apply Hfence; discriminate.
    + repeat (apply Forall_app; split); try assumption;
        apply Hfence; discriminate.
  - repeat (apply Forall_app; split); try assumption;
      apply Hfence; discriminate.
  - repeat (apply Forall_app; split); try assumption;
      apply Hfence; intros [Hc|Hc]; discriminate.
Qed.
End MdToTxtMarkers.

Lemma convert_md_to_txt_heading_marker_witness :
  convert_md_to_txt
    (env_text_file (lit "Total ##" ++ [NL; NL] ++ lit "42"))
    (lit "quote.md") (lit "quote.txt") empty_world
  = (Ok true,
     add_files empty_world [(lit "quote.txt", TextFile (lit "Total 42"))]).
Proof.
  apply (convert_md_to_txt_heading_marker
           (env_text_file (lit "Total ##" ++ [NL; NL] ++ lit "42"))
           (lit "quote.md") (lit "quote.txt") empty_world
           (lit "Total ") [NL; NL] (lit "42") 1%nat).
  - reflexivity.
  - reflexivity.
  - repeat constructor; discriminate.
  - repeat constructor; discriminate.
  - discriminate.
  - repeat constructor.
  - reflexivity.
Defined.

Lemma convert_md_to_txt_code_block_witness :
  convert_md_to_txt
    (env_text_file (lit "Run " ++ FENCE ++ lit "pip install x" ++ FENCE
                    ++ lit " first"))
    (lit "quote.md") (lit "quote.txt") empty_world
  = (Ok true,
     add_files empty_world [(lit "quote.txt", TextFile (lit "Run  first"))]).
Proof.
  apply (convert_md_to_txt_code_block
           (env_text_file (lit "Run " ++ FENCE ++ lit "pip install x" ++ FENCE
                           ++ lit " first"))
           (lit "quote.md") (lit "quote.txt") empty_world
           (lit "Run ") (lit "pip install x") (lit " first")).
  - reflexivity.
  - reflexivity.
  - repeat constructor; discriminate.
  - repeat constructor; discriminate.
  - repeat constructor; discriminate.
Defined.

(* ===================================================================== *)
(** * Properties of the dispatchers                                       *)
(* ===================================================================== *)

(** X17: a DOCX file converted through the dispatcher leaves its Markdown
    side file at the fixed path [bill_generator/bill.md], whatever the path
    and the letter case of the extension of the file converted. *)
Theorem convert_file_to_md_docx_side_file `{Unicode} (E : Env)
    (file_path : str) (w : World) (body : Document) :
  lower (path_suffix E file_path) = lit ".docx" ->
  docx_Document E file_path = Ok body ->
  open_w E BILL_MD = Ok tt ->
  convert_file_to_md E file_path w
  = (Ok (strip (docx_final_md body)),
     add_files w [(BILL_MD, TextFile (docx_final_md body))]).
Proof.
  intros Hext Hdoc Hw. unfold convert_file_to_md. rewrite Hext.
  change (str_eqb (lit ".docx") (lit ".pdf")) with false.
  change (str_eqb (lit ".docx") (lit ".docx")) with true. cbv iota.
  fold BILL_MD.
  unfold convert_docx_to_md, try_except, bind, call, write_text, bind, call.
  rewrite Hdoc, Hw. reflexivity.
Qed.

Lemma convert_file_to_md_docx_side_file_witness :
  convert_file_to_md (env_suffix (lit ".DOCX") price_table_document)
    (lit "uploads/offer.DOCX") empty_world
  = (Ok (strip (docx_final_md price_table_document)),
     add_files empty_world
       [(BILL_MD, TextFile (docx_final_md price_table_document))]).
Proof.
  apply (convert_file_to_md_docx_side_file
           (env_suffix (lit ".DOCX") price_table_document)
           (lit "uploads/offer.DOCX") empty_world price_table_document).
  - reflexivity.
  - reflexivity.
  - reflexivity.
Defined.

Lemma str_eqb_neq (a b : str) : a <> b -> str_eqb a b = false.
Proof.
  intros Hne. destruct (str_eqb a b) eqn:E; [|reflexivity].
  apply str_eqb_eq in E. contradiction.
Qed.

(** X18: for an extension that is none of [.pdf], [.docx], [.txt] (in any
    letter case) no converter runs: [convert_file_to_md] returns the
    message naming the lowercased extension and changes nothing;
    [convert_md_to_file] prints its message, returns [False] and writes no
    file. *)
Theorem dispatch_unsupported `{Unicode} (E : Env) (file_path md_path : str)
    (w : World) :
  ~ supported (lower (path_suffix E file_path)) ->
  convert_file_to_md E file_path w
  = (Ok (lit "Unsupported file format: " ++ lower (path_suffix E file_path)),
     w) /\
  convert_md_to_file E md_path file_path w
  = (Ok false,
     {| stdout := stdout w ++
          [Line (lit "Unsupported output format: "
                 ++ lower (path_suffix E file_path))];
        disk := disk w |}).
Proof.
  intros Hno. unfold supported in Hno.
  assert (H1 : str_eqb (lower (path_suffix E file_path)) (lit ".pdf") = false)
    by (apply str_eqb_neq; tauto).
  assert (H2 : str_eqb (lower (path_suffix E file_path)) (lit ".docx") = false)
    by (apply str_eqb_neq; tauto).
  assert (H3 : str_eqb (lower (path_suffix E file_path)) (lit ".txt") = false)
    by (apply str_eqb_neq; tauto).
  unfold convert_file_to_md, convert_md_to_file.
  rewrite H1, H2, H3. split; reflexivity.
Qed.

Lemma dispatch_unsupported_witness :
  convert_file_to_md (env_suffix (lit ".ODT") price_table_document)
    (lit "offer.ODT") empty_world
  = (Ok (lit "Unsupported file format: .odt"), empty_world) /\
  convert_md_to_file (env_suffix (lit ".ODT") price_table_document)
    (lit "quote.md") (lit "offer.ODT") empty_world
  = (Ok false,
     {| stdout := [Line (lit "Unsupported output format: .odt")];
        disk := [] |}).
Proof.
  refine (dispatch_unsupported
            (env_suffix (lit ".ODT") price_table_document)
            (lit "offer.ODT") (lit "quote.md") empty_world _).
  intros [Hc|[Hc|Hc]]; vm_compute in Hc; discriminate.
Defined.

(* ===================================================================== *)
(** * Emphasis from DOCX to plain text                                    *)
(* ===================================================================== *)

Section EmphasisFacts.
Context {U : Unicode}.

(** On a text without underscore the emphasis substitution removes the
    stars and nothing else. *)
Lemma emphasis_pass_filter (s : str) :
  Forall (fun c => c <> UNDERSCORE) s ->
  (forall p, re_sub_from emphasis_match O p s = without_stars s) /\
  (forall t q, s = STAR :: t ->
     re_sub_from emphasis_match 1 q s = without_stars s).
Proof.
  induction 1 as [|c t Hc Ht [IH1 IH2]].
  - split; [reflexivity | discriminate].
  - split.
    + intros p. rewrite re_sub_from_cons. unfold emphasis_match.
      unfold without_stars. cbn [filter]. fold (without_stars t).
      destruct (N.eqb c STAR) eqn:Estar; cbn [negb].
      * destruct t as [|d t']; [reflexivity|].
        destruct (N.eqb d STAR) eqn:Ed; cbn [Nat.pred app].
        -- apply N.eqb_eq in Ed. subst d. apply (IH2 t' (Some c) eq_refl).
        -- apply IH1.
      * destruct (N.eqb c UNDERSCORE) eqn:Eu;
          [apply N.eqb_eq in Eu; contradiction|].
        f_equal. apply IH1.
    + intros t' q Heq. injection Heq as -> ->.
      change (re_sub_from emphasis_match 1 q (STAR :: t'))
        with (re_sub_from emphasis_match O (Some STAR) t').
      rewrite IH1. reflexivity.
Qed.

Lemma without_stars_Forall (P : char -> Prop) (s : str) :
  Forall P s -> Forall P (without_stars s).
Proof.
  intros H. apply Forall_forall. intros c Hc.
  apply filter_In in Hc. rewrite Forall_forall in H. apply H, Hc.
Qed.


Lemma md_to_txt_text_stars_only (s : str) :
  stars_only s -> md_to_txt_text s = without_stars s.
Proof.
  intros H.
  assert (H1 : Forall (fun c => c <> HASH) s)
    by (eapply Forall_impl; [|exact H]; cbv beta; tauto).
  assert (H2 : Forall (fun c => c <> UNDERSCORE) s)
    by (eapply Forall_impl; [|exact H]; cbv beta; tauto).
  assert (H3 : Forall (fun c => c <> LBRACKET) s)
    by (eapply Forall_impl; [|exact H]; cbv beta; tauto).
  assert (H4 : Forall (fun c => c <> BACKTICK) s)
    by (eapply Forall_impl; [|exact H]; cbv beta; tauto).
  unfold md_to_txt_text. rewrite (header_pass_id s H1).
  unfold re_sub at 4.
  rewrite (proj1 (emphasis_pass_filter s H2) None).
  unfold re_sub at 3.
  rewrite (link_pass_id _ None (without_stars_Forall _ s H3)).
  rewrite (image_pass_id _ (without_stars_Forall _ s H3)).
  unfold re_sub. apply (code_pass_id _ None (without_stars_Forall _ s H4)).
Qed.





(** X19: in a text without hash, underscore, opening bracket and backtick
    the text converter removes the stars and nothing else. *)
Theorem convert_md_to_txt_removes_stars (E : Env)
    (md_path output_path : str) (w : World) (md_content : str) :
  read_text E md_path = Ok md_content ->
  open_w E output_path = Ok tt ->
  stars_only md_content ->
  convert_md_to_txt E md_path output_path w
  = (Ok true,
     add_files w [(output_path, TextFile (without_stars md_content))]).
Proof.
  intros Hread Hwrite Hs.
  rewrite (convert_md_to_txt_writes E _ _ w md_content Hread Hwrite).
  rewrite (md_to_txt_text_stars_only md_content Hs). reflexivity.
Qed.

End EmphasisFacts.

Lemma convert_md_to_txt_removes_stars_witness :
  convert_md_to_txt (env_text_file (lit "**Total**: 4*2 = *8*"))
    (lit "quote.md") (lit "quote.txt") empty_world
  = (Ok true,
     add_files empty_world
       [(lit "quote.txt", TextFile (lit "Total: 42 = 8"))]).
Proof.
  apply (convert_md_to_txt_removes_stars
           (env_text_file (lit "**Total**: 4*2 = *8*"))
           (lit "quote.md") (lit "quote.txt") empty_world
           (lit "**Total**: 4*2 = *8*")).
  - reflexivity.
  - reflexivity.
  - repeat constructor; discriminate.
Defined.


(* ===================================================================== *)
(** * The boolean returned and the output file                            *)
(* ===================================================================== *)

Lemma save_markdown_file_reports (E : Env) (markdown_content output_path : str) :
  reports_output output_path (save_markdown_file E markdown_content output_path).
Proof.
  intros w. unfold save_markdown_file, try_except, write_text, bind, call.
  destruct (open_w E output_path) as [[]|e].
  - left. eexists. split; reflexivity.
  - right. split; reflexivity.
Qed.

Lemma convert_docx_to_pdf_reports (E : Env) (docx_path output_path : str) :
  reports_output output_path (convert_docx_to_pdf E docx_path output_path).
Proof.
  intros w. unfold convert_docx_to_pdf, try_except, bind, call.
  destruct (docx_to_pdf_converter E docx_path output_path) as [[]|e].
  - left. eexists. split; reflexivity.
  - right. destruct (contains ENGINE_MISSING e); split; reflexivity.
Qed.

Lemma report_htmlbox_disk (v : HtmlBoxValue) (w : World) :
  fst (report_htmlbox v w) = Ok tt /\ disk (snd (report_htmlbox v w)) = disk w.
Proof.
  destruct v as [n|e shown|]; cbn [report_htmlbox].
  - destruct (n =? -1); [split; reflexivity|].
    destruct (n =? -2); split; reflexivity.
  - destruct (negb e); split; reflexivity.
  - split; reflexivity.
Qed.

Lemma convert_md_to_pdf_reports (E : Env) (md_path output_path : str) :
  reports_output output_path (convert_md_to_pdf E md_path output_path).
Proof.
  intros w. unfold convert_md_to_pdf, try_except, bind, call, print, store, ret.
  destruct (read_text E md_path) as [md_content|e];
    [|right; split; reflexivity].
  match goal with
  | |- context [markdown_markdown E ?a ?b] =>
      destruct (markdown_markdown E a b) as [html|e]
  end; [|right; split; reflexivity].
  match goal with
  | |- context [insert_htmlbox E ?a ?b] =>
      destruct (insert_htmlbox E a b) as [v|e]
  end; [|right; split; reflexivity].
  match goal with
  | |- context [report_htmlbox v ?w0] =>
      destruct (report_htmlbox_disk v w0) as [Hv Hd];
      destruct (report_htmlbox v w0) as [r w1]
  end.
  cbn [fst snd disk] in Hv, Hd. subst r.
  destruct (open_w E output_path) as [[]|e]; cbn [fst snd disk].
  - left. eexists. split; [reflexivity|]. rewrite Hd. reflexivity.
  - right. split; [reflexivity | exact Hd].
Qed.

Lemma convert_md_to_docx_reports (E : Env) (md_path output_path : str) :
  reports_output output_path (convert_md_to_docx E md_path output_path).
Proof.
  intros w. unfold convert_md_to_docx, try_except, bind, call.
  destruct (read_text E md_path) as [md_content|e];
    [|right; split; reflexivity].
  destruct (markdown_markdown E md_content []) as [html|e];
    [|right; split; reflexivity].
  pose proof (add_paragraphs_world E (split NL html) w) as Hworld.
  destruct (add_paragraphs E (split NL html) w) as [[paragraphs|e] w'];
    cbn [snd] in Hworld; subst w'; [|right; split; reflexivity].
  destruct (open_w E output_path) as [[]|e].
  - left. eexists. split; reflexivity.
  - right. split; reflexivity.
Qed.

Lemma convert_md_to_txt_reports `{Unicode} (E : Env)
    (md_path output_path : str) :
  reports_output output_path (convert_md_to_txt E md_path output_path).
Proof.
  intros w. unfold convert_md_to_txt, try_except, write_text, bind, call.
  destruct (read_text E md_path) as [md_content|e];
    [|right; split; reflexivity].
  destruct (open_w E output_path) as [[]|e].
  - left. eexists. split; reflexivity.
  - right. split; reflexivity.
Qed.

(** X21: for every behaviour of the files and libraries, the boolean a
    converter returns tells whether its output was written: with [True]
    exactly one file was added, at the output path; with [False] no file
    was added.  This holds for the five converters returning a boolean
    and for the dispatcher over them. *)
Theorem boolean_reports_output `{Unicode} (E : Env) (src dst : str) :
  reports_output dst (save_markdown_file E src dst) /\
  reports_output dst (convert_docx_to_pdf E src dst) /\
  reports_output dst (convert_md_to_pdf E src dst) /\
  reports_output dst (convert_md_to_docx E src dst) /\
  reports_output dst (convert_md_to_txt E src dst) /\
  reports_output dst (convert_md_to_file E src dst).
Proof.
  split; [apply save_markdown_file_reports|].
  split; [apply convert_docx_to_pdf_reports|].
  split; [apply convert_md_to_pdf_reports|].
  split; [apply convert_md_to_docx_reports|].
  split; [apply convert_md_to_txt_reports|].
  unfold convert_md_to_file.
  destruct (str_eqb _ (lit ".pdf")); [apply convert_md_to_pdf_reports|].
  destruct (str_eqb _ (lit ".docx")); [apply convert_md_to_docx_reports|].
  destruct (str_eqb _ (lit ".txt")); [apply convert_md_to_txt_reports|].
  intros w. right. split; reflexivity.
Qed.
(* ===================================================================== *)
(** * Properties of the chat application                                  *)
(* ===================================================================== *)

Lemma str_eqb_refl (a : str) : str_eqb a a = true.
Proof. apply str_eqb_eq. reflexivity. Qed.

Lemma state_get_set_same (state : App.SessionState) (key : str)
    (v : App.Value) :
  App.state_get (App.state_set state key v) key = Some v.
Proof.
  induction state as [|[k x] rest IH]; cbn [App.state_set App.state_get].
  - rewrite str_eqb_refl. reflexivity.
  - destruct (str_eqb k key) eqn:E; cbn [App.state_get]; rewrite E;
      [reflexivity | exact IH].
Qed.

Lemma state_get_set_other (state : App.SessionState) (key key' : str)
    (v : App.Value) :
  key <> key' ->
  App.state_get (App.state_set state key v) key' = App.state_get state key'.
Proof.
  intros Hne.
  induction state as [|[k x] rest IH]; cbn [App.state_set App.state_get].
  - rewrite (str_eqb_neq key key' Hne). reflexivity.
  - destruct (str_eqb k key) eqn:E; cbn [App.state_get].
    + apply str_eqb_eq in E. subst k.
      rewrite (str_eqb_neq key key' Hne). reflexivity.
    + destruct (str_eqb k key'); [reflexivity | exact IH].
Qed.

Lemma state_set_set (state : App.SessionState) (key : str)
    (v v' : App.Value) :
  App.state_set (App.state_set state key v) key v'
  = App.state_set state key v'.
Proof.
  induction state as [|[k x] rest IH]; cbn [App.state_set].
  - rewrite str_eqb_refl. reflexivity.
  - destruct (str_eqb k key) eqn:E; cbn [App.state_set]; rewrite E;
      [reflexivity | rewrite IH; reflexivity].
Qed.

(** Two keys that end with different characters differ. *)
Lemma ends_differ (a b : str) (x y : char) :
  x <> y -> a ++ [x] <> b ++ [y].
Proof. intros Hne Heq. apply app_inj_tail in Heq. tauto. Qed.

Lemma messages_key_not_info (d d' : str) :
  App.messages_key d <> App.uploaded_file_info_key d'.
Proof.
  unfold App.messages_key, App.uploaded_file_info_key.
  change (lit "_messages") with (lit "_message" ++ [115%N]).
  change (lit "_uploaded_file_info") with (lit "_uploaded_file_inf" ++ [111%N]).
  rewrite !app_assoc. apply ends_differ. discriminate.
Qed.

Lemma messages_key_not_last (d d' : str) :
  App.messages_key d <> App.last_uploaded_filename_key d'.
Proof.
  unfold App.messages_key, App.last_uploaded_filename_key.
  change (lit "_messages") with (lit "_message" ++ [115%N]).
  change (lit "_last_uploaded_filename")
    with (lit "_last_uploaded_filenam" ++ [101%N]).
  rewrite !app_assoc. apply ends_differ. discriminate.
Qed.

Lemma info_key_not_last (d d' : str) :
  App.uploaded_file_info_key d <> App.last_uploaded_filename_key d'.
Proof.
  unfold App.uploaded_file_info_key, App.last_uploaded_filename_key.
  change (lit "_uploaded_file_info") with (lit "_uploaded_file_inf" ++ [111%N]).
  change (lit "_last_uploaded_filename")
    with (lit "_last_uploaded_filenam" ++ [101%N]).
  rewrite !app_assoc. apply ends_differ. discriminate.
Qed.

Lemma messages_key_not_current `{Unicode} (d d' : str) :
  App.messages_key d <> App.current_md_key d'.
Proof.
  unfold App.messages_key, App.current_md_key.
  change (lit "_messages") with (lit "_message" ++ [115%N]).
  change (lit "_md") with (lit "_m" ++ [100%N]).
  rewrite !app_assoc. apply ends_differ. discriminate.
Qed.

Lemma info_key_not_current `{Unicode} (d d' : str) :
  App.uploaded_file_info_key d <> App.current_md_key d'.
Proof.
  unfold App.uploaded_file_info_key, App.current_md_key.
  change (lit "_uploaded_file_info") with (lit "_uploaded_file_inf" ++ [111%N]).
  change (lit "_md") with (lit "_m" ++ [100%N]).
  rewrite !app_assoc. apply ends_differ. discriminate.
Qed.

Lemma last_key_not_current `{Unicode} (d d' : str) :
  App.last_uploaded_filename_key d <> App.current_md_key d'.
Proof.
  unfold App.last_uploaded_filename_key, App.current_md_key.
  change (lit "_last_uploaded_filename")
    with (lit "_last_uploaded_filenam" ++ [101%N]).
  change (lit "_md") with (lit "_m" ++ [100%N]).
  rewrite !app_assoc. apply ends_differ. discriminate.
Qed.

Lemma messages_key_not_system (d : str) :
  App.messages_key d <> lit "system_prompt".
Proof.
  unfold App.messages_key.
  change (lit "_messages") with (lit "_message" ++ [115%N]).
  change (lit "system_prompt") with (lit "system_promp" ++ [116%N]).
  rewrite !app_assoc. apply ends_differ. discriminate.
Qed.

Lemma info_key_not_system (d : str) :
  App.uploaded_file_info_key d <> lit "system_prompt".
Proof.
  unfold App.uploaded_file_info_key.
  change (lit "_uploaded_file_info") with (lit "_uploaded_file_inf" ++ [111%N]).
  change (lit "system_prompt") with (lit "system_promp" ++ [116%N]).
  rewrite !app_assoc. apply ends_differ. discriminate.
Qed.

Lemma last_key_not_system (d : str) :
  App.last_uploaded_filename_key d <> lit "system_prompt".
Proof.
  unfold App.last_uploaded_filename_key.
  change (lit "_last_uploaded_filename")
    with (lit "_last_uploaded_filenam" ++ [101%N]).
  change (lit "system_prompt") with (lit "system_promp" ++ [116%N]).
  rewrite !app_assoc. apply ends_differ. discriminate.
Qed.

Lemma messages_key_not_template (d : str) :
  App.messages_key d <> lit "quotation_extraction_prompt_template" /\
  App.messages_key d <> lit "bill_extraction_prompt_template".
Proof.
  unfold App.messages_key.
  change (lit "_messages") with (lit "_message" ++ [115%N]).
  change (lit "quotation_extraction_prompt_template")
    with (lit "quotation_extraction_prompt_templat" ++ [101%N]).
  change (lit "bill_extraction_prompt_template")
    with (lit "bill_extraction_prompt_templat" ++ [101%N]).
  rewrite !app_assoc. split; apply ends_differ; discriminate.
Qed.

Lemma lookup_set_same (state : App.SessionState) (key : str)
    (v default : App.Value) :
  lookup (App.state_set state key v) key default = v.
Proof. unfold lookup. rewrite state_get_set_same. reflexivity. Qed.

Lemma lookup_set_other (state : App.SessionState) (key key' : str)
    (v default : App.Value) :
  key <> key' ->
  lookup (App.state_set state key v) key' default = lookup state key' default.
Proof.
  intros Hne. unfold lookup. rewrite (state_get_set_other _ _ _ _ Hne).
  reflexivity.
Qed.

Lemma history_of_set (state : App.SessionState) (d : str)
    (messages : list App.Message) :
  history_of (App.state_set state (App.messages_key d)
                (App.VMessages messages)) d = messages.
Proof. unfold history_of. rewrite state_get_set_same. reflexivity. Qed.

Lemma history_of_set_other (state : App.SessionState) (d key : str)
    (v : App.Value) :
  key <> App.messages_key d ->
  history_of (App.state_set state key v) d = history_of state d.
Proof.
  intros Hne. unfold history_of. rewrite (state_get_set_other _ _ _ _ Hne).
  reflexivity.
Qed.

(** The message [add_message_to_history] builds. *)
Lemma add_message_to_history_ready (role : str) (content : option str)
    (d : str) (image_bytes : option (list N)) (image_caption : option str)
    (w : App.AppWorld) :
  history_ready (App.session_state w) d ->
  App.add_message_to_history role content d image_bytes image_caption w
  = (Ok tt,
     {| App.session_state :=
          App.state_set (App.session_state w) (App.messages_key d)
            (App.VMessages
               (history_of (App.session_state w) d ++
                [{| App.msg_role := role;
                    App.msg_content := content;
                    App.msg_image :=
                      match image_bytes, image_caption with
                      | Some b, Some c =>
                          if App.nonempty b && App.nonempty c
                          then Some (b, c) else None
                      | _, _ => None
                      end |}]));
        App.page := App.page w;
        App.requests := App.requests w |}).
Proof.
  intros Hready. unfold App.add_message_to_history, history_of.
  unfold App.bind, App.session_contains, App.session_set, App.session_item,
    App.ret.
  destruct Hready as [Hnone | [messages Hsome]].
  - rewrite Hnone. cbn [negb App.session_state].
    rewrite state_get_set_same. cbn [App.session_state App.page App.requests].
    rewrite state_set_set. reflexivity.
  - rewrite Hsome. cbn [negb]. rewrite Hsome. reflexivity.
Qed.

Lemma history_contents_run (messages : list App.Message) (w : App.AppWorld) :
  App.history_contents messages w
  = (Ok (List.map api_content (filter valid_role messages)),
     {| App.session_state := App.session_state w;
        App.page := App.page w ++ role_warnings messages;
        App.requests := App.requests w |}).
Proof.
  revert w. induction messages as [|msg rest IH]; intros w.
  - unfold role_warnings. cbn [App.history_contents filter List.map App.ret].
    rewrite app_nil_r. destruct w; reflexivity.
  - assert (Hfilter : filter valid_role (msg :: rest)
                      = if valid_role msg then msg :: filter valid_role rest
                        else filter valid_role rest) by reflexivity.
    assert (Hwarn : role_warnings (msg :: rest)
                    = if valid_role msg then role_warnings rest
                      else App.st_warning
                             (lit "Skipping historical message with invalid role: "
                              ++ App.msg_role msg) :: role_warnings rest).
    { unfold role_warnings. cbn [filter].
      destruct (valid_role msg); reflexivity. }
    rewrite Hfilter, Hwarn. clear Hfilter Hwarn.
    cbn [App.history_contents].
    destruct (str_eqb (App.msg_role msg) (lit "assistant")) eqn:Ea.
    + assert (Hv : valid_role msg = true)
        by (unfold valid_role; rewrite Ea, orb_true_r; reflexivity).
      assert (Hc : api_content msg
                   = {| App.role := lit "model";
                        App.parts := [App.from_text (App.msg_content msg)] |})
        by (unfold api_content; rewrite Ea; reflexivity).
      rewrite Hv. cbn [List.map]. rewrite Hc.
      change (str_eqb (lit "model") (lit "user")
              || str_eqb (lit "model") (lit "model")) with true.
      cbv iota. unfold App.bind. rewrite IH. reflexivity.
    + assert (Hv : valid_role msg
                   = (str_eqb (App.msg_role msg) (lit "user")
                      || str_eqb (App.msg_role msg) (lit "model")))
        by (unfold valid_role; rewrite Ea, orb_false_r; reflexivity).
      assert (Hc : api_content msg
                   = {| App.role := App.msg_role msg;
                        App.parts := [App.from_text (App.msg_content msg)] |})
        by (unfold api_content; rewrite Ea; reflexivity).
      rewrite Hv.
      destruct (str_eqb (App.msg_role msg) (lit "user")
                || str_eqb (App.msg_role msg) (lit "model")).
      * cbn [List.map]. rewrite Hc. unfold App.bind. rewrite IH. reflexivity.
      * unfold App.bind, App.show. rewrite IH.
        cbn [App.session_state App.page App.requests].
        rewrite <- app_assoc. reflexivity.
Qed.

Lemma request_step (E : App.AppEnv) (doc_type_name : str)
    `{Unicode} (contents : list App.Content) (w : App.AppWorld) :
  history_ready (App.session_state w) doc_type_name ->
  App.try_except
    (App.bind (App.send contents) (fun _ =>
     App.bind (App.call (App.generate_content E contents))
       (fun ai_response_text =>
     App.bind (App.call (App.markdown E ai_response_text)) (fun _ =>
     App.bind (App.show (App.st_markdown ai_response_text)) (fun _ =>
     App.bind (App.add_message_to_history (lit "assistant") ai_response_text
                 doc_type_name None None) (fun _ =>
     App.session_set (App.current_md_key doc_type_name)
       (App.value_of_text ai_response_text)))))))
    (fun e =>
       App.bind (App.show (App.st_error (lit "Error with Gemini API: " ++ e)))
         (fun _ =>
       App.add_message_to_history (lit "assistant")
         (Some (lit "Error with Gemini API: " ++ e)) doc_type_name None None))
    w
  = (Ok tt,
     {| App.session_state :=
          after_request (App.session_state w) doc_type_name
            (history_of (App.session_state w) doc_type_name)
            (api_outcome E contents);
        App.page := App.page w ++ [outcome_shown (api_outcome E contents)];
        App.requests := App.requests w ++ [contents] |}).
Proof.
  intros Hready. unfold App.try_except, api_outcome, after_request.
  unfold App.bind at 1, App.send at 1.
  unfold App.bind at 1, App.call at 1.
  destruct (App.generate_content E contents) as [text|e].
  - unfold App.bind at 1, App.call at 1.
    destruct (App.markdown E text) as [[]|e].
    + unfold App.bind at 1, App.show at 1.
      cbn [App.session_state App.page App.requests].
      unfold App.bind at 1.
      rewrite add_message_to_history_ready by exact Hready.
      reflexivity.
    + unfold App.bind at 1, App.show at 1.
      rewrite add_message_to_history_ready by exact Hready.
      reflexivity.
  - unfold App.bind at 1, App.show at 1.
    rewrite add_message_to_history_ready by exact Hready.
    reflexivity.
Qed.

Lemma session_get_run (key : str) (default : App.Value) (w : App.AppWorld) :
  App.session_get key default w
  = (Ok (lookup (App.session_state w) key default), w).
Proof. reflexivity. Qed.

Lemma bind_ok {T T' : Type} (m : App.A T) (k : T -> App.A T')
    (w w' : App.AppWorld) (a : T) :
  m w = (Ok a, w') -> App.bind m k w = k a w'.
Proof. intros Hm. unfold App.bind. rewrite Hm. reflexivity. Qed.

Lemma bind_bind {T T' T'' : Type} (m : App.A T) (k : T -> App.A T')
    (k' : T' -> App.A T'') (w : App.AppWorld) :
  App.bind (App.bind m k) k' w
  = App.bind m (fun a => App.bind (k a) k') w.
Proof. unfold App.bind. destruct (m w) as [[a|e] w']; reflexivity. Qed.

(** One step of a run: the binds are put in a row and the world read. *)
Ltac app_step :=
  cbv beta iota;
  cbn [App.session_state App.page App.requests];
  rewrite ?bind_bind.

Lemma history_ready_set (state : App.SessionState) (d : str)
    (messages : list App.Message) :
  history_ready (App.state_set state (App.messages_key d)
                   (App.VMessages messages)) d.
Proof. right. exists messages. apply state_get_set_same. Qed.

Lemma history_ready_set_other (state : App.SessionState) (d key : str)
    (v : App.Value) :
  key <> App.messages_key d -> history_ready state d ->
  history_ready (App.state_set state key v) d.
Proof.
  intros Hne Hready. unfold history_ready.
  rewrite (state_get_set_other _ _ _ _ Hne). exact Hready.
Qed.

(** The request sent for a prompt, and the session after it. *)
Lemma request_model_run `{Unicode} (E : App.AppEnv) (d prompt : str)
    (image_part : option App.Part) (w : App.AppWorld)
    (system_prompt_text : str) (history : list App.Message)
    (current : App.Message) :
  lookup (App.session_state w) (lit "system_prompt") (App.VStr [])
  = App.VStr system_prompt_text ->
  App.state_get (App.session_state w) (App.messages_key d)
  = Some (App.VMessages (history ++ [current])) ->
  App.request_model E d prompt image_part w
  = (Ok tt,
     {| App.session_state :=
          after_request (App.session_state w) d (history ++ [current])
            (api_outcome E
               (request_contents system_prompt_text history image_part
                  prompt));
        App.page :=
          App.page w ++ role_warnings history ++
          [outcome_shown
             (api_outcome E
                (request_contents system_prompt_text history image_part
                   prompt))];
        App.requests :=
          App.requests w ++
          [request_contents system_prompt_text history image_part prompt] |}).
Proof.
  intros Hsys Hmessages. unfold App.request_model.
  rewrite (bind_ok _ _ _ _ _ (session_get_run _ _ _)), Hsys.
  assert (Hfirst :
    (if App.nonempty (strip system_prompt_text)
     then App.ret [{| App.role := lit "user";
                      App.parts := [App.from_text (Some system_prompt_text)] |}]
     else App.ret []) w
    = (Ok (system_contents system_prompt_text), w)).
  { unfold system_contents.
    destruct (App.nonempty (strip system_prompt_text)); reflexivity. }
  rewrite (bind_ok _ _ _ _ _ Hfirst).
  rewrite (bind_ok _ _ _ _ _ (session_get_run _ _ _)).
  unfold lookup at 1. rewrite Hmessages.
  rewrite removelast_last.
  rewrite (bind_ok _ _ _ _ _ (history_contents_run history w)).
  assert (Hcontents :
    system_contents system_prompt_text
    ++ List.map api_content (filter valid_role history)
    ++ [{| App.role := lit "user";
           App.parts :=
             match image_part with
             | Some part => part :: [App.from_text (Some prompt)]
             | None => [App.from_text (Some prompt)]
             end |}]
    = request_contents system_prompt_text history image_part prompt).
  { unfold request_contents, prompt_content.
    destruct image_part; reflexivity. }
  rewrite Hcontents.
  rewrite request_step.
  - cbn [App.session_state App.page App.requests].
    assert (Hh : history_of (App.session_state w) d = history ++ [current])
      by (unfold history_of; rewrite Hmessages; reflexivity).
    rewrite Hh, <- app_assoc. reflexivity.
  - right. exists (history ++ [current]). exact Hmessages.
Qed.

Lemma show_run (s : App.Shown) (w : App.AppWorld) :
  App.show s w
  = (Ok tt, {| App.session_state := App.session_state w;
               App.page := App.page w ++ [s];
               App.requests := App.requests w |}).
Proof. reflexivity. Qed.

Lemma nonempty_strip (s : str) :
  strip s <> [] -> negb (App.nonempty (strip s)) = false.
Proof. destruct (strip s); [congruence | reflexivity]. Qed.

(** A chat turn with no upload pending. *)
Lemma chat_plain_run `{Unicode} (E : App.AppEnv) (d user_chat_input : str)
    (w : App.AppWorld) (system_prompt_text : str) :
  history_ready (App.session_state w) d ->
  App.truthy (lookup (App.session_state w) (App.uploaded_file_info_key d)
                App.VNone) = false ->
  lookup (App.session_state w) (lit "system_prompt") (App.VStr [])
  = App.VStr system_prompt_text ->
  strip (plain_prompt E (App.session_state w) d user_chat_input) <> [] ->
  App.run_chat_interface_chat E d user_chat_input w
  = (Ok tt,
     {| App.session_state :=
          after_request
            (App.state_set (App.session_state w) (App.messages_key d)
               (App.VMessages
                  (history_of (App.session_state w) d
                   ++ [text_message (lit "user") (Some user_chat_input)])))
            d
            (history_of (App.session_state w) d
             ++ [text_message (lit "user") (Some user_chat_input)])
            (api_outcome E
               (request_contents system_prompt_text
                  (history_of (App.session_state w) d) None
                  (plain_prompt E (App.session_state w) d user_chat_input)));
        App.page :=
          App.page w
          ++ [plain_debug (App.session_state w) d]
          ++ role_warnings (history_of (App.session_state w) d)
          ++ [outcome_shown
                (api_outcome E
                   (request_contents system_prompt_text
                      (history_of (App.session_state w) d) None
                      (plain_prompt E (App.session_state w) d
                         user_chat_input)));
              App.st_rerun];
        App.requests :=
          App.requests w
          ++ [request_contents system_prompt_text
                (history_of (App.session_state w) d) None
                (plain_prompt E (App.session_state w) d user_chat_input)] |}).
Proof.
  intros Hready Hinfo Hsys Hprompt.
  unfold App.run_chat_interface_chat.
  rewrite (bind_ok _ _ _ _ _
             (add_message_to_history_ready _ _ d None None w Hready)).
  rewrite (bind_ok _ _ _ _ _ (session_get_run _ _ _)).
  cbn [App.session_state].
  rewrite (lookup_set_other _ _ _ _ _ (messages_key_not_info d d)).
  rewrite (bind_ok _ _ _ _ _ (session_get_run _ _ _)).
  cbn [App.session_state].
  rewrite (lookup_set_other _ _ _ _ _ (messages_key_not_current d d)).
  unfold App.select_prompt. rewrite Hinfo.
  unfold plain_prompt, plain_debug in *.
  assert (Hsys1 : forall page requests,
    lookup (App.session_state
              {| App.session_state :=
                   App.state_set (App.session_state w) (App.messages_key d)
                     (App.VMessages
                        (history_of (App.session_state w) d
                         ++ [text_message (lit "user") (Some user_chat_input)]));
                 App.page := page; App.requests := requests |})
      (lit "system_prompt") (App.VStr [])
    = App.VStr system_prompt_text).
  { intros page requests. cbn [App.session_state].
    rewrite (lookup_set_other _ _ _ _ _ (messages_key_not_system d)).
    exact Hsys. }
  destruct (App.truthy (lookup (App.session_state w) (App.current_md_key d)
                          App.VNone)).
  - rewrite (bind_ok _ _ _ _ _
               (bind_ok _ _ _ _ _ (show_run _ _))).
    unfold App.ret at 1. cbn [App.session_state App.page App.requests].
    rewrite (nonempty_strip _ Hprompt).
    unfold App.bind at 1, App.ret at 1. cbv beta iota.
    rewrite (bind_ok _ _ _ _ _
               (request_model_run E d _ None _ system_prompt_text
                  (history_of (App.session_state w) d)
                  (text_message (lit "user") (Some user_chat_input))
                  (Hsys1 _ _) (state_get_set_same _ _ _))).
    rewrite show_run. cbn [App.session_state App.page App.requests].
    rewrite <- !app_assoc. reflexivity.
  - rewrite (bind_ok _ _ _ _ _
               (bind_ok _ _ _ _ _ (show_run _ _))).
    unfold App.ret at 1. cbn [App.session_state App.page App.requests].
    rewrite (nonempty_strip _ Hprompt).
    unfold App.bind at 1, App.ret at 1. cbv beta iota.
    rewrite (bind_ok _ _ _ _ _
               (request_model_run E d _ None _ system_prompt_text
                  (history_of (App.session_state w) d)
                  (text_message (lit "user") (Some user_chat_input))
                  (Hsys1 _ _) (state_get_set_same _ _ _))).
    rewrite show_run. cbn [App.session_state App.page App.requests].
    rewrite <- !app_assoc. reflexivity.
Qed.

Lemma template_get_run (d : str) (w : App.AppWorld) :
  (if str_eqb d (lit "Quotation")
   then App.session_get (lit "quotation_extraction_prompt_template")
          (App.VStr [])
   else App.session_get (lit "bill_extraction_prompt_template")
          (App.VStr [])) w
  = (Ok (lookup (App.session_state w) (template_key d) (App.VStr [])), w).
Proof. unfold template_key. destruct (str_eqb d (lit "Quotation")); reflexivity. Qed.

Lemma messages_key_not_template_key (d d' : str) :
  App.messages_key d <> template_key d'.
Proof.
  unfold template_key. destruct (messages_key_not_template d) as [Hq Hb].
  destruct (str_eqb d' (lit "Quotation")); assumption.
Qed.

Lemma session_set_run (key : str) (v : App.Value) (w : App.AppWorld) :
  App.session_set key v w
  = (Ok tt, {| App.session_state := App.state_set (App.session_state w) key v;
               App.page := App.page w;
               App.requests := App.requests w |}).
Proof. reflexivity. Qed.

(** A chat turn with an upload pending whose data and type are there. *)
Lemma chat_pending_run `{Unicode} (E : App.AppEnv) (d user_chat_input : str)
    (w : App.AppWorld) (info : App.UploadedInfo)
    (template prompt system_prompt_text : str) :
  history_ready (App.session_state w) d ->
  lookup (App.session_state w) (App.uploaded_file_info_key d) App.VNone
  = App.VInfo info ->
  App.info_data info <> [] -> App.info_type info <> [] ->
  lookup (App.session_state w) (template_key d) (App.VStr [])
  = App.VStr template ->
  App.str_format E template d = Ok prompt ->
  strip prompt <> [] ->
  lookup (App.session_state w) (lit "system_prompt") (App.VStr [])
  = App.VStr system_prompt_text ->
  App.run_chat_interface_chat E d user_chat_input w
  = (Ok tt,
     {| App.session_state :=
          after_request
            (App.state_set
               (App.state_set
                  (App.state_set (App.session_state w) (App.messages_key d)
                     (App.VMessages
                        (history_of (App.session_state w) d
                         ++ [text_message (lit "user")
                               (Some user_chat_input)])))
                  (App.uploaded_file_info_key d) App.VNone)
               (App.last_uploaded_filename_key d) App.VNone)
            d
            (history_of (App.session_state w) d
             ++ [text_message (lit "user") (Some user_chat_input)])
            (api_outcome E
               (request_contents system_prompt_text
                  (history_of (App.session_state w) d)
                  (Some (App.inline_data (App.info_data info)
                           (App.info_type info)))
                  prompt));
        App.page :=
          App.page w
          ++ [App.st_write
                (lit "Debug: Prioritizing processing of previously uploaded file: "
                 ++ App.info_name info)]
          ++ role_warnings (history_of (App.session_state w) d)
          ++ [outcome_shown
                (api_outcome E
                   (request_contents system_prompt_text
                      (history_of (App.session_state w) d)
                      (Some (App.inline_data (App.info_data info)
                               (App.info_type info)))
                      prompt));
              App.st_rerun];
        App.requests :=
          App.requests w
          ++ [request_contents system_prompt_text
                (history_of (App.session_state w) d)
                (Some (App.inline_data (App.info_data info)
                         (App.info_type info)))
                prompt] |}).
Proof.
  intros Hready Hinfo Hdata Hmime Htemplate Hformat Hprompt Hsys.
  unfold App.run_chat_interface_chat.
  rewrite (bind_ok _ _ _ _ _
             (add_message_to_history_ready _ _ d None None w Hready)).
  rewrite (bind_ok _ _ _ _ _ (session_get_run _ _ _)).
  cbn [App.session_state].
  rewrite (lookup_set_other _ _ _ _ _ (messages_key_not_info d d)).
  rewrite (bind_ok _ _ _ _ _ (session_get_run _ _ _)).
  cbn [App.session_state].
  rewrite (lookup_set_other _ _ _ _ _ (messages_key_not_current d d)).
  unfold App.select_prompt. rewrite Hinfo. cbn [App.truthy].
  cbv beta iota zeta.
  assert (Hne : App.nonempty (App.info_data info)
                && App.nonempty (App.info_type info) = true).
  { destruct (App.info_data info); [congruence|].
    destruct (App.info_type info); [congruence|]. reflexivity. }
  rewrite Hne. app_step.
  rewrite (bind_ok _ _ _ _ _ (show_run _ _)). app_step.
  rewrite (bind_ok _ _ _ _ _ (template_get_run _ _)). app_step.
  rewrite (lookup_set_other _ _ _ _ _ (messages_key_not_template_key d d)).
  rewrite Htemplate. app_step.
  unfold App.bind at 1, App.call at 1. rewrite Hformat. app_step.
  unfold App.bind at 1, App.ret at 1. app_step.
  rewrite (bind_ok _ _ _ _ _ (session_set_run _ _ _)). app_step.
  rewrite (bind_ok _ _ _ _ _ (session_set_run _ _ _)). app_step.
  unfold App.bind at 1, App.ret at 1. app_step.
  rewrite (nonempty_strip _ Hprompt).
  unfold App.bind at 1, App.ret at 1. cbv beta iota.
  assert (Hsys3 : forall state,
    lookup (App.state_set
              (App.state_set
                 (App.state_set (App.session_state w) (App.messages_key d)
                    state)
                 (App.uploaded_file_info_key d) App.VNone)
              (App.last_uploaded_filename_key d) App.VNone)
      (lit "system_prompt") (App.VStr [])
    = App.VStr system_prompt_text).
  { intros state.
    rewrite (lookup_set_other _ _ _ _ _ (last_key_not_system d)).
    rewrite (lookup_set_other _ _ _ _ _ (info_key_not_system d)).
    rewrite (lookup_set_other _ _ _ _ _ (messages_key_not_system d)).
    exact Hsys. }
  assert (Hm3 : forall state,
    App.state_get
      (App.state_set
         (App.state_set
            (App.state_set (App.session_state w) (App.messages_key d) state)
            (App.uploaded_file_info_key d) App.VNone)
         (App.last_uploaded_filename_key d) App.VNone)
      (App.messages_key d)
    = Some state).
  { intros state.
    rewrite (state_get_set_other _ _ _ _
               (fun Heq => messages_key_not_last d d (eq_sym Heq))).
    rewrite (state_get_set_other _ _ _ _
               (fun Heq => messages_key_not_info d d (eq_sym Heq))).
    apply state_get_set_same. }
  match goal with
  | |- App.bind (App.request_model _ _ ?p ?img) _ ?w0 = _ =>
      rewrite (bind_ok _ _ _ _ _
                 (request_model_run E d p img w0 system_prompt_text
                    (history_of (App.session_state w) d)
                    (text_message (lit "user") (Some user_chat_input))
                    (Hsys3 _) (Hm3 _)))
  end.
  rewrite show_run. cbn [App.session_state App.page App.requests].
  rewrite <- !app_assoc. reflexivity.
Qed.

Lemma request_contents_roles (system_prompt_text : str)
    (history : list App.Message) (image_part : option App.Part)
    (prompt : str) :
  Forall (fun content => App.role content = lit "user" \/
                         App.role content = lit "model")
    (request_contents system_prompt_text history image_part prompt).
Proof.
  unfold request_contents. apply Forall_app. split.
  - unfold system_contents.
    destruct (App.nonempty (strip system_prompt_text));
      repeat constructor.
  - apply Forall_app. split; [|repeat constructor].
    apply Forall_map. apply Forall_forall. intros msg Hin.
    apply filter_In in Hin. destruct Hin as [_ Hvalid].
    unfold valid_role in Hvalid. unfold api_content. cbn [App.role].
    destruct (str_eqb (App.msg_role msg) (lit "assistant"));
      [right; reflexivity|].
    rewrite orb_false_r in Hvalid. apply orb_true_iff in Hvalid.
    destruct Hvalid as [Hu | Hm]; apply str_eqb_eq in Hu || apply str_eqb_eq in Hm;
      tauto.
Qed.

Lemma after_request_history `{Unicode} (state : App.SessionState) (d : str)
    (history : list App.Message) (outcome : result (option str)) :
  history_of (after_request state d history outcome) d
  = history ++ [reply_message outcome].
Proof.
  unfold after_request. destruct outcome as [text|e].
  - rewrite history_of_set_other
      by (intros Heq; exact (messages_key_not_current d d (eq_sym Heq))).
    apply history_of_set.
  - apply history_of_set.
Qed.

Lemma after_request_current `{Unicode} (state : App.SessionState) (d : str)
    (history : list App.Message) (outcome : result (option str)) :
  lookup (after_request state d history outcome) (App.current_md_key d)
    App.VNone
  = match outcome with
    | Ok text => App.value_of_text text
    | Raise _ => lookup state (App.current_md_key d) App.VNone
    end.
Proof.
  unfold after_request. destruct outcome as [text|e].
  - apply lookup_set_same.
  - apply lookup_set_other. apply messages_key_not_current.
Qed.

Lemma after_request_other `{Unicode} (state : App.SessionState) (d key : str)
    (history : list App.Message) (outcome : result (option str)) :
  key <> App.messages_key d -> key <> App.current_md_key d ->
  App.state_get (after_request state d history outcome) key
  = App.state_get state key.
Proof.
  intros Hm Hc. unfold after_request. destruct outcome as [text|e].
  - rewrite state_get_set_other by congruence.
    apply state_get_set_other. congruence.
  - apply state_get_set_other. congruence.
Qed.

(** X22: [add_message_to_history] adds exactly one message, at the end of
    the history of its document type, and leaves every other entry of the
    session alone; the image is kept only when both its bytes and its
    caption are given and not empty. *)
Theorem add_message_to_history_appends (role : str) (content : option str)
    (d : str) (image_bytes : option (list N)) (image_caption : option str)
    (w : App.AppWorld) :
  history_ready (App.session_state w) d ->
  exists w' message,
    App.add_message_to_history role content d image_bytes image_caption w
    = (Ok tt, w') /\
    history_of (App.session_state w') d
    = history_of (App.session_state w) d ++ [message] /\
    App.msg_role message = role /\ App.msg_content message = content /\
    (forall b c, App.msg_image message = Some (b, c) <->
       image_bytes = Some b /\ image_caption = Some c /\ b <> [] /\ c <> []) /\
    (forall key, key <> App.messages_key d ->
       App.state_get (App.session_state w') key
       = App.state_get (App.session_state w) key) /\
    App.page w' = App.page w /\ App.requests w' = App.requests w.
Proof.
  intros Hready. eexists. eexists. split.
  { apply add_message_to_history_ready. exact Hready. }
  cbn [App.session_state App.page App.requests App.msg_role App.msg_content
       App.msg_image].
  split; [apply history_of_set|].
  split; [reflexivity|]. split; [reflexivity|].
  split; [|split; [|split; reflexivity]].
  - intros b c.
    destruct image_bytes as [b0|], image_caption as [c0|];
      try (split; [discriminate | intros (Hb & Hc & _); discriminate]).
    destruct b0 as [|x b0]; cbn [App.nonempty andb].
    + split; [discriminate|]. intros (Hb & _ & Hne & _).
      injection Hb as <-. congruence.
    + destruct c0 as [|y c0]; cbn [App.nonempty].
      * split; [discriminate|]. intros (_ & Hc & _ & Hne).
        injection Hc as <-. congruence.
      * split.
        -- intros Heq. injection Heq as <- <-.
           repeat split; discriminate.
        -- intros (Hb & Hc & _). injection Hb as <-. injection Hc as <-.
           reflexivity.
  - intros key Hkey. apply state_get_set_other. congruence.
Qed.

(** X23: in a chat turn with no upload pending, the request to the model
    is made of the system prompt (if not blank) as a first user message,
    the earlier messages that have a valid role, in order, text only and
    with [assistant] renamed [model], and last the prompt: the text typed,
    put after the current document when there is one.  Every role sent is
    [user] or [model]. *)
Theorem chat_request_contents `{Unicode} (E : App.AppEnv)
    (d user_chat_input : str) (w : App.AppWorld) (system_prompt_text : str) :
  history_ready (App.session_state w) d ->
  App.truthy (lookup (App.session_state w) (App.uploaded_file_info_key d)
                App.VNone) = false ->
  lookup (App.session_state w) (lit "system_prompt") (App.VStr [])
  = App.VStr system_prompt_text ->
  strip (plain_prompt E (App.session_state w) d user_chat_input) <> [] ->
  App.requests (snd (App.run_chat_interface_chat E d user_chat_input w))
  = App.requests w
    ++ [request_contents system_prompt_text
          (history_of (App.session_state w) d) None
          (plain_prompt E (App.session_state w) d user_chat_input)] /\
  Forall (fun content => App.role content = lit "user" \/
                         App.role content = lit "model")
    (request_contents system_prompt_text
       (history_of (App.session_state w) d) None
       (plain_prompt E (App.session_state w) d user_chat_input)).
Proof.
  intros Hready Hinfo Hsys Hprompt.
  rewrite (chat_plain_run E d user_chat_input w system_prompt_text
             Hready Hinfo Hsys Hprompt).
  split; [reflexivity | apply request_contents_roles].
Qed.

(** X24: after such a turn the history holds two more messages: the text
    as it was typed, then the response, or the error text when the request
    failed.  A response becomes the current document; a failure leaves
    the current document as it was.  No other entry of the session
    changes. *)
Theorem chat_turn_session `{Unicode} (E : App.AppEnv)
    (d user_chat_input : str) (w : App.AppWorld) (system_prompt_text : str) :
  history_ready (App.session_state w) d ->
  App.truthy (lookup (App.session_state w) (App.uploaded_file_info_key d)
                App.VNone) = false ->
  lookup (App.session_state w) (lit "system_prompt") (App.VStr [])
  = App.VStr system_prompt_text ->
  strip (plain_prompt E (App.session_state w) d user_chat_input) <> [] ->
  let outcome :=
    api_outcome E
      (request_contents system_prompt_text
         (history_of (App.session_state w) d) None
         (plain_prompt E (App.session_state w) d user_chat_input)) in
  let w' := snd (App.run_chat_interface_chat E d user_chat_input w) in
  fst (App.run_chat_interface_chat E d user_chat_input w) = Ok tt /\
  history_of (App.session_state w') d
  = history_of (App.session_state w) d
    ++ [text_message (lit "user") (Some user_chat_input);
        reply_message outcome] /\
  lookup (App.session_state w') (App.current_md_key d) App.VNone
  = match outcome with
    | Ok text => App.value_of_text text
    | Raise _ => lookup (App.session_state w) (App.current_md_key d) App.VNone
    end /\
  forall key, key <> App.messages_key d -> key <> App.current_md_key d ->
    App.state_get (App.session_state w') key
    = App.state_get (App.session_state w) key.
Proof.
  intros Hready Hinfo Hsys Hprompt outcome w'. subst outcome w'.
  rewrite (chat_plain_run E d user_chat_input w system_prompt_text
             Hready Hinfo Hsys Hprompt).
  cbn [fst snd App.session_state].
  split; [reflexivity|].
  split; [rewrite after_request_history, <- app_assoc; reflexivity|].
  split.
  - rewrite after_request_current.
    rewrite (lookup_set_other _ _ _ _ _ (messages_key_not_current d d)).
    reflexivity.
  - intros key Hm Hc. rewrite after_request_other by assumption.
    apply state_get_set_other. congruence.
Qed.

(** X25: when an upload is pending, the prompt sent is the extraction
    template, filled in, after the uploaded data; the text typed is stored
    in the history but is no part of the request.  After the turn no
    upload is pending and no file name is remembered. *)
Theorem pending_upload_overrides_input `{Unicode} (E : App.AppEnv)
    (d user_chat_input : str) (w : App.AppWorld) (info : App.UploadedInfo)
    (template prompt system_prompt_text : str) :
  history_ready (App.session_state w) d ->
  lookup (App.session_state w) (App.uploaded_file_info_key d) App.VNone
  = App.VInfo info ->
  App.info_data info <> [] -> App.info_type info <> [] ->
  lookup (App.session_state w) (template_key d) (App.VStr [])
  = App.VStr template ->
  App.str_format E template d = Ok prompt ->
  strip prompt <> [] ->
  lookup (App.session_state w) (lit "system_prompt") (App.VStr [])
  = App.VStr system_prompt_text ->
  let contents :=
    request_contents system_prompt_text (history_of (App.session_state w) d)
      (Some (App.inline_data (App.info_data info) (App.info_type info)))
      prompt in
  let w' := snd (App.run_chat_interface_chat E d user_chat_input w) in
  App.requests w' = App.requests w ++ [contents] /\
  history_of (App.session_state w') d
  = history_of (App.session_state w) d
    ++ [text_message (lit "user") (Some user_chat_input);
        reply_message (api_outcome E contents)] /\
  App.state_get (App.session_state w') (App.uploaded_file_info_key d)
  = Some App.VNone /\
  App.state_get (App.session_state w') (App.last_uploaded_filename_key d)
  = Some App.VNone.
Proof.
  intros Hready Hinfo Hdata Hmime Htemplate Hformat Hprompt Hsys contents w'.
  subst contents w'.
  rewrite (chat_pending_run E d user_chat_input w info template prompt
             system_prompt_text Hready Hinfo Hdata Hmime Htemplate Hformat
             Hprompt Hsys).
  cbn [snd App.session_state App.requests].
  split; [reflexivity|].
  split; [rewrite after_request_history, <- app_assoc; reflexivity|].
  split.
  - rewrite after_request_other
      by first [apply not_eq_sym; apply messages_key_not_info
               | apply info_key_not_current].
    rewrite (state_get_set_other _ _ _ _
               (fun Heq => info_key_not_last d d (eq_sym Heq))).
    apply state_get_set_same.
  - rewrite after_request_other
      by first [apply not_eq_sym; apply messages_key_not_last
               | apply last_key_not_current].
    apply state_get_set_same.
Qed.

Lemma after_request_ready `{Unicode} (state : App.SessionState) (d : str)
    (history : list App.Message) (outcome : result (option str)) :
  history_ready (after_request state d history outcome) d.
Proof.
  unfold after_request. destruct outcome as [text|e].
  - apply history_ready_set_other; [|apply history_ready_set].
    apply not_eq_sym, messages_key_not_current.
  - apply history_ready_set.
Qed.

(** A file in the uploader whose name is not the one remembered. *)
Lemma upload_run (d : str) (f : App.UploadedFile) (w : App.AppWorld)
    (last : App.Value) :
  App.state_get (App.session_state w) (App.last_uploaded_filename_key d)
  = Some last ->
  App.differs last (App.file_name f) = true ->
  history_ready (App.session_state w) d ->
  App.run_chat_interface_upload d (Some f) w
  = (Ok true,
     {| App.session_state :=
          App.state_set
            (App.state_set
               (App.state_set (App.session_state w)
                  (App.uploaded_file_info_key d) (upload_info f))
               (App.last_uploaded_filename_key d)
               (App.VStr (App.file_name f)))
            (App.messages_key d)
            (App.VMessages
               (history_of (App.session_state w) d ++ [upload_message d f]));
        App.page := App.page w ++ [App.st_rerun];
        App.requests := App.requests w |}).
Proof.
  intros Hlast Hdiffers Hready. unfold App.run_chat_interface_upload.
  unfold App.bind at 1, App.session_item at 1. rewrite Hlast, Hdiffers.
  rewrite (bind_ok _ _ _ _ _ (session_set_run _ _ _)).
  rewrite (bind_ok _ _ _ _ _ (session_set_run _ _ _)).
  cbn [App.session_state App.page App.requests].
  assert (Hready2 : forall page requests,
    history_ready
      (App.session_state
         {| App.session_state :=
              App.state_set
                (App.state_set (App.session_state w)
                   (App.uploaded_file_info_key d) (upload_info f))
                (App.last_uploaded_filename_key d)
                (App.VStr (App.file_name f));
            App.page := page; App.requests := requests |}) d).
  { intros page requests. cbn [App.session_state].
    apply history_ready_set_other;
      [apply not_eq_sym, messages_key_not_last|].
    apply history_ready_set_other;
      [apply not_eq_sym, messages_key_not_info | exact Hready]. }
  assert (Hhistory :
    history_of
      (App.state_set
         (App.state_set (App.session_state w)
            (App.uploaded_file_info_key d) (upload_info f))
         (App.last_uploaded_filename_key d) (App.VStr (App.file_name f))) d
    = history_of (App.session_state w) d).
  { rewrite history_of_set_other by (apply not_eq_sym, messages_key_not_last).
    apply history_of_set_other. apply not_eq_sym, messages_key_not_info. }
  unfold upload_message.
  destruct (startswith (lit "image/") (App.file_type f)); cbn [andb].
  - rewrite (bind_ok _ _ _ _ _
               (add_message_to_history_ready _ _ d _ _ _ (Hready2 _ _))).
    cbn [App.session_state App.page App.requests]. rewrite Hhistory.
    rewrite (bind_ok _ _ _ _ _ (show_run _ _)).
    cbn [App.session_state App.page App.requests].
    change (App.nonempty (lit "Uploaded: " ++ App.file_name f)) with true.
    rewrite andb_true_r. reflexivity.
  - rewrite (bind_ok _ _ _ _ _
               (add_message_to_history_ready _ _ d _ _ _ (Hready2 _ _))).
    cbn [App.session_state App.page App.requests]. rewrite Hhistory.
    rewrite (bind_ok _ _ _ _ _ (show_run _ _)). reflexivity.
Qed.

(** X26: once a chat turn has processed a pending upload, a file still in
    the uploader is taken for a new upload on the next run, whatever its
    name: it is made pending again and announced by a new message. *)
Theorem upload_registered_again `{Unicode} (E : App.AppEnv)
    (d user_chat_input : str) (w : App.AppWorld) (info : App.UploadedInfo)
    (template prompt system_prompt_text : str) (f : App.UploadedFile) :
  history_ready (App.session_state w) d ->
  lookup (App.session_state w) (App.uploaded_file_info_key d) App.VNone
  = App.VInfo info ->
  App.info_data info <> [] -> App.info_type info <> [] ->
  lookup (App.session_state w) (template_key d) (App.VStr [])
  = App.VStr template ->
  App.str_format E template d = Ok prompt ->
  strip prompt <> [] ->
  lookup (App.session_state w) (lit "system_prompt") (App.VStr [])
  = App.VStr system_prompt_text ->
  let w1 := snd (App.run_chat_interface_chat E d user_chat_input w) in
  exists w2,
    App.run_chat_interface_upload d (Some f) w1 = (Ok true, w2) /\
    App.state_get (App.session_state w2) (App.uploaded_file_info_key d)
    = Some (upload_info f) /\
    history_of (App.session_state w2) d
    = history_of (App.session_state w1) d ++ [upload_message d f].
Proof.
  intros Hready Hinfo Hdata Hmime Htemplate Hformat Hprompt Hsys w1.
  subst w1.
  rewrite (chat_pending_run E d user_chat_input w info template prompt
             system_prompt_text Hready Hinfo Hdata Hmime Htemplate Hformat
             Hprompt Hsys).
  cbn [snd].
  eexists. split.
  - apply (upload_run d f _ App.VNone).
    + cbn [App.session_state].
      rewrite after_request_other
        by first [apply not_eq_sym; apply messages_key_not_last
                 | apply last_key_not_current].
      apply state_get_set_same.
    + reflexivity.
    + cbn [App.session_state]. apply after_request_ready.
  - cbn [App.session_state]. split.
    + rewrite (state_get_set_other _ _ _ _
                 (fun Heq => messages_key_not_info d d Heq)).
      rewrite (state_get_set_other _ _ _ _
                 (fun Heq => info_key_not_last d d (eq_sym Heq))).
      apply state_get_set_same.
    + apply history_of_set.
Qed.

Lemma cleared_history (state : App.SessionState) (d : str)
    (messages : list App.Message) :
  history_of
    (App.state_set
       (App.state_set
          (App.state_set state (App.messages_key d) (App.VMessages messages))
          (App.uploaded_file_info_key d) App.VNone)
       (App.last_uploaded_filename_key d) App.VNone) d
  = messages.
Proof.
  rewrite history_of_set_other by (apply not_eq_sym, messages_key_not_last).
  rewrite history_of_set_other by (apply not_eq_sym, messages_key_not_info).
  apply history_of_set.
Qed.

Lemma cleared_ready (state : App.SessionState) (d : str)
    (messages : list App.Message) :
  history_ready
    (App.state_set
       (App.state_set
          (App.state_set state (App.messages_key d) (App.VMessages messages))
          (App.uploaded_file_info_key d) App.VNone)
       (App.last_uploaded_filename_key d) App.VNone) d.
Proof.
  apply history_ready_set_other; [apply not_eq_sym, messages_key_not_last|].
  apply history_ready_set_other;
    [apply not_eq_sym, messages_key_not_info | apply history_ready_set].
Qed.

Lemma cleared_info (state : App.SessionState) (d : str) (v : App.Value) :
  App.state_get
    (App.state_set
       (App.state_set (App.state_set state (App.messages_key d) v)
          (App.uploaded_file_info_key d) App.VNone)
       (App.last_uploaded_filename_key d) App.VNone)
    (App.uploaded_file_info_key d)
  = Some App.VNone.
Proof.
  rewrite (state_get_set_other _ _ _ _
             (fun Heq => info_key_not_last d d (eq_sym Heq))).
  apply state_get_set_same.
Qed.

(** X27: when the pending upload has no data or no type, no request is
    sent: the history gets the text typed and the error message (and the
    empty-request message too when the text typed is blank), and the
    upload is dropped. *)
Theorem corrupt_upload_not_sent `{Unicode} (E : App.AppEnv)
    (d user_chat_input : str) (w : App.AppWorld) (info : App.UploadedInfo) :
  history_ready (App.session_state w) d ->
  lookup (App.session_state w) (App.uploaded_file_info_key d) App.VNone
  = App.VInfo info ->
  App.nonempty (App.info_data info) && App.nonempty (App.info_type info)
  = false ->
  let w' := snd (App.run_chat_interface_chat E d user_chat_input w) in
  fst (App.run_chat_interface_chat E d user_chat_input w) = Ok tt /\
  App.requests w' = App.requests w /\
  history_of (App.session_state w') d
  = history_of (App.session_state w) d
    ++ [text_message (lit "user") (Some user_chat_input); CORRUPT_UPLOAD]
    ++ (if App.nonempty (strip user_chat_input) then []
        else [EMPTY_REQUEST]) /\
  App.state_get (App.session_state w') (App.uploaded_file_info_key d)
  = Some App.VNone /\
  App.state_get (App.session_state w') (App.last_uploaded_filename_key d)
  = Some App.VNone.
Proof.
  intros Hready Hinfo Hcorrupt w'. subst w'.
  enough (Hrun : exists state' page',
    App.run_chat_interface_chat E d user_chat_input w
    = (Ok tt, {| App.session_state := state'; App.page := page';
                 App.requests := App.requests w |}) /\
    history_of state' d
    = history_of (App.session_state w) d
      ++ [text_message (lit "user") (Some user_chat_input); CORRUPT_UPLOAD]
      ++ (if App.nonempty (strip user_chat_input) then []
          else [EMPTY_REQUEST]) /\
    App.state_get state' (App.uploaded_file_info_key d) = Some App.VNone /\
    App.state_get state' (App.last_uploaded_filename_key d)
    = Some App.VNone).
  { destruct Hrun as (state' & page' & Hrun & Hh & Hi & Hl).
    rewrite Hrun. cbn [fst snd App.session_state App.requests].
    repeat split; assumption || reflexivity. }
  unfold CORRUPT_UPLOAD, EMPTY_REQUEST, text_message.
  unfold App.run_chat_interface_chat.
  rewrite (bind_ok _ _ _ _ _
             (add_message_to_history_ready _ _ d None None w Hready)).
  rewrite (bind_ok _ _ _ _ _ (session_get_run _ _ _)). app_step.
  rewrite (lookup_set_other _ _ _ _ _ (messages_key_not_info d d)).
  rewrite (bind_ok _ _ _ _ _ (session_get_run _ _ _)). app_step.
  unfold App.select_prompt. rewrite Hinfo. cbn [App.truthy].
  cbv beta iota zeta. rewrite Hcorrupt. app_step.
  rewrite (bind_ok _ _ _ _ _ (show_run _ _)). app_step.
  match goal with
  | |- context [App.bind (App.add_message_to_history ?r ?c d None None) _ ?w0] =>
      rewrite (bind_ok _ _ _ _ _
                 (add_message_to_history_ready r c d None None w0
                    (history_ready_set _ _ _)))
  end.
  app_step. rewrite history_of_set, state_set_set.
  unfold App.bind at 1, App.ret at 1. app_step.
  rewrite (bind_ok _ _ _ _ _ (session_set_run _ _ _)). app_step.
  rewrite (bind_ok _ _ _ _ _ (session_set_run _ _ _)). app_step.
  unfold App.bind at 1, App.ret at 1. app_step.
  destruct (strip user_chat_input) as [|c t]; cbn [App.nonempty negb].
  - match goal with
    | |- context [App.bind (App.bind (App.add_message_to_history ?r ?c d None None) ?k1)
                    ?k2 ?w0] =>
        rewrite (bind_bind _ k1 k2 w0);
        rewrite (bind_ok _ _ _ _ _
                   (add_message_to_history_ready r c d None None w0
                      (cleared_ready _ _ _)))
    end.
    app_step. rewrite cleared_history.
    unfold App.bind at 1, App.ret at 1. app_step.
    unfold App.bind at 1, App.ret at 1. rewrite show_run.
    cbn [App.session_state App.page App.requests].
    eexists. eexists. split; [reflexivity|].
    split; [rewrite history_of_set, <- !app_assoc; reflexivity|].
    split.
    + rewrite (state_get_set_other _ _ _ _
                 (fun Heq => messages_key_not_info d d Heq)).
      apply cleared_info.
    + rewrite (state_get_set_other _ _ _ _
                 (fun Heq => messages_key_not_last d d Heq)).
      apply state_get_set_same.
  - unfold App.bind at 1, App.ret at 1. app_step.
    unfold App.bind at 1, App.ret at 1. rewrite show_run.
    cbn [App.session_state App.page App.requests].
    eexists. eexists. split; [reflexivity|].
    split; [rewrite cleared_history, app_nil_r, <- !app_assoc; reflexivity|].
    split; [apply cleared_info | apply state_get_set_same].
Qed.

Lemma add_message_to_history_appends_witness :
  exists w' message,
    App.add_message_to_history (lit "user") (Some (lit "Add nuts"))
      (lit "Quotation") (Some [137%N; 80%N]) (Some [])
      (quotation_session App.VNone)
    = (Ok tt, w') /\
    history_of (App.session_state w') (lit "Quotation")
    = history_of (App.session_state (quotation_session App.VNone))
        (lit "Quotation") ++ [message] /\
    App.msg_image message = None.
Proof.
  destruct (add_message_to_history_appends (lit "user")
              (Some (lit "Add nuts")) (lit "Quotation")
              (Some [137%N; 80%N]) (Some []) (quotation_session App.VNone))
    as (w' & message & Hrun & Hhistory & _ & _ & Himage & _).
  - right. eexists. reflexivity.
  - exists w', message. split; [exact Hrun|]. split; [exact Hhistory|].
    destruct (App.msg_image message) as [[b c]|]; [|reflexivity].
    destruct (proj1 (Himage b c) eq_refl) as (_ & Hc & _ & Hne).
    injection Hc as <-. congruence.
Defined.

Lemma chat_request_contents_witness :
  App.requests
    (snd (App.run_chat_interface_chat table_model (lit "Quotation")
            (lit "Add nuts") (quotation_session App.VNone)))
  = [[ {| App.role := lit "user";
          App.parts := [App.from_text (Some (lit "Answer in Markdown."))] |};
       {| App.role := lit "user";
          App.parts := [App.from_text (Some (lit "Price of bolts?"))] |};
       {| App.role := lit "model";
          App.parts := [App.from_text (Some (lit "5 each"))] |};
       {| App.role := lit "user";
          App.parts := [App.from_text (Some (lit "Add nuts"))] |} ]].
Proof.
  refine (proj1 (chat_request_contents table_model (lit "Quotation")
                   (lit "Add nuts") (quotation_session App.VNone)
                   (lit "Answer in Markdown.") _ _ _ _)).
  - right. eexists. reflexivity.
  - reflexivity.
  - reflexivity.
  - vm_compute. discriminate.
Defined.

Lemma chat_turn_session_witness :
  history_of
    (App.session_state
       (snd (App.run_chat_interface_chat offline_model (lit "Quotation")
               (lit "Add nuts") (quotation_session App.VNone))))
    (lit "Quotation")
  = [ text_message (lit "user") (Some (lit "Price of bolts?"));
      text_message (lit "assistant") (Some (lit "5 each"));
      text_message (lit "user") (Some (lit "Add nuts"));
      text_message (lit "assistant")
        (Some (lit "Error with Gemini API: 503 UNAVAILABLE")) ].
Proof.
  refine (proj1 (proj2 (chat_turn_session offline_model (lit "Quotation")
                          (lit "Add nuts") (quotation_session App.VNone)
                          (lit "Answer in Markdown.") _ _ _ _))).
  - right. eexists. reflexivity.
  - reflexivity.
  - reflexivity.
  - vm_compute. discriminate.
Defined.

Lemma pending_upload_overrides_input_witness :
  App.requests
    (snd (App.run_chat_interface_chat table_model (lit "Quotation")
            (lit "Only the total please")
            (quotation_session (App.VInfo scan_info))))
  = [[ {| App.role := lit "user";
          App.parts := [App.from_text (Some (lit "Answer in Markdown."))] |};
       {| App.role := lit "user";
          App.parts := [App.from_text (Some (lit "Price of bolts?"))] |};
       {| App.role := lit "model";
          App.parts := [App.from_text (Some (lit "5 each"))] |};
       {| App.role := lit "user";
          App.parts :=
            [App.inline_data [137%N; 80%N] (lit "image/png");
             App.from_text (Some (lit "Extract the quotation."))] |} ]].
Proof.
  refine (proj1 (pending_upload_overrides_input table_model (lit "Quotation")
                   (lit "Only the total please")
                   (quotation_session (App.VInfo scan_info)) scan_info
                   (lit "Extract the quotation.")
                   (lit "Extract the quotation.")
                   (lit "Answer in Markdown.") _ _ _ _ _ _ _ _)).
  - right. eexists. reflexivity.
  - reflexivity.
  - discriminate.
  - discriminate.
  - reflexivity.
  - reflexivity.
  - vm_compute. discriminate.
  - reflexivity.
Defined.

Lemma upload_registered_again_witness :
  exists w2,
    App.run_chat_interface_upload (lit "Quotation") (Some scan_file)
      (snd (App.run_chat_interface_chat table_model (lit "Quotation")
              (lit "Only the total please")
              (quotation_session (App.VInfo scan_info))))
    = (Ok true, w2) /\
    App.state_get (App.session_state w2)
      (App.uploaded_file_info_key (lit "Quotation"))
    = Some (App.VInfo scan_info).
Proof.
  destruct (upload_registered_again table_model (lit "Quotation")
              (lit "Only the total please")
              (quotation_session (App.VInfo scan_info)) scan_info
              (lit "Extract the quotation.") (lit "Extract the quotation.")
              (lit "Answer in Markdown.") scan_file)
    as (w2 & Hrun & Hinfo & _).
  - right. eexists. reflexivity.
  - reflexivity.
  - discriminate.
  - discriminate.
  - reflexivity.
  - reflexivity.
  - vm_compute. discriminate.
  - reflexivity.
  - exists w2. split; [exact Hrun | exact Hinfo].
Defined.

Lemma corrupt_upload_not_sent_witness :
  App.requests
    (snd (App.run_chat_interface_chat table_model (lit "Quotation")
            (lit "Extract details")
            (quotation_session (App.VInfo empty_scan_info))))
  = [].
Proof.
  refine (proj1 (proj2 (corrupt_upload_not_sent table_model (lit "Quotation")
                          (lit "Extract details")
                          (quotation_session (App.VInfo empty_scan_info))
                          empty_scan_info _ _ _))).
  - right. eexists. reflexivity.
  - reflexivity.
  - reflexivity.
Defined.

Lemma ensure_run {T : Type} (key : str) (v : App.Value)
    (k : unit -> App.A T) (w : App.AppWorld) :
  App.bind (App.session_contains key)
    (fun present =>
       App.bind (if negb present then App.session_set key v else App.ret tt) k)
    w
  = k tt {| App.session_state := ensure (App.session_state w) key v;
            App.page := App.page w;
            App.requests := App.requests w |}.
Proof.
  unfold App.bind at 1, App.session_contains, ensure.
  destruct (App.state_get (App.session_state w) key); cbn [negb].
  - unfold App.bind, App.ret. destruct w; reflexivity.
  - unfold App.bind, App.session_set. reflexivity.
Qed.

Lemma ensure_last_run (key : str) (v : App.Value) (w : App.AppWorld) :
  App.bind (App.session_contains key)
    (fun present =>
       if negb present then App.session_set key v else App.ret tt)
    w
  = (Ok tt, {| App.session_state := ensure (App.session_state w) key v;
               App.page := App.page w;
               App.requests := App.requests w |}).
Proof.
  unfold App.bind at 1, App.session_contains, ensure.
  destruct (App.state_get (App.session_state w) key); cbn [negb].
  - unfold App.ret. destruct w; reflexivity.
  - reflexivity.
Qed.

Lemma ensure_keeps (state : App.SessionState) (key key' : str)
    (v x : App.Value) :
  App.state_get state key' = Some x ->
  App.state_get (ensure state key v) key' = Some x.
Proof.
  intros Hget. unfold ensure.
  destruct (App.state_get state key) eqn:Hkey; [exact Hget|].
  rewrite state_get_set_other; [exact Hget|].
  intros Heq. subst key'. congruence.
Qed.

Lemma ensure_present (state : App.SessionState) (key : str) (v : App.Value) :
  present (ensure state key v) key.
Proof.
  unfold ensure, present.
  destruct (App.state_get state key) eqn:Hkey.
  - eexists. exact Hkey.
  - eexists. apply state_get_set_same.
Qed.

Lemma ensure_present_other (state : App.SessionState) (key key' : str)
    (v : App.Value) :
  present state key' -> present (ensure state key v) key'.
Proof. intros [x Hx]. exists x. apply ensure_keeps. exact Hx. Qed.

Lemma ensure_messages (state : App.SessionState) (d : str) :
  history_of (ensure state (App.messages_key d) (App.VMessages [])) d
  = history_of state d /\
  (history_ready state d ->
   exists messages,
     App.state_get (ensure state (App.messages_key d) (App.VMessages []))
       (App.messages_key d)
     = Some (App.VMessages messages)).
Proof.
  unfold ensure, history_of, history_ready.
  destruct (App.state_get state (App.messages_key d)) as [v|] eqn:Hkey.
  - rewrite Hkey. split; [reflexivity|].
    intros [Hnone | [messages Hsome]]; [discriminate|].
    exists messages. exact Hsome.
  - rewrite state_get_set_same. split; [reflexivity|].
    intros _. exists []. reflexivity.
Qed.

(** X28: the set-up at the start of every run never changes an entry the
    session already holds, so the chat survives the reruns; it only adds
    the entries of the document type that are missing, and shows and
    sends nothing. *)
Theorem run_chat_interface_init_keeps `{Unicode} (d : str)
    (w : App.AppWorld) :
  exists state',
    App.run_chat_interface_init d w
    = (Ok tt, {| App.session_state := state'; App.page := App.page w;
                 App.requests := App.requests w |}) /\
    (forall key v, App.state_get (App.session_state w) key = Some v ->
                   App.state_get state' key = Some v) /\
    history_of state' d = history_of (App.session_state w) d /\
    present state' (App.messages_key d) /\
    present state' (App.current_md_key d) /\
    present state' (App.uploaded_file_info_key d) /\
    present state' (App.last_uploaded_filename_key d).
Proof.
  exists (ensure
            (ensure
               (ensure
                  (ensure (App.session_state w) (App.messages_key d)
                     (App.VMessages []))
                  (App.current_md_key d) App.VNone)
               (App.uploaded_file_info_key d) App.VNone)
            (App.last_uploaded_filename_key d) App.VNone).
  split.
  { unfold App.run_chat_interface_init.
    rewrite ensure_run. rewrite ensure_run. rewrite ensure_run.
    rewrite ensure_last_run. reflexivity. }
  split.
  { intros key v Hget. repeat apply ensure_keeps. exact Hget. }
  split.
  { unfold history_of at 1.
    assert (Hkeep : forall state key v,
               key <> App.messages_key d ->
               App.state_get (ensure state key v) (App.messages_key d)
               = App.state_get state (App.messages_key d)).
    { intros state key v Hne. unfold ensure.
      destruct (App.state_get state key); [reflexivity|].
      apply state_get_set_other. exact Hne. }
    rewrite Hkeep by (apply not_eq_sym, messages_key_not_last).
    rewrite Hkeep by (apply not_eq_sym, messages_key_not_info).
    rewrite Hkeep by (apply not_eq_sym, messages_key_not_current).
    apply (proj1 (ensure_messages (App.session_state w) d)). }
  split; [do 3 apply ensure_present_other; apply ensure_present|].
  split; [do 2 apply ensure_present_other; apply ensure_present|].
  split; [apply ensure_present_other; apply ensure_present|].
  apply ensure_present.
Qed.

Lemma md_match_prev (p q : option char) (s : str) :
  App.md_match p s = App.md_match q s.
Proof. reflexivity. Qed.

Lemma md_match_other (p : option char) (c : char) (t : str) :
  ~ c = DOT -> App.md_match p (c :: t) = None.
Proof.
  intros Hc. unfold App.md_match. cbn [startswith].
  change (lit ".md") with (DOT :: lit "md"). cbn [startswith].
  destruct (N.eqb DOT c) eqn:E; [apply N.eqb_eq in E; congruence|].
  reflexivity.
Qed.

Lemma tmp_pdf_path_pieces (pieces : list str) (p : option char) :
  Forall dot_free pieces ->
  re_sub_from App.md_match O p (join (lit ".md") pieces)
  = join (lit ".pdf") pieces.
Proof.
  intros Hfree. revert p.
  induction Hfree as [|piece rest Hpiece Hrest IH]; intros p; [reflexivity|].
  destruct rest as [|next rest].
  - cbn [join].
    apply (re_sub_from_id App.md_match (Forall (fun c => c <> DOT)));
      [apply Forall_tail | | exact Hpiece].
    intros q c t Hc. apply md_match_other. exact (Forall_head _ _ _ Hc).
  - change (join (lit ".md") (piece :: next :: rest))
      with (piece ++ lit ".md" ++ join (lit ".md") (next :: rest)).
    change (join (lit ".pdf") (piece :: next :: rest))
      with (piece ++ lit ".pdf" ++ join (lit ".pdf") (next :: rest)).
    rewrite (re_sub_from_copy App.md_match (fun c => c = DOT) md_match_prev
               md_match_other piece _ p Hpiece).
    f_equal.
    change (lit ".md" ++ join (lit ".md") (next :: rest))
      with (DOT :: lit "md" ++ join (lit ".md") (next :: rest)).
    rewrite (re_sub_from_match App.md_match DOT (lit "md") _ (lit ".pdf") p
               md_match_prev eq_refl).
    f_equal. apply IH.
Qed.

(** X29: the path of the PDF offered for download is the path of the
    temporary Markdown file with every [.md] in it replaced, not only the
    extension: a directory whose name holds [.md] is renamed in the path
    as well. *)
Theorem tmp_pdf_path_replaces_every_md (pieces : list str) :
  Forall dot_free pieces ->
  App.tmp_pdf_path (join (lit ".md") pieces) = join (lit ".pdf") pieces.
Proof.
  intros Hfree. unfold App.tmp_pdf_path, re_sub.
  apply tmp_pdf_path_pieces. exact Hfree.
Qed.

Lemma tmp_pdf_path_replaces_every_md_witness :
  App.tmp_pdf_path (lit "/home/user/notes.md/tmp8k2.md")
  = lit "/home/user/notes.pdf/tmp8k2.pdf".
Proof.
  refine (tmp_pdf_path_replaces_every_md
            [lit "/home/user/notes"; lit "/tmp8k2"; []] _).
  repeat constructor; discriminate.
Defined.
